(** * Guarded action authorization in [lambda/lambda_handler.py]

    A shallow embedding of the confirmation-token store, the audit log,
    the budget and backup guards and the handlers that consult them
    ([terminate_ec2_instance], [delete_ebs_volume], [process_ec2_action],
    and further [launch_ec2_instance], [create_ami_backup],
    [change_instance_type] and [get_action_logs]), followed by the
    properties of the specification stated over it and by further
    properties of the same code.

    Conventions.
    - A Python [str] is a [string]; each character is read as the code
      point of the same number (0..255).
    - A Python [dict] with string keys is an association list in insertion
      order ([pydict]); the DynamoDB table keyed by [token] is a [gmap].
    - [time.time()] is a float that the code only ever observes through
      [int(...)] and through string formatting; a reading is the record
      [pyfloat] of these two observations. The clock does not advance
      during one handler call.
    - Money is a rational number ([Q]); the float rounding of the source is
      not modelled.
    - boto3 calls are answers of an environment [Env]: a [ClientError] is
      the left injection of a sum, and an exception raised by a DynamoDB
      call is an optional error text. The answers are well formed (the
      keys that the handlers index are present).
    - A handler returns an [outcome]: the dictionary it returns, or the
      exception that none of its [except] clauses catches. *)

From Stdlib Require Import ZArith QArith Qabs String Ascii List Lia Bool.
From Stdlib Require Import DecimalString DecimalZ DecimalPos DecimalFacts.
From Stdlib Require Import Sorted Permutation OrderedTypeEx.
From stdpp Require Import gmap strings.
Import ListNotations.

Set Warnings "-register-all".

Local Open Scope string_scope.
Local Open Scope Z_scope.

(** ** Python values *)

Module Py.

Inductive value : Type :=
| VNone
| VBool (b : bool)
| VInt (z : Z)
| VStr (s : string)
| VList (l : list value)
| VDict (d : list (string * value)).

Abbreviation pydict := (list (string * value)).

(** Induction that reaches the values nested in lists and dictionaries. *)
Section value_induction.
Variable P : value -> Prop.
Hypothesis PNone : P VNone.
Hypothesis PBool : forall b, P (VBool b).
Hypothesis PInt : forall z, P (VInt z).
Hypothesis PStr : forall s, P (VStr s).
Hypothesis PList : forall l, Forall P l -> P (VList l).
Hypothesis PDict : forall d, Forall (fun kx => P (snd kx)) d -> P (VDict d).

Fixpoint value_nested_ind (v : value) : P v :=
  match v with
  | VNone => PNone
  | VBool b => PBool b
  | VInt z => PInt z
  | VStr s => PStr s
  | VList l =>
      PList l ((fix all (l : list value) : Forall P l :=
                  match l with
                  | [] => @List.Forall_nil _ P
                  | x :: l' => @List.Forall_cons _ P x l' (value_nested_ind x) (all l')
                  end) l)
  | VDict d =>
      PDict d ((fix all (d : pydict) : Forall (fun kx => P (snd kx)) d :=
                  match d with
                  | [] => @List.Forall_nil _ _
                  | kx :: d' => @List.Forall_cons _ _ kx d' (value_nested_ind (snd kx)) (all d')
                  end) d)
  end.
End value_induction.

(** [bool(v)]: the truth value Python gives to [v] in [if v] / [not v]. *)
Definition truthy (v : value) : bool :=
  match v with
  | VNone => false
  | VBool b => b
  | VInt z => negb (z =? 0)
  | VStr s => match s with EmptyString => false | String _ _ => true end
  | VList l => match l with [] => false | _ => true end
  | VDict d => match d with [] => false | _ => true end
  end.

(** [d.get(k)] as an option; [d[k]] raises [KeyError] on [None]. *)
Fixpoint dict_lookup (k : string) (d : pydict) : option value :=
  match d with
  | [] => None
  | (k', v) :: d' => if String.eqb k k' then Some v else dict_lookup k d'
  end.

(** [d.get(k, dflt)] *)
Definition dict_get (k : string) (dflt : value) (d : pydict) : value :=
  match dict_lookup k d with Some v => v | None => dflt end.

(** [k in d] *)
Definition dict_mem (k : string) (d : pydict) : bool :=
  match dict_lookup k d with Some _ => true | None => false end.

(** [str.lower()] on code points below 256: the ASCII capitals and the
    Latin-1 capitals (192..222 without the multiplication sign 215). *)
Definition lower_char (c : ascii) : ascii :=
  let n := nat_of_ascii c in
  if ((Nat.leb 65 n && Nat.leb n 90)
      || (Nat.leb 192 n && Nat.leb n 214)
      || (Nat.leb 216 n && Nat.leb n 222))%bool
  then ascii_of_nat (n + 32) else c.

(** [str.upper()] on ASCII; the source applies it to hexadecimal digits
    only. *)
Definition upper_char (c : ascii) : ascii :=
  let n := nat_of_ascii c in
  if (Nat.leb 97 n && Nat.leb n 122)%bool then ascii_of_nat (n - 32) else c.

Fixpoint smap (f : ascii -> ascii) (s : string) : string :=
  match s with
  | EmptyString => EmptyString
  | String c s' => String (f c) (smap f s')
  end.

Definition lower : string -> string := smap lower_char.
Definition upper : string -> string := smap upper_char.

(** [s[:n]] for [n >= 0]. *)
Fixpoint take_str (n : nat) (s : string) : string :=
  match n, s with
  | O, _ => EmptyString
  | S n', String c s' => String c (take_str n' s')
  | S _, EmptyString => EmptyString
  end.

(** ** [json.dumps] and [json.loads]

    [json_dumps] follows the defaults of Python's encoder: separators
    [", "] and [": "], [ensure_ascii=True], so every character outside
    [' '..'~'] and the two characters double quote and backslash are
    escaped. *)

Definition dq : ascii := "034"%char.
Definition bs : ascii := "092"%char.

Definition hex_lower (n : N) : ascii :=
  if (n <? 10)%N then ascii_of_N (48 + n) else ascii_of_N (87 + n).

Definition escape_char (c : ascii) : string :=
  let n := N_of_ascii c in
  if Ascii.eqb c dq then String bs (String dq EmptyString)
  else if Ascii.eqb c bs then String bs (String bs EmptyString)
  else if (n =? 10)%N then String bs "n"
  else if (n =? 13)%N then String bs "r"
  else if (n =? 9)%N then String bs "t"
  else if (n =? 8)%N then String bs "b"
  else if (n =? 12)%N then String bs "f"
  else if ((32 <=? n) && (n <=? 126))%N then String c EmptyString
  else String bs (String "u" (String "0" (String "0"
         (String (hex_lower (n / 16)) (String (hex_lower (n mod 16)) EmptyString))))).

Fixpoint escape (s : string) : string :=
  match s with
  | EmptyString => EmptyString
  | String c s' => escape_char c ++ escape s'
  end.

Definition quote (s : string) : string :=
  String dq (escape s ++ String dq EmptyString).

(** [str(z)] for an integer. *)
Definition str_int (z : Z) : string := NilZero.string_of_int (Z.to_int z).

Fixpoint json_dumps (v : value) : string :=
  match v with
  | VNone => "null"
  | VBool true => "true"
  | VBool false => "false"
  | VInt z => str_int z
  | VStr s => quote s
  | VList l =>
      "[" ++
      match l with
      | [] => "]"
      | x :: l' =>
          json_dumps x ++
          (fix items (l : list value) : string :=
             match l with
             | [] => "]"
             | y :: l'' => ", " ++ json_dumps y ++ items l''
             end) l'
      end
  | VDict d =>
      "{" ++
      match d with
      | [] => "}"
      | (k, x) :: d' =>
          quote k ++ ": " ++ json_dumps x ++
          (fix members (d : list (string * value)) : string :=
             match d with
             | [] => "}"
             | (k', y) :: d'' => ", " ++ quote k' ++ ": " ++ json_dumps y ++ members d''
             end) d'
      end
  end.

(** The decoder reads what the encoder writes (and blanks after the
    separators); it answers [None] where [json.loads] raises. *)

Definition hex_val (c : ascii) : option N :=
  let n := N_of_ascii c in
  if ((48 <=? n) && (n <=? 57))%N then Some (n - 48)%N
  else if ((97 <=? n) && (n <=? 102))%N then Some (n - 87)%N
  else if ((65 <=? n) && (n <=? 70))%N then Some (n - 55)%N
  else None.

Definition unicode_escape (a b c d : ascii) : option ascii :=
  match hex_val a, hex_val b, hex_val c, hex_val d with
  | Some x, Some y, Some z, Some w =>
      let n := (((x * 16 + y) * 16 + z) * 16 + w)%N in
      if (n <? 256)%N then Some (ascii_of_N n) else None
  | _, _, _, _ => None
  end.

Definition simple_escape (e : ascii) : option ascii :=
  if Ascii.eqb e dq then Some dq
  else if Ascii.eqb e bs then Some bs
  else if Ascii.eqb e "/" then Some "/"%char
  else if Ascii.eqb e "n" then Some "010"%char
  else if Ascii.eqb e "r" then Some "013"%char
  else if Ascii.eqb e "t" then Some "009"%char
  else if Ascii.eqb e "b" then Some "008"%char
  else if Ascii.eqb e "f" then Some "012"%char
  else None.

Definition cons_result (c : ascii) (r : option (string * string)) : option (string * string) :=
  match r with
  | Some (x, rest) => Some (String c x, rest)
  | None => None
  end.

(** The body of a string literal, after its opening quote. *)
Fixpoint parse_str (s : string) : option (string * string) :=
  match s with
  | EmptyString => None
  | String c r =>
      if Ascii.eqb c dq then Some (EmptyString, r)
      else if Ascii.eqb c bs then
        match r with
        | String e r1 =>
            if Ascii.eqb e "u" then
              match r1 with
              | String h1 (String h2 (String h3 (String h4 r2))) =>
                  match unicode_escape h1 h2 h3 h4 with
                  | Some x => cons_result x (parse_str r2)
                  | None => None
                  end
              | _ => None
              end
            else
              match simple_escape e with
              | Some x => cons_result x (parse_str r1)
              | None => None
              end
        | EmptyString => None
        end
      else if (N_of_ascii c <? 32)%N then None
      else cons_result c (parse_str r)
  end.

Definition is_digit (c : ascii) : bool :=
  ((48 <=? N_of_ascii c) && (N_of_ascii c <=? 57))%N.

(** The longest prefix of digits, and what follows it. *)
Fixpoint span_digits (s : string) : string * string :=
  match s with
  | String c r =>
      if is_digit c then let (d, rest) := span_digits r in (String c d, rest)
      else (EmptyString, s)
  | EmptyString => (EmptyString, EmptyString)
  end.

Definition parse_int (s : string) : option (value * string) :=
  match s with
  | String c r =>
      let (d, rest) := if Ascii.eqb c "-" then span_digits r else span_digits s in
      let lit := if Ascii.eqb c "-" then String c d else d in
      match d with
      | EmptyString => None
      | String _ _ =>
          match NilZero.int_of_string lit with
          | Some i => Some (VInt (Z.of_int i), rest)
          | None => None
          end
      end
  | EmptyString => None
  end.

Fixpoint skip_blanks (s : string) : string :=
  match s with
  | EmptyString => EmptyString
  | String c r => if Ascii.eqb c " " then skip_blanks r else s
  end.

(** [s] without its prefix [p], when it has this prefix. *)
Fixpoint strip (p s : string) : option string :=
  match p, s with
  | EmptyString, _ => Some s
  | String a p', String b r => if Ascii.eqb a b then strip p' r else None
  | String _ _, EmptyString => None
  end.

Definition literal (p : string) (v : value) (s : string) : option (value * string) :=
  match strip p s with
  | Some r => Some (v, r)
  | None => None
  end.

Fixpoint parse_value (fuel : nat) (s : string) : option (value * string) :=
  match fuel, s with
  | S fuel', String c r =>
      if Ascii.eqb c "n" then literal "ull" VNone r
      else if Ascii.eqb c "t" then literal "rue" (VBool true) r
      else if Ascii.eqb c "f" then literal "alse" (VBool false) r
      else if Ascii.eqb c dq then
        match parse_str r with
        | Some (x, r1) => Some (VStr x, r1)
        | None => None
        end
      else if Ascii.eqb c "[" then
        match r with
        | String c' r' =>
            if Ascii.eqb c' "]" then Some (VList [], r')
            else
              match parse_value fuel' r with
              | Some (x, r1) =>
                  match parse_items fuel' r1 with
                  | Some (l, r2) => Some (VList (x :: l), r2)
                  | None => None
                  end
              | None => None
              end
        | EmptyString => None
        end
      else if Ascii.eqb c "{" then
        match r with
        | String c' r' =>
            if Ascii.eqb c' "}" then Some (VDict [], r')
            else
              match parse_member fuel' r with
              | Some (kx, r1) =>
                  match parse_members fuel' r1 with
                  | Some (d, r2) => Some (VDict (kx :: d), r2)
                  | None => None
                  end
              | None => None
              end
        | EmptyString => None
        end
      else parse_int s
  | _, _ => None
  end
with parse_items (fuel : nat) (s : string) : option (list value * string) :=
  match fuel, s with
  | S fuel', String c r =>
      if Ascii.eqb c "]" then Some ([], r)
      else if Ascii.eqb c "," then
        match parse_value fuel' (skip_blanks r) with
        | Some (x, r1) =>
            match parse_items fuel' r1 with
            | Some (l, r2) => Some (x :: l, r2)
            | None => None
            end
        | None => None
        end
      else None
  | _, _ => None
  end
with parse_member (fuel : nat) (s : string) : option ((string * value) * string) :=
  match fuel, s with
  | S fuel', String c r =>
      if Ascii.eqb c dq then
        match parse_str r with
        | Some (k, String c' r1) =>
            if Ascii.eqb c' ":" then
              match parse_value fuel' (skip_blanks r1) with
              | Some (x, r2) => Some ((k, x), r2)
              | None => None
              end
            else None
        | _ => None
        end
      else None
  | _, _ => None
  end
with parse_members (fuel : nat) (s : string) : option (list (string * value) * string) :=
  match fuel, s with
  | S fuel', String c r =>
      if Ascii.eqb c "}" then Some ([], r)
      else if Ascii.eqb c "," then
        match parse_member fuel' (skip_blanks r) with
        | Some (kx, r1) =>
            match parse_members fuel' r1 with
            | Some (d, r2) => Some (kx :: d, r2)
            | None => None
            end
        | None => None
        end
      else None
  | _, _ => None
  end.

(** [json.loads(s)]; the text has at most [length s] nested or adjacent
    values, which bounds the recursion. *)
Definition json_loads (s : string) : option value :=
  match parse_value (S (String.length s)) s with
  | Some (v, EmptyString) => Some v
  | _ => None
  end.

(** The tails that [json_dumps] writes after the first element of a list
    and after the first member of a dictionary. *)
Fixpoint dumps_items (l : list value) : string :=
  match l with
  | [] => "]"
  | y :: l' => ", " ++ json_dumps y ++ dumps_items l'
  end.

Fixpoint dumps_members (d : pydict) : string :=
  match d with
  | [] => "}"
  | (k, y) :: d' => ", " ++ quote k ++ ": " ++ json_dumps y ++ dumps_members d'
  end.

(** Recursion depth that [parse_value] needs to read [json_dumps v] back. *)
Fixpoint cost (v : value) : nat :=
  match v with
  | VList l =>
      (fix cost_items (l : list value) : nat :=
         match l with
         | [] => 1
         | x :: l' => S (cost x + cost_items l')
         end) l
  | VDict d =>
      (fix cost_members (d : pydict) : nat :=
         match d with
         | [] => 1
         | (_, x) :: d' => S (S (cost x) + cost_members d')
         end) d
  | _ => 1
  end%nat.

Definition cost_items (l : list value) : nat := cost (VList l).
Definition cost_members (d : pydict) : nat := cost (VDict d).

(** Text that cannot continue a number. *)
Definition no_digit_head (s : string) : Prop :=
  match s with
  | String c _ => is_digit c = false
  | EmptyString => True
  end.

(** Properties of the first character of a text. *)
Definition head_is (p : ascii -> Prop) (s : string) : Prop :=
  match s with
  | String c _ => p c
  | EmptyString => False
  end.

(** A character that closes no list or dictionary and is no blank. *)
Definition good_head (c : ascii) : Prop :=
  Ascii.eqb c "]" = false /\ Ascii.eqb c " " = false /\ Ascii.eqb c "}" = false.

End Py.
Import Py.

(** ** [hashlib.sha256]

    SHA-256 as in FIPS 180-4, on 32-bit words held in [Z] with the
    wrap-around written out. *)

Module Sha256.

Definition wrap32 (x : Z) : Z := x mod 2 ^ 32.
Definition add32 (x y : Z) : Z := wrap32 (x + y).
Definition rotr (n x : Z) : Z := Z.lor (Z.shiftr x n) (wrap32 (Z.shiftl x (32 - n))).
Definition not32 (x : Z) : Z := Z.lxor x 0xffffffff.

Definition Ch (x y z : Z) : Z := Z.lxor (Z.land x y) (Z.land (not32 x) z).
Definition Maj (x y z : Z) : Z := Z.lxor (Z.lxor (Z.land x y) (Z.land x z)) (Z.land y z).
Definition bsig0 (x : Z) : Z := Z.lxor (Z.lxor (rotr 2 x) (rotr 13 x)) (rotr 22 x).
Definition bsig1 (x : Z) : Z := Z.lxor (Z.lxor (rotr 6 x) (rotr 11 x)) (rotr 25 x).
Definition ssig0 (x : Z) : Z := Z.lxor (Z.lxor (rotr 7 x) (rotr 18 x)) (Z.shiftr x 3).
Definition ssig1 (x : Z) : Z := Z.lxor (Z.lxor (rotr 17 x) (rotr 19 x)) (Z.shiftr x 10).

(** The round constants are the first 32 bits of the fractional parts of
    the cube roots of the first 64 primes, and the initial hash value
    those of the square roots of the first 8 primes. *)
Definition primes : list Z :=
  [ 2; 3; 5; 7; 11; 13; 17; 19; 23; 29; 31; 37; 41; 43; 47; 53; 59; 61; 67; 71;
    73; 79; 83; 89; 97; 101; 103; 107; 109; 113; 127; 131; 137; 139; 149; 151;
    157; 163; 167; 173; 179; 181; 191; 193; 197; 199; 211; 223; 227; 229; 233;
    239; 241; 251; 257; 263; 269; 271; 277; 281; 283; 293; 307; 311 ].

(** The integer cube root below [2 ^ bits], one bit at a time. *)
Fixpoint cube_root_bits (bits : nat) (n r : Z) : Z :=
  match bits with
  | O => r
  | S b =>
      let c := r + 2 ^ Z.of_nat b in
      cube_root_bits b n (if c * c * c <=? n then c else r)
  end.

Definition frac32_cbrt (p : Z) : Z := wrap32 (cube_root_bits 40 (p * 2 ^ 96) 0).
Definition frac32_sqrt (p : Z) : Z := wrap32 (Z.sqrt (p * 2 ^ 64)).

Definition K : list Z := Eval vm_compute in map frac32_cbrt primes.

Record regs : Type := Regs { ra : Z; rb : Z; rc : Z; rd : Z; re : Z; rf : Z; rg : Z; rh : Z }.

Definition H0 : regs :=
  Eval vm_compute in
  Regs (frac32_sqrt 2) (frac32_sqrt 3) (frac32_sqrt 5) (frac32_sqrt 7)
       (frac32_sqrt 11) (frac32_sqrt 13) (frac32_sqrt 17) (frac32_sqrt 19).

(** Message padding: a [0x80] byte, zeros up to 56 modulo 64, and the bit
    length as a 64-bit big-endian integer. *)
Fixpoint be_bytes (n : nat) (x : Z) : list Z :=
  match n with
  | O => []
  | S n' => (Z.shiftr x (8 * Z.of_nat n')) mod 256 :: be_bytes n' x
  end.

Definition pad (msg : list Z) : list Z :=
  let len := Z.of_nat (length msg) in
  let zeros := Z.to_nat ((55 - len) mod 64) in
  (msg ++ 0x80 :: repeat 0 zeros ++ be_bytes 8 (8 * len))%list.

Fixpoint be_word (bytes : list Z) (acc : Z) : Z :=
  match bytes with
  | [] => acc
  | b :: r => be_word r (acc * 256 + b)
  end.

(** Cut into 32-bit big-endian words. *)
Fixpoint words (n : nat) (bytes : list Z) : list Z :=
  match n, bytes with
  | S n', b0 :: b1 :: b2 :: b3 :: r => be_word [b0; b1; b2; b3] 0 :: words n' r
  | _, _ => []
  end.

(** The message schedule, from the window of the sixteen last words. *)
Fixpoint schedule (n : nat) (win : list Z) : list Z :=
  match n with
  | O => []
  | S n' =>
      let w := add32 (add32 (ssig1 (nth 14 win 0)) (nth 9 win 0))
                     (add32 (ssig0 (nth 1 win 0)) (nth 0 win 0)) in
      w :: schedule n' (tl win ++ [w])%list
  end.

Definition round (r : regs) (kw : Z * Z) : regs :=
  let t1 := add32 (add32 (add32 (rh r) (bsig1 (re r))) (Ch (re r) (rf r) (rg r)))
                  (add32 (fst kw) (snd kw)) in
  let t2 := add32 (bsig0 (ra r)) (Maj (ra r) (rb r) (rc r)) in
  Regs (add32 t1 t2) (ra r) (rb r) (rc r) (add32 (rd r) t1) (re r) (rf r) (rg r).

Definition compress (h : regs) (block : list Z) : regs :=
  let w := (block ++ schedule 48 block)%list in
  let r := fold_left round (combine K w) h in
  Regs (add32 (ra h) (ra r)) (add32 (rb h) (rb r)) (add32 (rc h) (rc r))
       (add32 (rd h) (rd r)) (add32 (re h) (re r)) (add32 (rf h) (rf r))
       (add32 (rg h) (rg r)) (add32 (rh h) (rh r)).

Fixpoint blocks (n : nat) (ws : list Z) (h : regs) : regs :=
  match n with
  | O => h
  | S n' => blocks n' (skipn 16 ws) (compress h (firstn 16 ws))
  end.

Definition digest (msg : list Z) : regs :=
  let padded := pad msg in
  let ws := words (length padded / 4) padded in
  blocks (length ws / 16) ws H0.

Fixpoint hex_word (n : nat) (x : Z) : string :=
  match n with
  | O => EmptyString
  | S n' => String (hex_lower (Z.to_N ((Z.shiftr x (4 * Z.of_nat n')) mod 16))) (hex_word n' x)
  end.

Definition hex_regs (r : regs) : string :=
  hex_word 8 (ra r) ++ hex_word 8 (rb r) ++ hex_word 8 (rc r) ++ hex_word 8 (rd r) ++
  hex_word 8 (re r) ++ hex_word 8 (rf r) ++ hex_word 8 (rg r) ++ hex_word 8 (rh r).

(** [str.encode()]: UTF-8 of code points below 256. *)
Fixpoint encode (s : string) : list Z :=
  match s with
  | EmptyString => []
  | String c s' =>
      let n := Z.of_N (N_of_ascii c) in
      if n <? 128 then n :: encode s'
      else Z.lor 0xc0 (Z.shiftr n 6) :: Z.lor 0x80 (Z.land n 0x3f) :: encode s'
  end.

(** [hashlib.sha256(data).hexdigest()] *)
Definition hexdigest (data : list Z) : string := hex_regs (digest data).

End Sha256.

(** ** The environment of one request and the state the handlers change *)

(** A reading of [time.time()]: what [int(t)] and [str(t)] give. *)
Record pyfloat : Type := PyFloat { float_int : Z; float_str : string }.

(** An item of the DynamoDB table [CONFIRMATION_TABLE]. *)
Record TokenItem : Type := mkTokenItem {
  tk_token : string;
  tk_action : string;
  tk_parameters : string;
  tk_created_at : string;
  tk_expires_at : Z;
  tk_ttl : Z
}.

(** An item of the DynamoDB table [ACTION_LOG_TABLE]. *)
Record LogItem : Type := mkLogItem {
  lg_log_id : string;
  lg_timestamp : string;
  lg_action : string;
  lg_parameters : string;
  lg_status : string;
  lg_user_query : string;
  lg_user_email : string;
  lg_ttl : Z;
  lg_result : option string;
  lg_error : option string
}.

(** What [describe_instances], [describe_images] and [describe_volumes]
    answer, restricted to the fields the handlers read. *)
Record Instance : Type := mkInstance {
  InstanceId : string;
  InstanceType : string;
  InstanceState : string;
  InstanceTags : list (string * string)
}.

Record Image : Type := mkImage {
  ImageId : string;
  ImageName : option string;
  ImageState : string;
  CreationDate : string;
  (** the instant [datetime.fromisoformat] reads from [CreationDate],
      in seconds, on the scale of [datetime_now] *)
  created : Z;
  ImageDescription : option string;
  ImageTags : list (string * string)
}.

Record Volume : Type := mkVolume {
  VolumeId : string;
  Attachments : list (string * string)
}.

(** The calls that change resources. *)
Inductive Ec2Call : Type :=
| TerminateInstances (instance_id : string)
| DeleteVolume (volume_id : string).

Record World : Type := mkWorld {
  confirmation_table : gmap string TokenItem;
  action_log_table : list LogItem;
  (** number of [log_action] calls so far; indexes [uuid4] and the faults
      of the log table *)
  log_seq : nat;
  (** mutating EC2 calls, oldest first *)
  ec2_calls : list Ec2Call;
  (** lines written with [print] *)
  stdout : list string
}.

(** What a handler call ends with: a returned value, or an exception that
    no [except] clause of the handler catches. *)
Inductive outcome : Type :=
| Returned (v : value)
| Raised (exn : string).

Record Env : Type := mkEnv {
  time_time : pyfloat;
  (** [datetime.now()] in seconds and its [isoformat()] *)
  datetime_now : Z;
  datetime_now_iso : string;
  uuid4 : nat -> string;
  MAX_INSTANCE_COST_PER_HOUR : Q;
  (** [Some e]: the call raises an exception whose [str] is [e] *)
  log_put_item_raises : nat -> option string;
  token_put_item_raises : option string;
  token_get_item_raises : option string;
  token_delete_item_raises : option string;
  (** text of the error boto3 gives for a key that is not a string *)
  key_validation_error : string;
  (** text of [json.JSONDecodeError] *)
  json_decode_error : string;
  (** EC2: [inl e] is a [ClientError] whose [str] is [e] *)
  describe_instances : string -> string + list Instance;
  describe_images : string -> string + list Image;
  terminate_instances : string -> string + string;
  describe_volumes : string -> string + list Volume;
  delete_volume : string -> string + unit;
  (** the handlers of [process_ec2_action] that are not embedded below,
      by action name *)
  other_handler : string -> pydict -> World -> outcome * World
}.

(** State passing. *)
Definition M (A : Type) : Type := World -> A * World.

Definition ret {A} (x : A) : M A := fun w => (x, w).
Definition bind {A B} (m : M A) (k : A -> M B) : M B :=
  fun w => let (x, w') := m w in k x w'.

Notation "'let*' x ':=' m 'in' k" := (bind m (fun x => k))
  (at level 10, x name, m at level 100, k at level 200).
Notation "'do' m 'then' k" := (bind m (fun _ => k))
  (at level 10, m at level 100, k at level 200).

Definition put_token (t : string) (it : TokenItem) : M unit :=
  fun w => (tt, mkWorld (<[t := it]> (confirmation_table w)) (action_log_table w)
                        (log_seq w) (ec2_calls w) (stdout w)).

Definition delete_token (t : string) : M unit :=
  fun w => (tt, mkWorld (delete t (confirmation_table w)) (action_log_table w)
                        (log_seq w) (ec2_calls w) (stdout w)).

Definition get_token (t : string) : M (option TokenItem) :=
  fun w => (confirmation_table w !! t, w).

Definition put_log (it : LogItem) : M unit :=
  fun w => (tt, mkWorld (confirmation_table w) (action_log_table w ++ [it])
                        (log_seq w) (ec2_calls w) (stdout w)).

Definition next_log_seq : M nat :=
  fun w => (log_seq w, mkWorld (confirmation_table w) (action_log_table w)
                               (S (log_seq w)) (ec2_calls w) (stdout w)).

Definition call_ec2 (c : Ec2Call) : M unit :=
  fun w => (tt, mkWorld (confirmation_table w) (action_log_table w)
                        (log_seq w) (ec2_calls w ++ [c]) (stdout w)).

Definition print (line : string) : M unit :=
  fun w => (tt, mkWorld (confirmation_table w) (action_log_table w)
                        (log_seq w) (ec2_calls w) (stdout w ++ [line])).

(** ** Audit log *)

(** [x or dflt] for an optional string argument. *)
Definition str_or (x : option string) (dflt : string) : string :=
  match x with
  | Some (String c r) => String c r
  | _ => dflt
  end.

Definition retention : Z := 90 * 24 * 60 * 60.

Definition log_action (env : Env) (action : string) (parameters : value)
    (status : string) (result : value) (error : option string)
    (user_query user_email : option string) : M value :=
  let* n := next_log_seq in
  let log_id := uuid4 env n in
  let item :=
    {| lg_log_id := log_id;
       lg_timestamp := datetime_now_iso env;
       lg_action := action;
       lg_parameters := json_dumps parameters;
       lg_status := status;
       lg_user_query := str_or user_query EmptyString;
       lg_user_email := str_or user_email "anonymous";
       lg_ttl := float_int (time_time env) + retention;
       lg_result := if truthy result then Some (json_dumps result) else None;
       lg_error := match error with
                   | Some (String c r) => Some (String c r)
                   | _ => None
                   end |} in
  match log_put_item_raises env n with
  | None =>
      do put_log item then
      ret (VDict [("logged", VBool true); ("log_id", VStr log_id)])
  | Some e =>
      do print ("Error logging action: " ++ e) then
      ret (VDict [("logged", VBool false); ("error", VStr e)])
  end.

(** ** Confirmation tokens *)

Definition token_lifetime : Z := 300.

Definition token_of (action : string) (parameters : value) (now : pyfloat) : string :=
  let data := action ++ ":" ++ json_dumps parameters ++ ":" ++ float_str now in
  upper (take_str 12 (Sha256.hexdigest (Sha256.encode data))).

(** Returns the token, or [VNone] when the table refuses the item. *)
Definition generate_confirmation_token (env : Env) (action : string)
    (parameters : value) : M value :=
  let token := token_of action parameters (time_time env) in
  match token_put_item_raises env with
  | None =>
      do put_token token
           {| tk_token := token;
              tk_action := action;
              tk_parameters := json_dumps parameters;
              tk_created_at := datetime_now_iso env;
              tk_expires_at := float_int (time_time env) + token_lifetime;
              tk_ttl := float_int (time_time env) + token_lifetime |} then
      ret (VStr token)
  | Some e =>
      do print ("Error creating confirmation token: " ++ e) then
      ret VNone
  end.

Definition invalid (e : string) : value :=
  VDict [("valid", VBool false); ("error", VStr e)].

Definition verify_confirmation_token (env : Env) (token : value) : M value :=
  match token_get_item_raises env with
  | Some e => ret (invalid e)
  | None =>
      match token with
      | VStr t =>
          let* response := get_token t in
          match response with
          | None => ret (invalid "Invalid confirmation token")
          | Some token_data =>
              if float_int (time_time env) >? tk_expires_at token_data then
                match token_delete_item_raises env with
                | Some e => ret (invalid e)
                | None =>
                    do delete_token t then
                    ret (invalid "Token expired (5 min limit)")
                end
              else
                match json_loads (tk_parameters token_data) with
                | None => ret (invalid (json_decode_error env))
                | Some parameters =>
                    match token_delete_item_raises env with
                    | Some e => ret (invalid e)
                    | None =>
                        do delete_token t then
                        ret (VDict [("valid", VBool true);
                                    ("action", VStr (tk_action token_data));
                                    ("parameters", parameters)])
                    end
                end
          end
      | _ => ret (invalid (key_validation_error env))
      end
  end.

(** ** Budget guard *)

(** Approximate hourly rates in USD. *)
Definition INSTANCE_PRICING : list (string * Q) :=
  [ ("t3.nano", 0.0052); ("t3.micro", 0.0104); ("t3.small", 0.0208);
    ("t3.medium", 0.0416); ("t3.large", 0.0832); ("t3.xlarge", 0.1664);
    ("t3.2xlarge", 0.3328); ("t2.micro", 0.0116); ("t2.small", 0.023);
    ("t2.medium", 0.0464); ("t2.large", 0.0928); ("m5.large", 0.096);
    ("m5.xlarge", 0.192); ("m5.2xlarge", 0.384); ("m5.4xlarge", 0.768);
    ("c5.large", 0.085); ("c5.xlarge", 0.17); ("c5.2xlarge", 0.34);
    ("r5.large", 0.126); ("r5.xlarge", 0.252); ("r5.2xlarge", 0.504) ]%Q.

(** [pricing.get(instance_type, 0)] *)
Fixpoint price_get (pricing : list (string * Q)) (instance_type : string) : Q :=
  match pricing with
  | [] => 0%Q
  | (k, c) :: rest => if String.eqb instance_type k then c else price_get rest instance_type
  end.

Record BudgetDecision : Type := mkBudgetDecision {
  allowed : bool;
  reason : option string;
  hourly_cost : Q;
  limit : option Q;
  monthly_cost : Q
}.

(** [a > b] on rationals. *)
Definition Qgtb (a b : Q) : bool := negb (Qle_bool a b).

(** The price table is the module constant [INSTANCE_PRICING] in the
    source; it is an argument here so that the guard can be stated for
    any table. *)
Definition check_budget_limits (pricing : list (string * Q)) (env : Env)
    (instance_type : string) : BudgetDecision :=
  let hourly_cost := price_get pricing instance_type in
  if Qgtb hourly_cost (MAX_INSTANCE_COST_PER_HOUR env) then
    {| allowed := false;
       reason := Some "Instance type exceeds budget limit";
       hourly_cost := hourly_cost;
       limit := Some (MAX_INSTANCE_COST_PER_HOUR env);
       monthly_cost := (hourly_cost * 730)%Q |}
  else
    {| allowed := true;
       reason := None;
       hourly_cost := hourly_cost;
       limit := None;
       monthly_cost := (hourly_cost * 730)%Q |}.

(** ** Backup guard *)

(** [{tag['Key']: tag['Value'] for tag in tags}]: a later value replaces an
    earlier one in place. *)
Fixpoint dict_set (k : string) (v : value) (d : pydict) : pydict :=
  match d with
  | [] => [(k, v)]
  | (k', v') :: d' => if String.eqb k k' then (k, v) :: d' else (k', v') :: dict_set k v d'
  end.

Definition tags_dict (tags : list (string * string)) : value :=
  VDict (fold_left (fun d kv => dict_set (fst kv) (VStr (snd kv)) d) tags []).

Definition ami_info (image : Image) : Image * value :=
  (image,
   VDict [("ImageId", VStr (ImageId image));
          ("Name", VStr (match ImageName image with Some n => n | None => "N/A" end));
          ("State", VStr (ImageState image));
          ("CreationDate", VStr (CreationDate image));
          ("Description", VStr (match ImageDescription image with
                                | Some d => d
                                | None => EmptyString
                                end));
          ("Tags", tags_dict (ImageTags image))]).

(** [amis.sort(key=CreationDate, reverse=True)]: newest first, and stable. *)
Fixpoint insert_newest (x : Image * value) (l : list (Image * value)) : list (Image * value) :=
  match l with
  | [] => [x]
  | y :: l' =>
      if String.ltb (CreationDate (fst x)) (CreationDate (fst y))
      then y :: insert_newest x l'
      else x :: l
  end.

Definition sort_newest (l : list (Image * value)) : list (Image * value) :=
  fold_right insert_newest [] l.

(** The answer of [list_instance_amis]: an error text, or the sorted
    descriptions; [amis_value] is the dictionary the source returns. *)
Definition list_instance_amis_raw (env : Env) (instance_id : string)
    : string + list (Image * value) :=
  match describe_images env instance_id with
  | inl e => inl e
  | inr images => inr (sort_newest (map ami_info images))
  end.

Definition failure (e : string) : value :=
  VDict [("success", VBool false); ("error", VStr e)].

Definition list_instance_amis (env : Env) (instance_id : string) : value :=
  match list_instance_amis_raw env instance_id with
  | inl e => failure e
  | inr amis =>
      VDict [("success", VBool true);
             ("amis", VList (map snd amis));
             ("count", VInt (Z.of_nat (length amis)))]
  end.

Definition week : Z := 7 * 24 * 60 * 60.

Definition is_recent (env : Env) (ami : Image * value) : bool :=
  created (fst ami) >? datetime_now env - week.

Definition check_ami_backup_status (env : Env) (instance_id : string) : value :=
  match list_instance_amis_raw env instance_id with
  | inl e => failure e
  | inr [] =>
      VDict [("success", VBool true);
             ("has_backup", VBool false);
             ("message", VStr "No AMI backups found for this instance");
             ("recommendation", VStr "Create an AMI backup before proceeding")]
  | inr (first :: others) =>
      let amis := first :: others in
      match List.filter (is_recent env) amis with
      | latest :: more =>
          VDict [("success", VBool true);
                 ("has_backup", VBool true);
                 ("has_recent_backup", VBool true);
                 ("latest_ami", snd latest);
                 ("recent_amis_count", VInt (Z.of_nat (length (latest :: more))));
                 ("total_amis_count", VInt (Z.of_nat (length amis)));
                 ("message", VStr ("Latest AMI backup: " ++ ImageId (fst latest) ++
                                   " from " ++ CreationDate (fst latest)))]
      | [] =>
          VDict [("success", VBool true);
                 ("has_backup", VBool true);
                 ("has_recent_backup", VBool false);
                 ("latest_ami", snd first);
                 ("total_amis_count", VInt (Z.of_nat (length amis)));
                 ("message", VStr ("Latest AMI backup is older than 7 days: " ++
                                   CreationDate (fst first)));
                 ("recommendation", VStr "Consider creating a fresh AMI backup")]
      end
  end.

(** ** Handlers of the irreversible actions *)

(** [v[k]] on a dictionary the handler built itself. *)
Definition item (k : string) (v : value) : value :=
  match v with
  | VDict d => dict_get k VNone d
  | _ => VNone
  end.

(** [str(v)] inside an f-string, for a string or [None]. *)
Definition str_value (v : value) : string :=
  match v with
  | VStr s => s
  | VNone => "None"
  | _ => json_dumps v
  end.

Definition name_tag (tags : list (string * string)) : string :=
  match find (fun kv => String.eqb (fst kv) "Name") tags with
  | Some kv => snd kv
  | None => "Unknown"
  end.

(** [v.get(k, dflt)] *)
Definition get (k : string) (dflt : value) (v : value) : value :=
  match v with
  | VDict d => dict_get k dflt d
  | _ => dflt
  end.

(** The part of [terminate_ec2_instance] below the backup check: the
    confirmation handshake and the call itself. The message literals hold
    the warning sign of the source as its UTF-8 bytes. *)
Definition terminate_confirmed (env : Env) (instance_id : string) (instance : Instance)
    (confirmation_token : value) : M outcome :=
  let parameters := VDict [("instance_id", VStr instance_id)] in
  let instance_name := name_tag (InstanceTags instance) in
  if negb (truthy confirmation_token) then
    let* token := generate_confirmation_token env "terminate_instance" parameters in
    do log_action env "terminate_instance" parameters "requires_confirmation"
         VNone None None None then
    ret (Returned (VDict
      [("success", VBool false);
       ("requires_confirmation", VBool true);
       ("confirmation_token", token);
       ("instance_details", VDict
          [("instance_id", VStr instance_id);
           ("name", VStr instance_name);
           ("type", VStr (InstanceType instance));
           ("state", VStr (InstanceState instance))]);
       ("message", VStr ("⚠️ DESTRUCTIVE: Terminating " ++ instance_name ++
                         ". Token: " ++ str_value token))]))
  else
    let* token_verify := verify_confirmation_token env confirmation_token in
    if negb (truthy (item "valid" token_verify)) then
      ret (Returned (VDict [("success", VBool false);
                            ("error", item "error" token_verify)]))
    else
      do call_ec2 (TerminateInstances instance_id) then
      match terminate_instances env instance_id with
      | inl e =>
          do log_action env "terminate_instance" parameters "failed" VNone (Some e)
               None None then
          ret (Returned (failure e))
      | inr current_state =>
          do log_action env "terminate_instance" parameters "success" VNone None
               None None then
          ret (Returned (VDict
            [("success", VBool true);
             ("instance_id", VStr instance_id);
             ("instance_name", VStr instance_name);
             ("state", VStr current_state);
             ("message", VStr ("Instance " ++ instance_id ++ " termination initiated"))]))
      end.

(** The answer of the backup gate. *)
Definition backup_block (instance_id : string) (backup_status : value) : value :=
  VDict
    [("success", VBool false);
     ("requires_confirmation", VBool true);
     ("backup_status", backup_status);
     ("message", VStr "No recent AMI backup. Create AMI first or confirm to proceed.");
     ("recommendation", VStr ("Run: 'Create AMI backup for " ++ instance_id ++ "'"))].

Definition terminate_ec2_instance (env : Env) (instance_id : string)
    (confirmation_token skip_backup : value) : M outcome :=
  let parameters := VDict [("instance_id", VStr instance_id)] in
  match describe_instances env instance_id with
  | inl e =>
      do log_action env "terminate_instance" parameters "failed" VNone (Some e) None None then
      ret (Returned (failure e))
  | inr [] => ret (Returned (failure ("Instance " ++ instance_id ++ " not found")))
  | inr (instance :: _) =>
      if negb (truthy skip_backup) then
        let backup_status := check_ami_backup_status env instance_id in
        if truthy (item "success" backup_status)
           && negb (truthy (get "has_recent_backup" (VBool false) backup_status))
        then
          do log_action env "terminate_instance" parameters "requires_confirmation"
               (VDict [("reason", VStr "no_recent_backup")]) None None None then
          ret (Returned (backup_block instance_id backup_status))
        else terminate_confirmed env instance_id instance confirmation_token
      else terminate_confirmed env instance_id instance confirmation_token
  end.

Definition delete_ebs_volume (env : Env) (volume_id : string)
    (confirmation_token : value) : M outcome :=
  let parameters := VDict [("volume_id", VStr volume_id)] in
  match describe_volumes env volume_id with
  | inl e =>
      do log_action env "delete_volume" parameters "failed" VNone (Some e) None None then
      ret (Returned (failure e))
  | inr [] => ret (Raised "IndexError")
  | inr (volume :: _) =>
      match Attachments volume with
      | _ :: _ => ret (Returned (failure "Volume attached. Detach first."))
      | [] =>
          if negb (truthy confirmation_token) then
            let* token := generate_confirmation_token env "delete_volume" parameters in
            do log_action env "delete_volume" parameters "requires_confirmation"
                 VNone None None None then
            ret (Returned (VDict
              [("success", VBool false);
               ("requires_confirmation", VBool true);
               ("confirmation_token", token);
               ("message", VStr ("⚠️ Confirm deletion. Token: " ++ str_value token))]))
          else
            let* token_verify := verify_confirmation_token env confirmation_token in
            if negb (truthy (item "valid" token_verify)) then
              ret (Returned (VDict [("success", VBool false);
                                    ("error", item "error" token_verify)]))
            else
              do call_ec2 (DeleteVolume volume_id) then
              match delete_volume env volume_id with
              | inl e =>
                  do log_action env "delete_volume" parameters "failed" VNone (Some e)
                       None None then
                  ret (Returned (failure e))
              | inr _ =>
                  do log_action env "delete_volume" parameters "success" VNone None
                       None None then
                  ret (Returned (VDict
                    [("success", VBool true);
                     ("volume_id", VStr volume_id);
                     ("message", VStr ("Volume " ++ volume_id ++ " deleted"))]))
              end
      end
  end.

(** ** Dispatch *)

(** Binding a call with keyword unpacking: every key names a parameter of [f] and every
    parameter without a default is present; otherwise [TypeError]. *)
Definition kwargs_ok (names required : list string) (parameters : pydict) : bool :=
  forallb (fun kv => existsb (String.eqb (fst kv)) names) parameters
  && forallb (fun k => dict_mem k parameters) required.

(** The branches of [process_ec2_action], in the order of the source. The
    handlers other than [terminate_ec2_instance] and [delete_ebs_volume]
    are those of the environment. *)
Definition process_ec2_action (env : Env) (action : string) (parameters : pydict)
    : M outcome :=
  let action := lower action in
  if String.eqb action "list_instances" then other_handler env action parameters
  else if String.eqb action "launch_instance" then other_handler env action parameters
  else if String.eqb action "terminate_instance" then
    if kwargs_ok ["instance_id"; "confirmation_token"; "skip_backup"] ["instance_id"] parameters
    then
      match dict_get "instance_id" VNone parameters with
      | VStr instance_id =>
          terminate_ec2_instance env instance_id
            (dict_get "confirmation_token" VNone parameters)
            (dict_get "skip_backup" (VBool false) parameters)
      | _ => ret (Raised "ParamValidationError")
      end
    else ret (Raised "TypeError")
  else if String.eqb action "start_instance" then other_handler env action parameters
  else if String.eqb action "stop_instance" then other_handler env action parameters
  else if String.eqb action "change_instance_type" then other_handler env action parameters
  else if String.eqb action "check_ami_backup" then other_handler env action parameters
  else if String.eqb action "create_ami_backup" then other_handler env action parameters
  else if String.eqb action "list_amis" then other_handler env action parameters
  else if String.eqb action "create_cpu_alarm" then other_handler env action parameters
  else if String.eqb action "create_status_alarm" then other_handler env action parameters
  else if String.eqb action "list_alarms" then other_handler env action parameters
  else if String.eqb action "delete_alarm" then other_handler env action parameters
  else if String.eqb action "list_volumes" then other_handler env action parameters
  else if String.eqb action "create_volume" then other_handler env action parameters
  else if String.eqb action "attach_volume" then other_handler env action parameters
  else if String.eqb action "detach_volume" then other_handler env action parameters
  else if String.eqb action "delete_volume" then
    if kwargs_ok ["volume_id"; "confirmation_token"] ["volume_id"] parameters
    then
      match dict_get "volume_id" VNone parameters with
      | VStr volume_id =>
          delete_ebs_volume env volume_id (dict_get "confirmation_token" VNone parameters)
      | _ => ret (Raised "ParamValidationError")
      end
    else ret (Raised "TypeError")
  else if String.eqb action "get_action_logs" then other_handler env action parameters
  else ret (Returned (failure ("Unknown action: " ++ action))).

(** ** The handlers that launch, back up and resize

    These handlers make further calls and read further settings. The calls
    are answers of a second environment, and the calls made are recorded
    beside the [World] of the token and audit tables. *)

Record Aws : Type := mkAws {
  (** [os.environ.get('CURRENT_USER_EMAIL', 'anonymous')] *)
  CURRENT_USER_EMAIL : string;
  (** [datetime.now().strftime('%Y-%m-%d-%H%M%S')] *)
  strftime_now : string;
  (** [run_instances] with the keyword arguments [params]: the first
      instance of the answer *)
  run_instances : value -> string + Instance;
  (** [create_image] by instance, name, description and [NoReboot]: the
      [ImageId] *)
  create_image : string -> string -> string -> value -> string + string;
  (** [modify_instance_attribute] by instance and new type *)
  modify_instance_attribute : string -> string -> string + unit;
  (** [action_log_table.scan] with the keyword arguments [params]: the
      [Items], or the text of the exception, whatever its kind (a refused
      argument among them) *)
  scan : value -> string + list LogItem
}.

Inductive ApiCall : Type :=
| RunInstances (params : value)
| CreateImage (instance_id name description : string) (no_reboot : value)
| ModifyInstanceAttribute (instance_id instance_type : string).

Record Cloud : Type := mkCloud {
  core : World;
  (** the calls above, oldest first *)
  api_calls : list ApiCall
}.

Definition X (A : Type) : Type := Cloud -> A * Cloud.

Definition xret {A} (x : A) : X A := fun c => (x, c).
Definition xbind {A B} (m : X A) (k : A -> X B) : X B :=
  fun c => let (x, c') := m c in k x c'.

Notation "'let+' x ':=' m 'in' k" := (xbind m (fun x => k))
  (at level 10, x name, m at level 100, k at level 200).
Notation "'perform' m 'then' k" := (xbind m (fun _ => k))
  (at level 10, m at level 100, k at level 200).

(** A computation on the tables, run inside the larger state. *)
Definition lift {A} (m : M A) : X A :=
  fun c => let (x, w) := m (core c) in (x, mkCloud w (api_calls c)).

Definition call_api (call : ApiCall) : X unit :=
  fun c => (tt, mkCloud (core c) (api_calls c ++ [call])).

(** The parts of an answer that hold floats, kept as rationals: a budget
    decision under its key, and the amount and direction that the source
    formats into the text of cost_impact. *)
Inductive extra : Type :=
| Budget (key : string) (decision : BudgetDecision)
| CostImpact (amount : Q) (increase : bool).

Inductive xoutcome : Type :=
| XReturned (body : value) (extras : list extra)
| XRaised (exn : string).

Definition create_ami_backup (env : Env) (aws : Aws) (instance_id : string)
    (ami_name description : option string) (no_reboot : value) : X xoutcome :=
  let parameters := VDict [("instance_id", VStr instance_id)] in
  match describe_instances env instance_id with
  | inl e =>
      perform lift (log_action env "create_ami_backup" parameters "failed" VNone (Some e)
                  None None) then
      xret (XReturned (failure e) [])
  | inr [] => xret (XRaised "IndexError")
  | inr (instance :: _) =>
      let instance_name := name_tag (InstanceTags instance) in
      let timestamp := strftime_now aws in
      let ami_name := str_or ami_name (instance_name ++ "-backup-" ++ timestamp) in
      let description :=
        str_or description ("AMI backup of " ++ instance_name ++ " (" ++ instance_id ++
                            ") created on " ++ timestamp) in
      perform call_api (CreateImage instance_id ami_name description no_reboot) then
      match create_image aws instance_id ami_name description no_reboot with
      | inl e =>
          perform lift (log_action env "create_ami_backup" parameters "failed" VNone (Some e)
                      None None) then
          xret (XReturned (failure e) [])
      | inr ami_id =>
          perform lift (log_action env "create_ami_backup" parameters "success"
                      (VDict [("ami_id", VStr ami_id); ("ami_name", VStr ami_name)])
                      None None None) then
          xret (XReturned (VDict
            [("success", VBool true);
             ("ami_id", VStr ami_id);
             ("ami_name", VStr ami_name);
             ("instance_id", VStr instance_id);
             ("instance_name", VStr instance_name);
             ("no_reboot", no_reboot);
             ("message", VStr ("AMI backup " ++ ami_id ++ " created successfully"))]) [])
      end
  end.

(** The tags that [launch_ec2_instance] always sets, and those of the
    request. *)
Definition tag (k : string) (v : value) : value := VDict [("Key", VStr k); ("Value", v)].

Definition launch_params (env : Env) (aws : Aws) (ami_id instance_type : string)
    (key_name subnet_id security_group_ids : value) (tags : pydict) : value :=
  VDict
    ([("ImageId", VStr ami_id);
      ("InstanceType", VStr instance_type);
      ("MinCount", VInt 1);
      ("MaxCount", VInt 1);
      ("TagSpecifications", VList
         [VDict [("ResourceType", VStr "instance");
                 ("Tags", VList
                    ([tag "ManagedBy" (VStr "AI-Assistant");
                      tag "LaunchedBy" (VStr (CURRENT_USER_EMAIL aws));
                      tag "LaunchedAt" (VStr (datetime_now_iso env))]
                     ++ map (fun kv => tag (fst kv) (snd kv)) tags))]])]
     ++ (if truthy key_name then [("KeyName", key_name)] else [])
     ++ (if truthy subnet_id then [("SubnetId", subnet_id)] else [])
     ++ (if truthy security_group_ids then [("SecurityGroupIds", security_group_ids)]
         else []))%list.

Definition launch_ec2_instance (env : Env) (aws : Aws) (ami_id instance_type : string)
    (key_name subnet_id security_group_ids tags dry_run : value) : X xoutcome :=
  let user_email := CURRENT_USER_EMAIL aws in
  let budget_check := check_budget_limits INSTANCE_PRICING env instance_type in
  if negb (allowed budget_check) then
    let reason := match reason budget_check with Some r => r | None => EmptyString end in
    perform lift (log_action env "launch_instance"
                (VDict [("instance_type", VStr instance_type)]) "failed" VNone
                (Some reason) None (Some user_email)) then
    xret (XReturned (VDict [("success", VBool false); ("error", VStr reason)])
            [Budget "details" budget_check])
  else if truthy dry_run then
    xret (XReturned (VDict [("success", VBool true);
                            ("dry_run", VBool true);
                            ("message", VStr "Dry run successful")])
            [Budget "estimated_cost" budget_check])
  else
    match (if truthy tags then match tags with VDict d => Some d | _ => None end
           else Some []) with
    | None => xret (XRaised "AttributeError")
    | Some extra_tags =>
        let params := launch_params env aws ami_id instance_type key_name subnet_id
                        security_group_ids extra_tags in
        perform call_api (RunInstances params) then
        match run_instances aws params with
        | inl e =>
            perform lift (log_action env "launch_instance"
                        (VDict [("ami_id", VStr ami_id); ("instance_type", VStr instance_type)])
                        "failed" VNone (Some e) None (Some (CURRENT_USER_EMAIL aws))) then
            xret (XReturned (failure e) [])
        | inr instance =>
            perform lift (log_action env "launch_instance" params "success"
                        (VDict [("instance_id", VStr (InstanceId instance))])
                        None None (Some user_email)) then
            xret (XReturned (VDict
              [("success", VBool true);
               ("instance_id", VStr (InstanceId instance));
               ("instance_type", VStr (InstanceType instance));
               ("state", VStr (InstanceState instance));
               ("message", VStr ("Instance " ++ InstanceId instance ++
                                 " launched successfully"))])
              [Budget "cost_estimate" budget_check])
        end
    end.

(** The part of [change_instance_type] below the backup: the confirmation
    handshake and the call itself. *)
Definition resize_confirmed (env : Env) (aws : Aws) (instance_id new_instance_type : string)
    (current_type : string) (budget_check : BudgetDecision)
    (confirmation_token create_backup : value) : X xoutcome :=
  if negb (truthy confirmation_token) then
    let+ token := lift (generate_confirmation_token env "change_instance_type"
                          (VDict [("instance_id", VStr instance_id);
                                  ("new_type", VStr new_instance_type)])) in
    let cost_diff :=
      (monthly_cost budget_check - price_get INSTANCE_PRICING current_type * 730)%Q in
    xret (XReturned (VDict
      [("success", VBool false);
       ("requires_confirmation", VBool true);
       ("confirmation_token", token);
       ("change_details", VDict [("current_type", VStr current_type);
                                 ("new_type", VStr new_instance_type)]);
       ("backup_created", create_backup);
       ("message", VStr ("Confirm resize. Token: " ++ str_value token))])
      [CostImpact (Qabs cost_diff) (Qgtb cost_diff 0)])
  else
    let+ token_verify := lift (verify_confirmation_token env confirmation_token) in
    if negb (truthy (item "valid" token_verify)) then
      xret (XReturned (VDict [("success", VBool false);
                              ("error", item "error" token_verify)]) [])
    else
      perform call_api (ModifyInstanceAttribute instance_id new_instance_type) then
      match modify_instance_attribute aws instance_id new_instance_type with
      | inl e =>
          perform lift (log_action env "change_instance_type"
                      (VDict [("instance_id", VStr instance_id)]) "failed" VNone (Some e)
                      None None) then
          xret (XReturned (failure e) [])
      | inr _ =>
          perform lift (log_action env "change_instance_type"
                      (VDict [("instance_id", VStr instance_id);
                              ("old_type", VStr current_type);
                              ("new_type", VStr new_instance_type)])
                      "success" VNone None None None) then
          xret (XReturned (VDict
            [("success", VBool true);
             ("instance_id", VStr instance_id);
             ("old_type", VStr current_type);
             ("new_type", VStr new_instance_type);
             ("message", VStr ("Type changed: " ++ current_type ++ " → " ++
                               new_instance_type))])
            [Budget "cost_estimate" budget_check])
      end.

Definition change_instance_type (env : Env) (aws : Aws) (instance_id new_instance_type : string)
    (confirmation_token create_backup : value) : X xoutcome :=
  let budget_check := check_budget_limits INSTANCE_PRICING env new_instance_type in
  if negb (allowed budget_check) then
    xret (XReturned
            (VDict [("success", VBool false);
                    ("error", VStr (match reason budget_check with
                                    | Some r => r
                                    | None => EmptyString
                                    end))])
            [Budget "details" budget_check])
  else
    match describe_instances env instance_id with
    | inl e =>
        perform lift (log_action env "change_instance_type"
                    (VDict [("instance_id", VStr instance_id)]) "failed" VNone (Some e)
                    None None) then
        xret (XReturned (failure e) [])
    | inr [] => xret (XRaised "IndexError")
    | inr (instance :: _) =>
        let current_state := InstanceState instance in
        let current_type := InstanceType instance in
        if negb (String.eqb current_state "stopped") then
          xret (XReturned
                  (failure ("Instance must be stopped. Current: " ++ current_state)) [])
        else if truthy create_backup then
          let+ backup_result :=
            create_ami_backup env aws instance_id None
              (Some ("Pre-resize backup: " ++ current_type ++ " to " ++ new_instance_type))
              (VBool true) in
          match backup_result with
          | XRaised exn => xret (XRaised exn)
          | XReturned result _ =>
              if negb (truthy (item "success" result)) then
                xret (XReturned (VDict [("success", VBool false);
                                        ("error", VStr "Failed to create AMI backup");
                                        ("backup_error", get "error" VNone result)]) [])
              else
                resize_confirmed env aws instance_id new_instance_type current_type
                  budget_check confirmation_token create_backup
          end
        else
          resize_confirmed env aws instance_id new_instance_type current_type
            budget_check confirmation_token create_backup
    end.

(** ** Reading the audit log *)

(** [l.sort(key=key, reverse=True)]: largest key first, and stable. *)
Fixpoint insert_desc {A : Type} (key : A -> string) (x : A) (l : list A) : list A :=
  match l with
  | [] => [x]
  | y :: l' => if String.ltb (key x) (key y) then y :: insert_desc key x l' else x :: l
  end.

Definition sort_desc {A : Type} (key : A -> string) (l : list A) : list A :=
  fold_right (insert_desc key) [] l.

(** [l[:n]] for an integer [n] of either sign. *)
Definition slice_to {A : Type} (n : Z) (l : list A) : list A :=
  firstn (Z.to_nat (if n <? 0 then Z.of_nat (length l) + n else n)) l.

Definition scan_params (limit : Z) (action_filter : value) : value :=
  VDict ([("Limit", VInt limit); ("ScanIndexForward", VBool false)]
         ++ (if truthy action_filter
             then [("FilterExpression", VStr "action = :action");
                   ("ExpressionAttributeValues", VDict [(":action", action_filter)])]
             else []))%list.

(** The answer of [get_action_logs]: the dictionary with success, logs
    and count, or the one with the error. The records stay as the table
    holds them. *)
Inductive logs_answer : Type :=
| Logs (logs : list LogItem) (count : Z)
| LogsFailed (error : string).

Definition get_action_logs (aws : Aws) (limit : Z) (action_filter : value) : logs_answer :=
  match scan aws (scan_params limit action_filter) with
  | inl e => LogsFailed e
  | inr items =>
      Logs (slice_to limit (sort_desc lg_timestamp items)) (Z.of_nat (length items))
  end.

(** ** Vocabulary of the properties *)

(** The item holds the JSON text of some parameters, as every item that
    [generate_confirmation_token] writes does. *)
Definition parses (it : TokenItem) : Prop := exists p, tk_parameters it = json_dumps p.

(** Every stored item is of this kind. *)
Definition store_wf (w : World) : Prop :=
  forall t it, confirmation_table w !! t = Some it -> parses it.

(** A computation that keeps [store_wf]. *)
Definition preserves {A : Type} (m : M A) : Prop :=
  forall w, store_wf w -> store_wf (snd (m w)).

(** The three answers of [verify_confirmation_token] on a working table. *)
Definition expired_answer : value := invalid "Token expired (5 min limit)".
Definition not_found_answer : value := invalid "Invalid confirmation token".
Definition valid_answer (it : TokenItem) (p : value) : value :=
  VDict [("valid", VBool true); ("action", VStr (tk_action it)); ("parameters", p)].

(** The item that an issuance writes. *)
Definition issued_item (env : Env) (action : string) (parameters : value) : TokenItem :=
  {| tk_token := token_of action parameters (time_time env);
     tk_action := action;
     tk_parameters := json_dumps parameters;
     tk_created_at := datetime_now_iso env;
     tk_expires_at := float_int (time_time env) + 300;
     tk_ttl := float_int (time_time env) + 300 |}.

(** The image is younger than seven days. *)
Definition recent_image (env : Env) (image : Image) : Prop :=
  datetime_now env - week < created image.

(** The parameters that the two handlers bind their tokens to. *)
Definition terminate_parameters (instance_id : string) : value :=
  VDict [("instance_id", VStr instance_id)].
Definition delete_parameters (volume_id : string) : value :=
  VDict [("volume_id", VStr volume_id)].

(** What a handler answers when it asks for a confirmation: no success,
    [requires_confirmation], no mutating call, and the token of this
    issuance. When the token table takes the item, the token is a text of
    twelve characters that is stored for this action and these parameters;
    when the table refuses the item, the answer carries [None] in its
    place and the table is as it was. *)
Definition asks_confirmation (env : Env) (action : string) (parameters : value)
    (w : World) (res : outcome * World) : Prop :=
  exists v,
    fst res = Returned v /\
    item "success" v = VBool false /\
    item "requires_confirmation" v = VBool true /\
    ec2_calls (snd res) = ec2_calls w /\
    match token_put_item_raises env with
    | None =>
        let token := token_of action parameters (time_time env) in
        item "confirmation_token" v = VStr token /\
        String.length token = 12%nat /\
        truthy (item "confirmation_token" v) = true /\
        confirmation_table (snd res) =
          <[token := issued_item env action parameters]> (confirmation_table w)
    | Some _ =>
        item "confirmation_token" v = VNone /\
        confirmation_table (snd res) = confirmation_table w
    end.

(** The same environment with other faults of the audit table. *)
Definition with_log_faults (env : Env) (faults : nat -> option string) : Env :=
  {| time_time := time_time env;
     datetime_now := datetime_now env;
     datetime_now_iso := datetime_now_iso env;
     uuid4 := uuid4 env;
     MAX_INSTANCE_COST_PER_HOUR := MAX_INSTANCE_COST_PER_HOUR env;
     log_put_item_raises := faults;
     token_put_item_raises := token_put_item_raises env;
     token_get_item_raises := token_get_item_raises env;
     token_delete_item_raises := token_delete_item_raises env;
     key_validation_error := key_validation_error env;
     json_decode_error := json_decode_error env;
     describe_instances := describe_instances env;
     describe_images := describe_images env;
     terminate_instances := terminate_instances env;
     describe_volumes := describe_volumes env;
     delete_volume := delete_volume env;
     other_handler := other_handler env |}.

Definition no_log_faults : nat -> option string := fun _ => None.

(** The same environment with other faults of the token table. *)
Definition with_token_faults (env : Env) (put get delete : option string) : Env :=
  {| time_time := time_time env;
     datetime_now := datetime_now env;
     datetime_now_iso := datetime_now_iso env;
     uuid4 := uuid4 env;
     MAX_INSTANCE_COST_PER_HOUR := MAX_INSTANCE_COST_PER_HOUR env;
     log_put_item_raises := log_put_item_raises env;
     token_put_item_raises := put;
     token_get_item_raises := get;
     token_delete_item_raises := delete;
     key_validation_error := key_validation_error env;
     json_decode_error := json_decode_error env;
     describe_instances := describe_instances env;
     describe_images := describe_images env;
     terminate_instances := terminate_instances env;
     describe_volumes := describe_volumes env;
     delete_volume := delete_volume env;
     other_handler := other_handler env |}.

(** Two final states that differ at most in the audit log and in what was
    printed. *)
Definition same_effects (w1 w2 : World) : Prop :=
  confirmation_table w1 = confirmation_table w2 /\
  ec2_calls w1 = ec2_calls w2 /\
  log_seq w1 = log_seq w2.

Definition same_outcome (a b : outcome * World) : Prop :=
  fst a = fst b /\ same_effects (snd a) (snd b).

(** The names that [process_ec2_action] dispatches on. *)
Definition supported_actions : list string :=
  [ "list_instances"; "launch_instance"; "terminate_instance"; "start_instance";
    "stop_instance"; "change_instance_type"; "check_ami_backup"; "create_ami_backup";
    "list_amis"; "create_cpu_alarm"; "create_status_alarm"; "list_alarms";
    "delete_alarm"; "list_volumes"; "create_volume"; "attach_volume";
    "detach_volume"; "delete_volume"; "get_action_logs" ].

(** The token that the answer to a first request carries. *)
Definition confirmation_token_of (res : outcome * World) : value :=
  match fst res with
  | Returned v => item "confirmation_token" v
  | Raised _ => VNone
  end.

(** The number that the text of a clock reading denotes: digits with at
    most one point. *)
Fixpoint decimal_digits (s : string) (num : Z) (den : positive) (after_point : bool)
    : option Q :=
  match s with
  | EmptyString => Some (num # den)
  | String c r =>
      if Ascii.eqb c "." then
        if after_point then None else decimal_digits r num den true
      else
        let d := Z.of_N (N_of_ascii c) - 48 in
        if (0 <=? d) && (d <=? 9) then
          decimal_digits r (10 * num + d) (if after_point then 10 * den else den)%positive
            after_point
        else None
  end.

Definition seconds (now : pyfloat) : option Q := decimal_digits (float_str now) 0 1 false.

(** ** Vocabulary of the further properties *)

(** The world with the item of token [t] deleted. *)
Definition without_token (t : string) (w : World) : World :=
  mkWorld (delete t (confirmation_table w)) (action_log_table w) (log_seq w)
          (ec2_calls w) (stdout w).

(** The token names an item that is stored in [w] and not expired. *)
Definition live_token (env : Env) (w : World) (token : value) (t : string) : Prop :=
  token = VStr t /\
  exists it, confirmation_table w !! t = Some it /\
             float_int (time_time env) <= tk_expires_at it.

(** The backup gate of [terminate_ec2_instance] lets the request pass. *)
Definition backup_gate_passed (env : Env) (instance_id : string) (skip_backup : value) : Prop :=
  truthy skip_backup = true \/
  (exists e, describe_images env instance_id = inl e) \/
  (exists images image, describe_images env instance_id = inr images /\
                        In image images /\ recent_image env image).

(** The record that [log_action] writes as its [n]-th call. *)
Definition log_record (env : Env) (n : nat) (action : string) (parameters : value)
    (status : string) (result : value) (error user_query user_email : option string)
    : LogItem :=
  {| lg_log_id := uuid4 env n;
     lg_timestamp := datetime_now_iso env;
     lg_action := action;
     lg_parameters := json_dumps parameters;
     lg_status := status;
     lg_user_query := str_or user_query EmptyString;
     lg_user_email := str_or user_email "anonymous";
     lg_ttl := float_int (time_time env) + retention;
     lg_result := if truthy result then Some (json_dumps result) else None;
     lg_error := match error with
                 | Some (String c r) => Some (String c r)
                 | _ => None
                 end |}.

(** What one handler call may add to the audit log: nothing, or one
    record. *)
Definition appended (env : Env) (w : World) (record : LogItem) : list LogItem :=
  match log_put_item_raises env (log_seq w) with
  | None => [record]
  | Some _ => []
  end.

(** The audit log of [w'] is that of [w], or that of [w] and one record
    of [action] on [parameters] that names no caller. *)
Definition audit_step (env : Env) (action : string) (parameters : value)
    (w w' : World) : Prop :=
  action_log_table w' = action_log_table w \/
  exists status result error,
    In status ["failed"; "requires_confirmation"; "success"] /\
    action_log_table w' =
    (action_log_table w ++
     [log_record env (log_seq w) action parameters status result error None None])%list.

(** [a] is not older than [b], by the creation dates as texts: the order
    of the sort in [list_instance_amis]. *)
Definition not_older (a b : Image * value) : Prop :=
  String.ltb (CreationDate (fst a)) (CreationDate (fst b)) = false.

(** [created image] is within the last seven days, as a boolean. *)
Definition recent_imageb (env : Env) (image : Image) : bool :=
  created image >? datetime_now env - week.

(** The images among which the backup status picks [latest_ami]: the
    recent ones if there are any, all of them otherwise. *)
Definition latest_candidates (env : Env) (images : list Image) : list Image :=
  if existsb (recent_imageb env) images then List.filter (recent_imageb env) images
  else images.

(** A digit of upper-case hexadecimal. *)
Definition is_upper_hex (c : ascii) : bool :=
  let n := N_of_ascii c in
  (((48 <=? n) && (n <=? 57)) || ((65 <=? n) && (n <=? 70)))%N.

Fixpoint all_chars (f : ascii -> bool) (s : string) : bool :=
  match s with
  | EmptyString => true
  | String c r => f c && all_chars f r
  end.

(** A digit of lower-case hexadecimal. *)
Definition is_lower_hex (c : ascii) : bool :=
  let n := N_of_ascii c in
  (((48 <=? n) && (n <=? 57)) || ((97 <=? n) && (n <=? 102)))%N.

(** ** Vocabulary of the properties of these handlers *)

(** The name and the description that [create_ami_backup] gives the
    image. *)
Definition backup_name (aws : Aws) (instance : Instance) (ami_name : option string) : string :=
  str_or ami_name (name_tag (InstanceTags instance) ++ "-backup-" ++ strftime_now aws).

Definition backup_description (aws : Aws) (instance_id : string) (instance : Instance)
    (description : option string) : string :=
  str_or description
    ("AMI backup of " ++ name_tag (InstanceTags instance) ++ " (" ++ instance_id ++
     ") created on " ++ strftime_now aws).

(** [a] does not come before [b] in the order of the keys as texts: the
    order of [sort_desc]. *)
Definition not_before_by {A : Type} (key : A -> string) (a b : A) : Prop :=
  String.ltb (key a) (key b) = false.

(** Two final states of these handlers that differ at most in the audit
    log and in what was printed, and two results with such states. *)
Definition same_cloud (c1 c2 : Cloud) : Prop :=
  same_effects (core c1) (core c2) /\ api_calls c1 = api_calls c2.

Definition same_answer (a b : xoutcome * Cloud) : Prop :=
  fst a = fst b /\ same_cloud (snd a) (snd b).

(** ** A concrete environment

    One instance named [web] per identifier, one unattached volume per
    identifier, tables without faults, and the image list and the clock
    as arguments. *)

Definition demo_clock : pyfloat := PyFloat 1730649600 "1730649600.1234567".
Definition late_clock : pyfloat := PyFloat (1730649600 + 301) "1730649901.25".

Definition demo_env (images : string + list Image) (now : pyfloat) : Env :=
  {| time_time := now;
     datetime_now := float_int now;
     datetime_now_iso := "2024-11-03T16:00:00.123457";
     uuid4 := fun n => "log-" ++ str_int (Z.of_nat n);
     MAX_INSTANCE_COST_PER_HOUR := 0.10;
     log_put_item_raises := no_log_faults;
     token_put_item_raises := None;
     token_get_item_raises := None;
     token_delete_item_raises := None;
     key_validation_error := "ValidationException";
     json_decode_error := "Expecting value";
     describe_instances :=
       fun i => inr [mkInstance i "t3.micro" "running" [("Name", "web")]];
     describe_images := fun _ => images;
     terminate_instances := fun _ => inr "shutting-down";
     describe_volumes := fun v => inr [mkVolume v []];
     delete_volume := fun _ => inr tt;
     other_handler := fun _ _ w => (Returned VNone, w) |}.

Definition demo_world : World := mkWorld ∅ [] 0 [] [].

(** An image that is ten days old and one that is a day old. *)
Definition old_image : Image :=
  mkImage "ami-1" (Some "web-backup") "available" "2024-10-24T16:00:00.000Z"
          (1730649600 - 10 * 86400) None [("SourceInstanceId", "i-1")].

Definition fresh_image : Image :=
  mkImage "ami-2" (Some "web-backup-2") "available" "2024-11-02T16:00:00.000Z"
          (1730649600 - 86400) None [("SourceInstanceId", "i-1")].

(** The state after a token has been issued for terminating [i-1]. *)
Definition issuing_env : Env := demo_env (inr []) demo_clock.
Definition issued_world : World :=
  snd (generate_confirmation_token issuing_env "terminate_instance"
         (terminate_parameters "i-1") demo_world).

(** An audit table that refuses every item. *)
Definition failing_log : nat -> option string :=
  fun _ => Some "ProvisionedThroughputExceeded".

(** A reading in the last whole second of the token of [issuing_env]:
    300.78 seconds after its issuance. *)
Definition boundary_clock : pyfloat := PyFloat (1730649600 + 300) "1730649900.9".

(** [issuing_env] with a confirmation table that refuses every write. *)
Definition throttled_env : Env :=
  with_token_faults issuing_env (Some "ProvisionedThroughputExceededException") None
    (Some "ProvisionedThroughputExceededException").

(** An environment as [issuing_env] in which the instances are stopped
    and the backend refuses to terminate. *)
Definition stopped_env : Env :=
  {| time_time := demo_clock;
     datetime_now := float_int demo_clock;
     datetime_now_iso := "2024-11-03T16:00:00.123457";
     uuid4 := fun n => "log-" ++ str_int (Z.of_nat n);
     MAX_INSTANCE_COST_PER_HOUR := 0.10;
     log_put_item_raises := no_log_faults;
     token_put_item_raises := None;
     token_get_item_raises := None;
     token_delete_item_raises := None;
     key_validation_error := "ValidationException";
     json_decode_error := "Expecting value";
     describe_instances :=
       fun i => inr [mkInstance i "t3.micro" "stopped" [("Name", "web")]];
     describe_images := fun _ => inr [];
     terminate_instances := fun _ => inl "UnauthorizedOperation";
     describe_volumes := fun v => inr [mkVolume v []];
     delete_volume := fun _ => inr tt;
     other_handler := fun _ _ w => (Returned VNone, w) |}.

(** Three audit records, given oldest first. *)
Definition demo_logs : list LogItem :=
  map (fun p => mkLogItem (fst p) (snd p) "stop_instance" "{}" "success" EmptyString
                  "anonymous" 1738425600 None None)
      [("log-a", "2024-11-01T09:00:00.000000");
       ("log-b", "2024-11-02T09:00:00.000000");
       ("log-c", "2024-11-03T09:00:00.000000")].

Definition demo_aws : Aws :=
  {| CURRENT_USER_EMAIL := "ann@example.com";
     strftime_now := "2024-11-03-160000";
     run_instances :=
       fun params => inr (mkInstance "i-9" (str_value (item "InstanceType" params))
                            "pending" []);
     create_image := fun _ _ _ _ => inr "ami-9";
     modify_instance_attribute := fun _ _ => inr tt;
     scan :=
       fun params =>
         match item "ScanIndexForward" params with
         | VNone => inr demo_logs
         | _ => inl "Parameter validation failed: Unknown parameter in input: ScanIndexForward"
         end |}.

Definition demo_cloud : Cloud := mkCloud demo_world [].

(** * Properties *)

(** ** [json.loads] reads back what [json.dumps] writes *)

Lemma append_assoc (a b c : string) : (a ++ b) ++ c = a ++ (b ++ c).
Proof.
  induction a as [|x a IH]; [reflexivity|].
  change (String x ((a ++ b) ++ c) = String x (a ++ (b ++ c))). now rewrite IH.
Qed.

Lemma parse_str_escape_char (c : ascii) (r : string) :
  parse_str (escape_char c ++ r) = cons_result c (parse_str r).
Proof. destruct c as [[] [] [] [] [] [] [] []]; reflexivity. Qed.

Lemma parse_str_escape (s rest : string) :
  parse_str (escape s ++ String dq rest) = Some (s, rest).
Proof.
  induction s as [|c s IH]; [reflexivity|].
  change (escape (String c s)) with (escape_char c ++ escape s).
  rewrite append_assoc, parse_str_escape_char, IH. reflexivity.
Qed.

Lemma append_cons (c : ascii) (a b : string) : String c a ++ b = String c (a ++ b).
Proof. reflexivity. Qed.

Lemma span_digits_cons (c : ascii) (r : string) :
  span_digits (String c r) =
  if is_digit c then let (d, rest) := span_digits r in (String c d, rest)
  else (EmptyString, String c r).
Proof. reflexivity. Qed.

Lemma span_digits_uint (d : Decimal.uint) (rest : string) :
  no_digit_head rest ->
  span_digits (NilEmpty.string_of_uint d ++ rest) = (NilEmpty.string_of_uint d, rest).
Proof.
  intros Hrest.
  induction d as [|d IH|d IH|d IH|d IH|d IH|d IH|d IH|d IH|d IH|d IH];
    cbn [NilEmpty.string_of_uint];
    try (rewrite append_cons, span_digits_cons, IH; reflexivity).
  change (EmptyString ++ rest) with rest.
  destruct rest as [|c r]; [reflexivity|].
  rewrite span_digits_cons. cbn in Hrest. now rewrite Hrest.
Qed.

Lemma uint_head (d : Decimal.uint) :
  d <> Decimal.Nil ->
  exists c r, NilEmpty.string_of_uint d = String c r /\ is_digit c = true.
Proof.
  destruct d; intros H; try contradiction; cbn; eauto.
Qed.

Lemma is_digit_not_minus (c : ascii) : is_digit c = true -> Ascii.eqb c "-" = false.
Proof.
  destruct c as [[] [] [] [] [] [] [] []]; intros H;
    first [reflexivity | vm_compute in H; discriminate H].
Qed.

Lemma parse_int_uint (d : Decimal.uint) (rest : string) :
  d <> Decimal.Nil -> no_digit_head rest ->
  parse_int (NilEmpty.string_of_uint d ++ rest) =
  Some (VInt (Z.of_int (Decimal.Pos d)), rest).
Proof.
  intros Hd Hrest.
  destruct (uint_head d Hd) as (c & r & E & Hc).
  pose proof (span_digits_uint d rest Hrest) as Hs.
  pose proof (NilZero.isi (Decimal.Pos d)) as Hi.
  assert (Hi' : NilZero.int_of_string (NilEmpty.string_of_uint d) = Some (Decimal.Pos d)).
  { rewrite <- Hi; [|congruence|congruence]. destruct d; try reflexivity. contradiction. }
  rewrite E in *. rewrite append_cons in *.
  unfold parse_int. rewrite (is_digit_not_minus c Hc), Hs, Hi'. reflexivity.
Qed.

Lemma parse_int_neg (d : Decimal.uint) (rest : string) :
  d <> Decimal.Nil -> no_digit_head rest ->
  parse_int (String "-" (NilEmpty.string_of_uint d ++ rest)) =
  Some (VInt (Z.of_int (Decimal.Neg d)), rest).
Proof.
  intros Hd Hrest.
  destruct (uint_head d Hd) as (c & r & E & Hc).
  pose proof (span_digits_uint d rest Hrest) as Hs.
  pose proof (NilZero.isi (Decimal.Neg d)) as Hi.
  assert (Hi' : NilZero.int_of_string (String "-" (NilEmpty.string_of_uint d)) = Some (Decimal.Neg d)).
  { rewrite <- Hi; [|congruence|congruence]. destruct d; try reflexivity. contradiction. }
  unfold parse_int. change (Ascii.eqb "-" "-") with true. cbv iota.
  rewrite Hs. rewrite E in *. rewrite Hi'. reflexivity.
Qed.

Lemma parse_int_str_int (z : Z) (rest : string) :
  no_digit_head rest -> parse_int (str_int z ++ rest) = Some (VInt z, rest).
Proof.
  intros Hrest. unfold str_int.
  rewrite <- (DecimalZ.of_to z) at 2.
  destruct z as [|p|p]; cbn [Z.to_int].
  - apply (parse_int_uint (Decimal.D0 Decimal.Nil)); [discriminate|assumption].
  - pose proof (Unsigned.to_uint_nonnil p) as Hp.
    replace (NilZero.string_of_int (Decimal.Pos (Pos.to_uint p)))
      with (NilEmpty.string_of_uint (Pos.to_uint p))
      by (cbn; destruct (Pos.to_uint p); [contradiction|reflexivity..]).
    now apply parse_int_uint.
  - pose proof (Unsigned.to_uint_nonnil p) as Hp.
    replace (NilZero.string_of_int (Decimal.Neg (Pos.to_uint p)))
      with (String "-" (NilEmpty.string_of_uint (Pos.to_uint p)))
      by (cbn; destruct (Pos.to_uint p); [contradiction|reflexivity..]).
    rewrite append_cons. now apply parse_int_neg.
Qed.

(** *** Reading back what [json_dumps] writes *)

Lemma json_dumps_cons (x : value) (l : list value) :
  json_dumps (VList (x :: l)) = String "[" (json_dumps x ++ dumps_items l).
Proof. reflexivity. Qed.

Lemma json_dumps_member (k : string) (x : value) (d : pydict) :
  json_dumps (VDict ((k, x) :: d)) =
  String "{" (quote k ++ String ":" (String " " (json_dumps x ++ dumps_members d))).
Proof. reflexivity. Qed.

Lemma dumps_items_cons (y : value) (l : list value) :
  dumps_items (y :: l) = String "," (String " " (json_dumps y ++ dumps_items l)).
Proof. reflexivity. Qed.

Lemma dumps_members_cons (k : string) (y : value) (d : pydict) :
  dumps_members ((k, y) :: d) =
  String "," (String " " (quote k ++ String ":" (String " " (json_dumps y ++ dumps_members d)))).
Proof. reflexivity. Qed.


Lemma digit_or_minus_head (c : ascii) :
  is_digit c = true \/ c = "-"%char ->
  good_head c /\
  Ascii.eqb c "n" = false /\ Ascii.eqb c "t" = false /\ Ascii.eqb c "f" = false /\
  Ascii.eqb c dq = false /\ Ascii.eqb c "[" = false /\ Ascii.eqb c "{" = false.
Proof.
  intros [H | ->]; [|repeat split; reflexivity].
  destruct c as [[] [] [] [] [] [] [] []];
    first [vm_compute in H; discriminate H | repeat split; reflexivity].
Qed.

Lemma str_int_head (z : Z) :
  exists c r, str_int z = String c r /\ (is_digit c = true \/ c = "-"%char).
Proof.
  unfold str_int. destruct z as [|p|p]; cbn [Z.to_int].
  - exists "0"%char, EmptyString. split; [reflexivity | left; reflexivity].
  - pose proof (Unsigned.to_uint_nonnil p) as Hp.
    destruct (uint_head _ Hp) as (c & r & E & Hc).
    exists c, r. split; [|now left].
    rewrite <- E. cbn. destruct (Pos.to_uint p); [contradiction|reflexivity..].
  - eexists _, _. split; [reflexivity | now right].
Qed.

Lemma json_dumps_head (v : value) :
  exists c r, json_dumps v = String c r /\ good_head c.
Proof.
  destruct v as [|[]|z|s|l|d]; try (eexists _, _; split; [reflexivity | repeat split; reflexivity]).
  destruct (str_int_head z) as (c & r & E & Hc).
  exists c, r. split; [exact E | apply digit_or_minus_head, Hc].
Qed.


Lemma json_dumps_app_head (v : value) (tail : string) :
  head_is good_head (json_dumps v ++ tail).
Proof.
  destruct (json_dumps_head v) as (c & r & E & Hc). rewrite E. exact Hc.
Qed.

Lemma skip_blanks_head (s : string) : head_is good_head s -> skip_blanks s = s.
Proof. destruct s as [|c r]; [easy|]. intros (_ & H & _). cbn. now rewrite H. Qed.

Lemma parse_value_list (f : nat) (s : string) :
  head_is good_head s ->
  parse_value (S f) (String "[" s) =
  match parse_value f s with
  | Some (x, r1) =>
      match parse_items f r1 with
      | Some (l, r2) => Some (VList (x :: l), r2)
      | None => None
      end
  | None => None
  end.
Proof. destruct s as [|c r]; [easy|]. intros (H & _). cbn. now rewrite H. Qed.

Lemma parse_value_dict (f : nat) (s : string) :
  head_is (fun c => Ascii.eqb c "}" = false) s ->
  parse_value (S f) (String "{" s) =
  match parse_member f s with
  | Some (kx, r1) =>
      match parse_members f r1 with
      | Some (d, r2) => Some (VDict (kx :: d), r2)
      | None => None
      end
  | None => None
  end.
Proof. destruct s as [|c r]; [easy|]. intros H. cbn in *. now rewrite H. Qed.

Lemma parse_value_int (f : nat) (c : ascii) (r : string) :
  is_digit c = true \/ c = "-"%char ->
  parse_value (S f) (String c r) = parse_int (String c r).
Proof.
  intros H. destruct (digit_or_minus_head c H) as (_ & Hn & Ht & Hf & Hq & Hl & Hd).
  cbn [parse_value]. now rewrite Hn, Ht, Hf, Hq, Hl, Hd.
Qed.

Lemma cost_pos (v : value) : (1 <= cost v)%nat.
Proof. destruct v as [| | | |[|x l]|[|[k x] d]]; cbn; lia. Qed.

Lemma cost_list_cons (x : value) (l : list value) :
  cost_items (x :: l) = S (cost x + cost_items l).
Proof. reflexivity. Qed.

Lemma cost_dict_cons (k : string) (x : value) (d : pydict) :
  cost_members ((k, x) :: d) = S (S (cost x) + cost_members d).
Proof. reflexivity. Qed.

Lemma no_digit_items (l : list value) (rest : string) :
  no_digit_head (dumps_items l ++ rest).
Proof. destruct l; reflexivity. Qed.

Lemma no_digit_members (d : pydict) (rest : string) :
  no_digit_head (dumps_members d ++ rest).
Proof. destruct d as [|[k x] d]; reflexivity. Qed.

Lemma quote_app (k rest : string) :
  quote k ++ rest = String dq (escape k ++ String dq rest).
Proof. unfold quote. now rewrite append_cons, append_assoc. Qed.

Lemma parse_member_quote (f : nat) (k s : string) :
  parse_member (S f) (quote k ++ String ":" (String " " s)) =
  match parse_value f (skip_blanks s) with
  | Some (x, r2) => Some ((k, x), r2)
  | None => None
  end.
Proof.
  rewrite quote_app. cbn [parse_member].
  change (Ascii.eqb dq dq) with true. cbv iota.
  rewrite parse_str_escape. reflexivity.
Qed.

Theorem parse_roundtrip (fuel : nat) :
  (forall v rest, (cost v <= fuel)%nat -> no_digit_head rest ->
     parse_value fuel (json_dumps v ++ rest) = Some (v, rest)) /\
  (forall l rest, (cost_items l <= fuel)%nat ->
     parse_items fuel (dumps_items l ++ rest) = Some (l, rest)) /\
  (forall k x rest, (S (cost x) <= fuel)%nat -> no_digit_head rest ->
     parse_member fuel (quote k ++ String ":" (String " " (json_dumps x ++ rest)))
     = Some ((k, x), rest)) /\
  (forall d rest, (cost_members d <= fuel)%nat ->
     parse_members fuel (dumps_members d ++ rest) = Some (d, rest)).
Proof.
  induction fuel as [|f (IHv & IHi & IHm & IHd)].
  { repeat split; intros; try lia.
    - pose proof (cost_pos v); lia.
    - pose proof (cost_pos (VList l)); unfold cost_items in *; lia.
    - pose proof (cost_pos (VDict d)); unfold cost_members in *; lia. }
  repeat split.
  - intros v rest Hc Hrest.
    destruct v as [|[]|z|s|[|x l]|[|[k x] d]]; try reflexivity.
    + destruct (str_int_head z) as (c & r & E & Hz).
      change (json_dumps (VInt z)) with (str_int z).
      rewrite E, append_cons, (parse_value_int f c _ Hz), <- append_cons, <- E.
      now apply parse_int_str_int.
    + change (json_dumps (VStr s)) with (quote s). rewrite quote_app.
      cbn [parse_value]. change (Ascii.eqb dq "n") with false.
      change (Ascii.eqb dq "t") with false. change (Ascii.eqb dq "f") with false.
      change (Ascii.eqb dq dq) with true. cbv iota.
      now rewrite parse_str_escape.
    + rewrite json_dumps_cons, append_cons, append_assoc.
      change (cost (VList (x :: l))) with (S (cost x + cost_items l)) in Hc.
      rewrite parse_value_list by apply json_dumps_app_head.
      rewrite IHv by (lia || apply no_digit_items).
      rewrite IHi by lia. reflexivity.
    + rewrite json_dumps_member, append_cons.
      change (cost (VDict ((k, x) :: d))) with (S (S (cost x) + cost_members d)) in Hc.
      rewrite parse_value_dict by reflexivity.
      rewrite append_assoc, !append_cons, append_assoc.
      rewrite IHm by (lia || apply no_digit_members).
      rewrite IHd by lia. reflexivity.
  - intros l rest Hc. destruct l as [|y l]; [reflexivity|].
    rewrite cost_list_cons in Hc.
    rewrite dumps_items_cons, !append_cons, append_assoc.
    cbn [parse_items]. change (Ascii.eqb "," "]") with false.
    change (Ascii.eqb "," ",") with true. cbv iota.
    change (skip_blanks (String " " ?s)) with (skip_blanks s).
    rewrite skip_blanks_head by apply json_dumps_app_head.
    rewrite IHv by (lia || apply no_digit_items).
    rewrite IHi by lia. reflexivity.
  - intros k x rest Hc Hrest.
    rewrite parse_member_quote.
    rewrite skip_blanks_head by apply json_dumps_app_head.
    rewrite IHv by (lia || assumption). reflexivity.
  - intros d rest Hc. destruct d as [|[k y] d]; [reflexivity|].
    rewrite cost_dict_cons in Hc.
    rewrite dumps_members_cons, !append_cons.
    cbn [parse_members]. change (Ascii.eqb "," "}") with false.
    change (Ascii.eqb "," ",") with true. cbv iota.
    change (skip_blanks (String " " ?s)) with (skip_blanks s).
    rewrite skip_blanks_head by (rewrite quote_app; repeat split; reflexivity).
    rewrite !append_assoc, !append_cons, append_assoc.
    rewrite IHm by (lia || apply no_digit_members).
    rewrite IHd by lia. reflexivity.
Qed.


Lemma length_append (a b : string) :
  String.length (a ++ b) = (String.length a + String.length b)%nat.
Proof.
  induction a as [|c a IH]; [reflexivity|].
  rewrite append_cons. cbn [String.length]. now rewrite IH.
Qed.

Lemma cost_le_length (v : value) : (cost v <= String.length (json_dumps v))%nat.
Proof.
  induction v as [|b|z|s|l IH|d IH] using value_nested_ind.
  - cbn; lia.
  - destruct b; cbn; lia.
  - destruct (str_int_head z) as (c & r & E & _).
    change (json_dumps (VInt z)) with (str_int z). rewrite E. cbn; lia.
  - change (json_dumps (VStr s)) with (quote s). unfold quote. cbn [String.length cost]. lia.
  - assert (Hi : forall l,
        Forall (fun x => (cost x <= String.length (json_dumps x))%nat) l ->
        (cost_items l <= String.length (dumps_items l))%nat).
    { clear. intros l H. induction H as [|x l Hx _ IHl]; [vm_compute; lia|].
      rewrite cost_list_cons, dumps_items_cons. cbn [String.length].
      rewrite length_append. lia. }
    destruct l as [|x l]; [vm_compute; lia|].
    inversion IH as [|? ? Hx Hl]; subst. apply Hi in Hl.
    rewrite json_dumps_cons. change (cost (VList (x :: l))) with (S (cost x + cost_items l)).
    cbn [String.length]. rewrite length_append. lia.
  - assert (Hm : forall d,
        Forall (fun kx => (cost (snd kx) <= String.length (json_dumps (snd kx)))%nat) d ->
        (cost_members d <= String.length (dumps_members d))%nat).
    { clear. intros d H. induction H as [|[k y] d Hy _ IHd]; [vm_compute; lia|].
      rewrite cost_dict_cons, dumps_members_cons. cbn [String.length].
      rewrite !length_append. cbn [String.length]. rewrite length_append.
      cbn [snd] in Hy. lia. }
    destruct d as [|[k x] d]; [vm_compute; lia|].
    inversion IH as [|? ? Hx Hd]; subst. cbn [snd] in Hx.
    apply Hm in Hd.
    rewrite json_dumps_member. change (cost (VDict ((k, x) :: d))) with (S (S (cost x) + cost_members d)).
    cbn [String.length]. rewrite !length_append. cbn [String.length]. rewrite length_append.
    lia.
Qed.

Lemma append_empty (s : string) : s ++ EmptyString = s.
Proof.
  induction s as [|c s IH]; [reflexivity|]. rewrite append_cons. now rewrite IH.
Qed.

(** [json.loads(json.dumps(v)) == v] *)
Theorem json_loads_dumps (v : value) : json_loads (json_dumps v) = Some v.
Proof.
  unfold json_loads.
  destruct (parse_roundtrip (S (String.length (json_dumps v)))) as (Hv & _).
  specialize (Hv v EmptyString).
  rewrite append_empty in Hv. rewrite Hv; [reflexivity| |exact I].
  pose proof (cost_le_length v). lia.
Qed.

(** ** Tokens, guards and handlers *)

Ltac run := unfold bind, ret, get_token, delete_token, put_token, put_log, next_log_seq,
                   call_ec2, print in *; cbn [fst snd confirmation_table action_log_table
                   log_seq ec2_calls stdout] in *.

Lemma verify_stored (env : Env) (w : World) (t : string) (it : TokenItem) :
  confirmation_table w !! t = Some it ->
  token_get_item_raises env = None ->
  token_delete_item_raises env = None ->
  parses it ->
  exists r,
    verify_confirmation_token env (VStr t) w =
      (r, mkWorld (delete t (confirmation_table w)) (action_log_table w) (log_seq w)
                  (ec2_calls w) (stdout w)) /\
    ((float_int (time_time env) >? tk_expires_at it) = true /\ r = expired_answer \/
     (float_int (time_time env) >? tk_expires_at it) = false /\
       exists p, tk_parameters it = json_dumps p /\ r = valid_answer it p).
Proof.
  intros Hit Hget Hdel [p Hp].
  unfold verify_confirmation_token. rewrite Hget. run. rewrite Hit.
  destruct (float_int (time_time env) >? tk_expires_at it) eqn:Hexp; rewrite Hdel.
  - eexists; split; [reflexivity|]. left; split; reflexivity.
  - rewrite Hp, json_loads_dumps. eexists; split; [reflexivity|].
    right; split; [reflexivity|]. exists p; split; reflexivity.
Qed.

Lemma verify_absent (env : Env) (w : World) (t : string) :
  confirmation_table w !! t = None ->
  token_get_item_raises env = None ->
  verify_confirmation_token env (VStr t) w = (not_found_answer, w).
Proof.
  intros Hno Hget. unfold verify_confirmation_token. rewrite Hget. run. now rewrite Hno.
Qed.

Lemma verify_never_valid_when_absent (env : Env) (w : World) (tok : value) :
  (forall t, tok = VStr t -> confirmation_table w !! t = None) ->
  item "valid" (fst (verify_confirmation_token env tok w)) = VBool false.
Proof.
  intros Hno. unfold verify_confirmation_token.
  destruct (token_get_item_raises env); [reflexivity|].
  destruct tok; try reflexivity. run. rewrite (Hno s eq_refl). reflexivity.
Qed.

(** Single use without any assumption on the table: an answer that is
    valid has deleted the item. *)
Lemma valid_answer_consumes (env : Env) (token : value) (w : World) :
  truthy (item "valid" (fst (verify_confirmation_token env token w))) = true ->
  exists t, token = VStr t /\
            confirmation_table (snd (verify_confirmation_token env token w)) !! t = None.
Proof.
  unfold verify_confirmation_token.
  destruct (token_get_item_raises env); [discriminate|].
  destruct token as [| | |t| |]; try discriminate.
  unfold bind, ret, get_token, delete_token.
  destruct (confirmation_table w !! t) as [it|]; [|discriminate].
  destruct (_ >? _).
  - destruct (token_delete_item_raises env); discriminate.
  - destruct (json_loads _); [|discriminate].
    destruct (token_delete_item_raises env); [discriminate|].
    intros _. exists t. split; [reflexivity | apply lookup_delete_eq].
Qed.

(** Every outcome of a verification of a stored token. *)
Lemma verify_outcomes (env : Env) (w : World) (t : string) (it : TokenItem) :
  confirmation_table w !! t = Some it ->
  let res := verify_confirmation_token env (VStr t) w in
  (snd res = without_token t w /\
   token_get_item_raises env = None /\
   token_delete_item_raises env = None /\
   (tk_expires_at it < float_int (time_time env) /\ fst res = expired_answer \/
    float_int (time_time env) <= tk_expires_at it /\
    exists p, json_loads (tk_parameters it) = Some p /\ fst res = valid_answer it p)) \/
  (snd res = w /\
   exists e,
     fst res = invalid e /\
     (token_get_item_raises env = Some e \/
      token_get_item_raises env = None /\
      token_delete_item_raises env = Some e /\
      (tk_expires_at it < float_int (time_time env) \/
       exists p, json_loads (tk_parameters it) = Some p) \/
      token_get_item_raises env = None /\
      float_int (time_time env) <= tk_expires_at it /\
      json_loads (tk_parameters it) = None /\
      e = json_decode_error env)).
Proof.
  intros Hit. cbn zeta. unfold verify_confirmation_token.
  destruct (token_get_item_raises env) as [e|] eqn:Hget.
  { right. split; [reflexivity|]. exists e. auto. }
  unfold bind, ret, get_token, delete_token. rewrite Hit.
  destruct (Z.gtb_spec (float_int (time_time env)) (tk_expires_at it)) as [Hexp|Hlive].
  - destruct (token_delete_item_raises env) as [e|] eqn:Hdel.
    + right. split; [reflexivity|]. exists e. split; [reflexivity|]. right. left. auto.
    + left. cbn [fst snd]. repeat split; auto.
  - destruct (json_loads (tk_parameters it)) as [p|] eqn:Hp.
    + destruct (token_delete_item_raises env) as [e|] eqn:Hdel.
      * right. split; [reflexivity|]. exists e. split; [reflexivity|].
        right. left. eauto.
      * left. cbn [fst snd]. repeat split; auto. right. split; [exact Hlive|].
        exists p. auto.
    + right. split; [reflexivity|]. exists (json_decode_error env).
      split; [reflexivity|]. right. right. auto.
Qed.

(** Claim C3, amended. Verification is single use and fails closed. An
    answer that is valid has deleted the item, whatever the token table
    does. Every verification of a stored token either consumes it (the
    table answered; the answer is valid or expired and the item is
    deleted) or is a fault (get_item or delete_item raised, or the stored
    parameters are not JSON; the answer is invalid with the text of the
    exception and the state is as it was, the item included). After a
    verification that consumed the token, a second one is invalid: not
    found. On a working table every item that issuance wrote is consumed. *)
Theorem verification_consumes_the_token (env env' : Env) (w : World) (t : string)
    (it : TokenItem) :
  confirmation_table w !! t = Some it ->
  let res := verify_confirmation_token env (VStr t) w in
  (truthy (item "valid" (fst res)) = true -> confirmation_table (snd res) !! t = None) /\
  ((snd res = without_token t w /\
    token_get_item_raises env = None /\
    token_delete_item_raises env = None /\
    (fst res = expired_answer \/ exists p, fst res = valid_answer it p)) \/
   (snd res = w /\
    exists e,
      fst res = invalid e /\
      (token_get_item_raises env = Some e \/
       token_delete_item_raises env = Some e \/
       json_loads (tk_parameters it) = None /\ e = json_decode_error env))) /\
  (snd res = without_token t w ->
   item "valid" (fst (verify_confirmation_token env' (VStr t) (snd res))) = VBool false /\
   (token_get_item_raises env' = None ->
    verify_confirmation_token env' (VStr t) (snd res) = (not_found_answer, snd res))) /\
  (parses it ->
   token_get_item_raises env = None ->
   token_delete_item_raises env = None ->
   snd res = without_token t w).
Proof.
  intros Hit. cbn zeta.
  assert (Hgone : confirmation_table (without_token t w) !! t = None)
    by apply lookup_delete_eq.
  split; [|split; [|split]].
  - intros Hv. destruct (valid_answer_consumes env (VStr t) w Hv) as (t' & [= <-] & H).
    exact H.
  - destruct (verify_outcomes env w t it Hit)
      as [(Hw & Hget & Hdel & Hr) | (Hw & e & Hr & Hwhy)].
    + left. repeat split; auto.
      destruct Hr as [(_ & Hr) | (_ & p & _ & Hr)]; [now left | right; now exists p].
    + right. split; [exact Hw|]. exists e. split; [exact Hr|].
      destruct Hwhy as [H | [(_ & H & _) | (_ & _ & H & He)]]; auto.
  - intros ->. split.
    + apply verify_never_valid_when_absent. intros t' [= <-]. exact Hgone.
    + intros Hget'. now apply verify_absent.
  - intros [p Hp] Hget Hdel.
    destruct (verify_outcomes env w t it Hit)
      as [(Hw & _) | (_ & e & _ & [H | [(_ & H & _) | (_ & _ & H & _)]])];
      [exact Hw | congruence | congruence |].
    rewrite Hp, json_loads_dumps in H. discriminate H.
Qed.

(** Claim C3 fails as stated: a verification during which delete_item
    raises answers invalid and leaves the item in the table, and the next
    verification of the same token is valid, not not-found. *)
Lemma failed_verification_keeps_the_token :
  let token := "CE8462E4B3EC" in
  let first := verify_confirmation_token throttled_env (VStr token) issued_world in
  let second := verify_confirmation_token issuing_env (VStr token) (snd first) in
  fst first = invalid "ProvisionedThroughputExceededException" /\
  confirmation_table (snd first) !! token =
    Some (issued_item issuing_env "terminate_instance" (terminate_parameters "i-1")) /\
  item "valid" (fst second) = VBool true /\
  fst second <> not_found_answer.
Proof.
  cbn zeta.
  split; [vm_compute; reflexivity|]. split; [vm_compute; reflexivity|].
  split; [vm_compute; reflexivity|]. vm_compute. discriminate.
Qed.

(** Claim C4, amended. Expiry is decided on whole seconds: a stored token
    is expired when the whole second of the verification is after its
    expiry second, which for an issued token is the issuance second plus
    300. An expired token is never honored, whatever the token table does:
    when the table answers, the answer is the expired one and the item is
    deleted; when get_item or delete_item raises, the answer is invalid
    with the text of the exception and the item stays. Up to the end of
    the expiry second the token of a working table is still honored. The
    item need not have been reclaimed by the table: it is still stored
    when verification starts. *)
Theorem expired_token_is_never_honored (env : Env) (w : World) (t : string) (it : TokenItem) :
  confirmation_table w !! t = Some it ->
  let res := verify_confirmation_token env (VStr t) w in
  (tk_expires_at it < float_int (time_time env) ->
   item "valid" (fst res) = VBool false /\
   match token_get_item_raises env, token_delete_item_raises env with
   | None, None => res = (expired_answer, without_token t w)
   | None, Some e => res = (invalid e, w)
   | Some e, _ => res = (invalid e, w)
   end) /\
  (float_int (time_time env) <= tk_expires_at it ->
   parses it ->
   token_get_item_raises env = None ->
   token_delete_item_raises env = None ->
   exists p, tk_parameters it = json_dumps p /\
             res = (valid_answer it p, without_token t w)) /\
  (forall env0 action parameters,
     it = issued_item env0 action parameters ->
     tk_expires_at it = float_int (time_time env0) + 300).
Proof.
  intros Hit. cbn zeta. split; [|split].
  - intros Hexp.
    assert (Hgt : (float_int (time_time env) >? tk_expires_at it) = true)
      by (apply Z.gtb_lt; lia).
    unfold verify_confirmation_token.
    destruct (token_get_item_raises env) as [e|]; [split; reflexivity|].
    unfold bind, ret, get_token, delete_token. rewrite Hit, Hgt.
    destruct (token_delete_item_raises env) as [e|]; split; reflexivity.
  - intros Hlive Hp Hget Hdel.
    destruct (verify_stored env w t it Hit Hget Hdel Hp) as (r & E & Hr).
    destruct Hr as [(Hx & _) | (_ & p & Hp' & ->)].
    { destruct (Z.gtb_spec (float_int (time_time env)) (tk_expires_at it));
        [lia | discriminate]. }
    exists p. split; [exact Hp' | exact E].
  - intros env0 action parameters ->. reflexivity.
Qed.

(** Claim C4 fails as stated: a token presented 300.78 seconds after its
    issuance, in the whole second in which it expires, is honored, and the
    instance is terminated with it. *)
Lemma token_is_honored_in_its_last_second :
  let token := "CE8462E4B3EC" in
  let late := demo_env (inr []) boundary_clock in
  confirmation_table issued_world !! token =
    Some (issued_item issuing_env "terminate_instance" (terminate_parameters "i-1")) /\
  seconds demo_clock = Some 1730649600.1234567%Q /\
  seconds boundary_clock = Some 1730649900.9%Q /\
  (300 < 1730649900.9 - 1730649600.1234567)%Q /\
  item "valid" (fst (verify_confirmation_token late (VStr token) issued_world)) = VBool true /\
  ec2_calls (snd (terminate_ec2_instance late "i-1" (VStr token) (VBool true) issued_world))
  = [TerminateInstances "i-1"].
Proof.
  cbn zeta.
  split; [vm_compute; reflexivity|]. split; [vm_compute; reflexivity|].
  split; [vm_compute; reflexivity|]. split; [vm_compute; reflexivity|].
  split; vm_compute; reflexivity.
Qed.

Lemma generate_ok (env : Env) (action : string) (parameters : value) (w : World) :
  token_put_item_raises env = None ->
  generate_confirmation_token env action parameters w =
  (VStr (token_of action parameters (time_time env)),
   mkWorld (<[token_of action parameters (time_time env) :=
              issued_item env action parameters]> (confirmation_table w))
           (action_log_table w) (log_seq w) (ec2_calls w) (stdout w)).
Proof. intros H. unfold generate_confirmation_token. rewrite H. reflexivity. Qed.

Lemma generate_refused (env : Env) (action : string) (parameters : value) (w : World) (e : string) :
  token_put_item_raises env = Some e ->
  generate_confirmation_token env action parameters w =
  (VNone,
   mkWorld (confirmation_table w) (action_log_table w) (log_seq w) (ec2_calls w)
           (stdout w ++ ["Error creating confirmation token: " ++ e])).
Proof. intros H. unfold generate_confirmation_token. rewrite H. reflexivity. Qed.

Lemma take_str_length (n : nat) (s : string) :
  (n <= String.length s)%nat -> String.length (take_str n s) = n.
Proof.
  revert s. induction n as [|n IH]; intros [|c s] H; cbn in *; try lia.
  rewrite IH; lia.
Qed.

Lemma smap_length (f : ascii -> ascii) (s : string) :
  String.length (smap f s) = String.length s.
Proof. induction s as [|c s IH]; cbn; [reflexivity | now rewrite IH]. Qed.

Lemma hexdigest_length (data : list Z) : String.length (Sha256.hexdigest data) = 64%nat.
Proof. reflexivity. Qed.

Lemma token_length (action : string) (parameters : value) (now : pyfloat) :
  String.length (token_of action parameters now) = 12%nat.
Proof.
  unfold token_of, upper. rewrite smap_length, take_str_length; [reflexivity|].
  rewrite hexdigest_length. lia.
Qed.

(** *** Backup guard *)

Lemma In_insert_newest (x y : Image * value) (l : list (Image * value)) :
  In y (insert_newest x l) <-> y = x \/ In y l.
Proof.
  induction l as [|z l IH]; cbn.
  - intuition auto.
  - destruct (String.ltb _ _); cbn; rewrite ?IH; intuition auto.
Qed.

Lemma In_sort_newest (y : Image * value) (l : list (Image * value)) :
  In y (sort_newest l) <-> In y l.
Proof.
  induction l as [|x l IH]; cbn; [tauto|].
  rewrite In_insert_newest, IH. intuition auto.
Qed.

Lemma is_recent_spec (env : Env) (a : Image * value) :
  is_recent env a = true <-> recent_image env (fst a).
Proof. unfold is_recent, recent_image. rewrite Z.gtb_lt. tauto. Qed.

Lemma In_amis (a : Image * value) (images : list Image) :
  In a (sort_newest (map ami_info images)) -> In (fst a) images.
Proof.
  rewrite In_sort_newest, in_map_iff. intros (image & <- & Hin). exact Hin.
Qed.

(** No image of the instance is recent: the guard reports success and no
    recent backup. *)
Lemma backup_status_stale (env : Env) (instance_id : string) (images : list Image) :
  describe_images env instance_id = inr images ->
  (forall image, In image images -> ~ recent_image env image) ->
  let backup_status := check_ami_backup_status env instance_id in
  item "success" backup_status = VBool true /\
  get "has_recent_backup" (VBool false) backup_status = VBool false.
Proof.
  intros Himg Hstale. cbn zeta.
  unfold check_ami_backup_status, list_instance_amis_raw. rewrite Himg.
  destruct (sort_newest (map ami_info images)) as [|first others] eqn:E;
    [split; reflexivity|].
  assert (Hnone : List.filter (is_recent env) (first :: others) = []).
  { rewrite <- E. clear E.
    assert (H : forall a, In a (sort_newest (map ami_info images)) -> is_recent env a = false).
    { intros a Ha. apply In_amis in Ha.
      destruct (is_recent env a) eqn:R; [|reflexivity].
      apply is_recent_spec in R. exfalso. exact (Hstale _ Ha R). }
    induction (sort_newest (map ami_info images)) as [|a l IH]; [reflexivity|].
    cbn. rewrite (H a) by (left; reflexivity). apply IH. intros b Hb. apply H. now right. }
  rewrite Hnone. split; reflexivity.
Qed.

Lemma backup_status_recent (env : Env) (instance_id : string) (images : list Image)
    (image : Image) :
  describe_images env instance_id = inr images ->
  In image images -> recent_image env image ->
  get "has_recent_backup" (VBool false) (check_ami_backup_status env instance_id) = VBool true.
Proof.
  intros Himg Hin Hrec.
  unfold check_ami_backup_status, list_instance_amis_raw. rewrite Himg.
  assert (Ha : In (ami_info image) (sort_newest (map ami_info images)))
    by (apply In_sort_newest, in_map, Hin).
  destruct (sort_newest (map ami_info images)) as [|first others] eqn:E; [destruct Ha|].
  assert (Hf : In (ami_info image) (List.filter (is_recent env) (first :: others))).
  { apply filter_In. split; [exact Ha|]. now apply is_recent_spec. }
  destruct (List.filter (is_recent env) (first :: others)); [destruct Hf | reflexivity].
Qed.

Lemma backup_status_error (env : Env) (instance_id e : string) :
  describe_images env instance_id = inl e ->
  check_ami_backup_status env instance_id = failure e.
Proof.
  intros H. unfold check_ami_backup_status, list_instance_amis_raw. now rewrite H.
Qed.

(** *** The audit log write *)

Lemma log_action_frame (env : Env) (action : string) (parameters : value) (status : string)
    (result : value) (error user_query user_email : option string) (w : World) :
  let w' := snd (log_action env action parameters status result error user_query user_email w) in
  confirmation_table w' = confirmation_table w /\
  ec2_calls w' = ec2_calls w /\
  log_seq w' = S (log_seq w).
Proof.
  unfold log_action. run.
  destruct (log_put_item_raises env (log_seq w)); cbn; auto.
Qed.

Lemma log_action_written (env : Env) (action : string) (parameters : value) (status : string)
    (result : value) (error user_query user_email : option string) (w : World) :
  log_put_item_raises env (log_seq w) = None ->
  exists it,
    action_log_table
      (snd (log_action env action parameters status result error user_query user_email w))
    = (action_log_table w ++ [it])%list /\
    lg_action it = action /\ lg_status it = status /\
    lg_parameters it = json_dumps parameters.
Proof.
  intros H. unfold log_action. run. rewrite H. cbn.
  eexists; split; [reflexivity|]. cbn. auto.
Qed.

(** *** The handlers, path by path *)

Lemma terminate_skips_gate (env : Env) (instance_id : string) (token skip_backup : value)
    (instance : Instance) (rest : list Instance) (w : World) :
  describe_instances env instance_id = inr (instance :: rest) ->
  truthy skip_backup = true ->
  terminate_ec2_instance env instance_id token skip_backup w =
  terminate_confirmed env instance_id instance token w.
Proof.
  intros Hd Hs. unfold terminate_ec2_instance. rewrite Hd, Hs. reflexivity.
Qed.

Lemma terminate_gate_open (env : Env) (instance_id : string) (token skip_backup : value)
    (instance : Instance) (rest : list Instance) (w : World) :
  describe_instances env instance_id = inr (instance :: rest) ->
  truthy (item "success" (check_ami_backup_status env instance_id)) = false \/
  truthy (get "has_recent_backup" (VBool false) (check_ami_backup_status env instance_id)) = true ->
  terminate_ec2_instance env instance_id token skip_backup w =
  terminate_confirmed env instance_id instance token w.
Proof.
  intros Hd Hopen. unfold terminate_ec2_instance. rewrite Hd.
  destruct (truthy skip_backup); [reflexivity|]. cbn [negb].
  destruct Hopen as [-> | ->]; [reflexivity|]. now rewrite andb_false_r.
Qed.

Lemma terminate_gate_closed (env : Env) (instance_id : string) (token skip_backup : value)
    (instance : Instance) (rest : list Instance) (w : World) :
  describe_instances env instance_id = inr (instance :: rest) ->
  truthy skip_backup = false ->
  item "success" (check_ami_backup_status env instance_id) = VBool true ->
  get "has_recent_backup" (VBool false) (check_ami_backup_status env instance_id) = VBool false ->
  terminate_ec2_instance env instance_id token skip_backup w =
  (Returned (backup_block instance_id (check_ami_backup_status env instance_id)),
   snd (log_action env "terminate_instance" (terminate_parameters instance_id)
          "requires_confirmation" (VDict [("reason", VStr "no_recent_backup")])
          None None None w)).
Proof.
  intros Hd Hs Hok Hrec. unfold terminate_ec2_instance. rewrite Hd, Hs, Hok, Hrec.
  cbn [negb truthy andb]. unfold bind, ret, terminate_parameters.
  destruct (log_action _ _ _ _ _ _ _ _ w). reflexivity.
Qed.

Lemma recent_or_stale (env : Env) (images : list Image) :
  (exists image, In image images /\ recent_image env image) \/
  (forall image, In image images -> ~ recent_image env image).
Proof.
  induction images as [|x l [ (im & Hin & Hr) | Hall ]].
  - right. intros ? [].
  - left. exists im. split; [now right | exact Hr].
  - destruct (Z_lt_dec (datetime_now env - week) (created x)) as [Hx|Hx].
    + left. exists x. split; [now left | exact Hx].
    + right. intros im [<-|Hin]; [exact Hx | now apply Hall].
Qed.

Lemma passed_gate_reaches_confirmation (env : Env) (instance_id : string)
    (token skip_backup : value) (instance : Instance) (rest : list Instance) (w : World) :
  describe_instances env instance_id = inr (instance :: rest) ->
  backup_gate_passed env instance_id skip_backup ->
  terminate_ec2_instance env instance_id token skip_backup w =
  terminate_confirmed env instance_id instance token w.
Proof.
  intros Hd [Hs | [(e & He) | (images & image & Himg & Hin & Hr)]].
  - now apply (terminate_skips_gate env instance_id token skip_backup instance rest).
  - apply (terminate_gate_open env instance_id token skip_backup instance rest w Hd).
    left. now rewrite (backup_status_error env instance_id e He).
  - apply (terminate_gate_open env instance_id token skip_backup instance rest w Hd).
    right. now rewrite (backup_status_recent env instance_id images image Himg Hin Hr).
Qed.

(** Claim C5, amended. The backup gate decides without looking at the
    token. A termination of an instance whose image listing succeeds and
    shows no image younger than seven days, without the skip flag, is
    blocked for every confirmation token: the answer has success false,
    requires_confirmation true, the backup status, the message and the
    recommendation to create an AMI; no mutating call is made, the token
    table is left as it was, and the block is logged as
    requires_confirmation. In every other case the gate lets the request
    pass to the confirmation part of the handler: with the skip flag, with
    a recent image, and also when the image listing itself fails. *)
Theorem backup_gate_ignores_the_token (env : Env) (instance_id : string)
    (token skip_backup : value) (instance : Instance) (rest : list Instance) (w : World) :
  describe_instances env instance_id = inr (instance :: rest) ->
  let res := terminate_ec2_instance env instance_id token skip_backup w in
  (backup_gate_passed env instance_id skip_backup /\
   res = terminate_confirmed env instance_id instance token w) \/
  (truthy skip_backup = false /\
   (exists images,
      describe_images env instance_id = inr images /\
      forall image, In image images -> ~ recent_image env image) /\
   (exists v,
      fst res = Returned v /\
      item "success" v = VBool false /\
      item "requires_confirmation" v = VBool true /\
      item "backup_status" v = check_ami_backup_status env instance_id /\
      item "message" v =
        VStr "No recent AMI backup. Create AMI first or confirm to proceed." /\
      item "recommendation" v =
        VStr ("Run: 'Create AMI backup for " ++ instance_id ++ "'")) /\
   ec2_calls (snd res) = ec2_calls w /\
   confirmation_table (snd res) = confirmation_table w /\
   (log_put_item_raises env (log_seq w) = None ->
    exists it, action_log_table (snd res) = (action_log_table w ++ [it])%list /\
               lg_action it = "terminate_instance" /\
               lg_status it = "requires_confirmation")).
Proof.
  intros Hd. cbn zeta.
  destruct (truthy skip_backup) eqn:Hs.
  { left. assert (Hg : backup_gate_passed env instance_id skip_backup) by (left; exact Hs).
    split; [exact Hg|]. now apply (passed_gate_reaches_confirmation _ _ _ _ _ rest). }
  destruct (describe_images env instance_id) as [e|images] eqn:Himg.
  { left. assert (Hg : backup_gate_passed env instance_id skip_backup)
      by (right; left; eauto).
    split; [exact Hg|]. now apply (passed_gate_reaches_confirmation _ _ _ _ _ rest). }
  destruct (recent_or_stale env images) as [(image & Hin & Hrec) | Hstale].
  { left. assert (Hg : backup_gate_passed env instance_id skip_backup)
      by (right; right; eauto).
    split; [exact Hg|]. now apply (passed_gate_reaches_confirmation _ _ _ _ _ rest). }
  right. split; [reflexivity|]. split; [eauto|].
  destruct (backup_status_stale env instance_id images Himg Hstale) as [Hok Hrec].
  rewrite (terminate_gate_closed env instance_id token skip_backup instance rest w Hd Hs Hok Hrec).
  cbn [fst snd].
  destruct (log_action_frame env "terminate_instance" (terminate_parameters instance_id)
              "requires_confirmation" (VDict [("reason", VStr "no_recent_backup")])
              None None None w) as (Ht & Hc & _).
  split; [eexists; repeat split; reflexivity|].
  split; [exact Hc|]. split; [exact Ht|].
  intros Hlog.
  destruct (log_action_written env "terminate_instance" (terminate_parameters instance_id)
              "requires_confirmation" (VDict [("reason", VStr "no_recent_backup")])
              None None None w Hlog) as (it & E & Ha & Hst & _).
  exists it. auto.
Qed.

(** Claim C5 fails as stated: the skip flag is not the only way past the
    gate. When the image listing fails, a termination without the flag
    and with a valid token passes the gate and terminates the instance. *)
Lemma failed_listing_bypasses_the_backup_gate :
  let env := demo_env (inl "UnauthorizedOperation") demo_clock in
  let res := terminate_ec2_instance env "i-1" (VStr "CE8462E4B3EC") (VBool false)
               issued_world in
  describe_images env "i-1" = inl "UnauthorizedOperation" /\
  (exists v, fst res = Returned v /\ item "success" v = VBool true) /\
  ec2_calls (snd res) = [TerminateInstances "i-1"].
Proof.
  cbn zeta. split; [reflexivity|].
  split; [eexists; split; [vm_compute; reflexivity | reflexivity] | vm_compute; reflexivity].
Qed.

(** Claim C6. When the image listing itself fails, the backup status has
    success false and termination, also with the skip flag unset,
    continues with the confirmation part instead of blocking. *)
Theorem backup_gate_fails_open (env : Env) (instance_id : string)
    (token skip_backup : value) (instance : Instance) (rest : list Instance)
    (e : string) (w : World) :
  describe_instances env instance_id = inr (instance :: rest) ->
  describe_images env instance_id = inl e ->
  check_ami_backup_status env instance_id = failure e /\
  terminate_ec2_instance env instance_id token skip_backup w =
  terminate_confirmed env instance_id instance token w.
Proof.
  intros Hd Himg. split; [now apply backup_status_error|].
  apply (terminate_gate_open env instance_id token skip_backup instance rest w Hd).
  left. now rewrite (backup_status_error env instance_id e Himg).
Qed.

(** The answer with the token that [generate_confirmation_token] gave. *)
Lemma asks_confirmation_intro (env : Env) (action : string) (parameters : value)
    (w w1 w2 : World) (token : value) (v : value) :
  generate_confirmation_token env action parameters w = (token, w1) ->
  confirmation_table w2 = confirmation_table w1 ->
  ec2_calls w2 = ec2_calls w1 ->
  item "success" v = VBool false ->
  item "requires_confirmation" v = VBool true ->
  item "confirmation_token" v = token ->
  asks_confirmation env action parameters w (Returned v, w2).
Proof.
  intros Hgen Ht Hc Hs Hr Hk. exists v. cbn [fst snd].
  do 3 (split; [auto|]).
  destruct (token_put_item_raises env) as [e|] eqn:Hput.
  - rewrite (generate_refused env _ _ w e Hput) in Hgen. injection Hgen as <- <-.
    cbn [confirmation_table ec2_calls] in *. auto.
  - rewrite (generate_ok env _ _ w Hput) in Hgen. injection Hgen as <- <-.
    cbn [confirmation_table ec2_calls] in *. split; [exact Hc|]. cbn zeta.
    pose proof (token_length action parameters (time_time env)) as Hlen.
    split; [exact Hk|]. split; [exact Hlen|]. split; [|exact Ht].
    rewrite Hk. destruct (token_of _ _ _); [discriminate Hlen | reflexivity].
Qed.

Lemma terminate_confirmed_no_token (env : Env) (instance_id : string) (instance : Instance)
    (token : value) (w : World) :
  truthy token = false ->
  asks_confirmation env "terminate_instance" (terminate_parameters instance_id) w
    (terminate_confirmed env instance_id instance token w).
Proof.
  intros Ht. unfold terminate_confirmed. rewrite Ht. cbn [negb]. unfold bind at 1.
  fold (terminate_parameters instance_id).
  destruct (generate_confirmation_token env "terminate_instance"
              (terminate_parameters instance_id) w) as [tok w1] eqn:Hgen.
  unfold bind, ret.
  match goal with |- context [log_action ?a ?b ?c ?d ?e ?f ?g ?h ?w] =>
    destruct (log_action_frame a b c d e f g h w) as (Hc & Hcalls & _);
    destruct (log_action a b c d e f g h w) as [x w'] end.
  cbn [fst snd] in *.
  eapply asks_confirmation_intro; eauto.
Qed.

Lemma delete_no_token (env : Env) (volume_id : string) (volume : Volume)
    (rest : list Volume) (token : value) (w : World) :
  describe_volumes env volume_id = inr (volume :: rest) ->
  Attachments volume = [] ->
  truthy token = false ->
  asks_confirmation env "delete_volume" (delete_parameters volume_id) w
    (delete_ebs_volume env volume_id token w).
Proof.
  intros Hd Ha Ht. unfold delete_ebs_volume. rewrite Hd, Ha, Ht. cbn [negb]. unfold bind at 1.
  fold (delete_parameters volume_id).
  destruct (generate_confirmation_token env "delete_volume"
              (delete_parameters volume_id) w) as [tok w1] eqn:Hgen.
  unfold bind, ret.
  match goal with |- context [log_action ?a ?b ?c ?d ?e ?f ?g ?h ?w] =>
    destruct (log_action_frame a b c d e f g h w) as (Hc & Hcalls & _);
    destruct (log_action a b c d e f g h w) as [x w'] end.
  cbn [fst snd] in *.
  eapply asks_confirmation_intro; eauto.
Qed.

(** Claim C2, amended. A termination that the backup gate lets pass (by
    the flag, by a recent image or by a failed image listing) and a volume
    deletion (volume unattached) that come without a token ask for a
    confirmation and make no mutating EC2 call: success is false and
    requires_confirmation is true. When the token table takes the item,
    the answer carries the token just issued, a text of twelve characters
    stored for this action and these parameters; when the table refuses
    the item, the answer carries no token and the table is unchanged. *)
Theorem irreversible_action_without_token_asks_confirmation (env : Env) (w : World) :
  (forall instance_id token skip_backup instance rest,
     describe_instances env instance_id = inr (instance :: rest) ->
     backup_gate_passed env instance_id skip_backup ->
     truthy token = false ->
     asks_confirmation env "terminate_instance" (terminate_parameters instance_id) w
       (terminate_ec2_instance env instance_id token skip_backup w)) /\
  (forall volume_id token volume rest,
     describe_volumes env volume_id = inr (volume :: rest) ->
     Attachments volume = [] ->
     truthy token = false ->
     asks_confirmation env "delete_volume" (delete_parameters volume_id) w
       (delete_ebs_volume env volume_id token w)).
Proof.
  split.
  - intros instance_id token skip_backup instance rest Hd Hgate Ht.
    rewrite (passed_gate_reaches_confirmation env instance_id token skip_backup instance
               rest w Hd Hgate).
    now apply terminate_confirmed_no_token.
  - intros. now apply (delete_no_token env volume_id volume rest).
Qed.

(** Claim C2 fails as stated: when the confirmation table refuses the
    item, the request without a token is still answered with
    requires_confirmation, but the answer carries no token and none is
    stored. *)
Lemma confirmation_request_may_carry_no_token :
  let res := terminate_ec2_instance throttled_env "i-1" VNone (VBool true) demo_world in
  exists v,
    fst res = Returned v /\
    item "requires_confirmation" v = VBool true /\
    item "confirmation_token" v = VNone /\
    item "message" v = VStr "⚠️ DESTRUCTIVE: Terminating web. Token: None" /\
    confirmation_table (snd res) = ∅.
Proof.
  cbn zeta. eexists. split; [vm_compute; reflexivity|].
  split; [reflexivity|]. split; [reflexivity|]. split; [reflexivity|].
  vm_compute. reflexivity.
Qed.

(** *** Logging is best effort *)

Lemma log_action_same_effects (env1 env2 : Env) (action : string) (parameters : value)
    (status : string) (result : value) (error user_query user_email : option string)
    (w : World) :
  same_effects
    (snd (log_action env1 action parameters status result error user_query user_email w))
    (snd (log_action env2 action parameters status result error user_query user_email w)).
Proof.
  destruct (log_action_frame env1 action parameters status result error user_query user_email w)
    as (A1 & B1 & C1).
  destruct (log_action_frame env2 action parameters status result error user_query user_email w)
    as (A2 & B2 & C2).
  repeat split; congruence.
Qed.

Lemma then_return_same (env1 env2 : Env) (action : string) (parameters : value)
    (status : string) (result : value) (error user_query user_email : option string)
    (r : outcome) (w : World) :
  same_outcome
    ((do log_action env1 action parameters status result error user_query user_email
      then ret r) w)
    ((do log_action env2 action parameters status result error user_query user_email
      then ret r) w).
Proof.
  unfold bind, ret.
  pose proof (log_action_same_effects env1 env2 action parameters status result error
                user_query user_email w) as H.
  destruct (log_action env1 _ _ _ _ _ _ _ w), (log_action env2 _ _ _ _ _ _ _ w).
  split; [reflexivity | exact H].
Qed.

Lemma same_outcome_refl (a : outcome * World) : same_outcome a a.
Proof. repeat split. Qed.

Lemma bind_same {A : Type} (m : M A) (k1 k2 : A -> M outcome) (w : World) :
  (forall x w1, same_outcome (k1 x w1) (k2 x w1)) ->
  same_outcome (bind m k1 w) (bind m k2 w).
Proof. intros H. unfold bind. destruct (m w) as [x w1]. apply H. Qed.

Lemma terminate_confirmed_log_faults (env : Env) (faults : nat -> option string)
    (instance_id : string) (instance : Instance) (token : value) (w : World) :
  same_outcome
    (terminate_confirmed (with_log_faults env faults) instance_id instance token w)
    (terminate_confirmed (with_log_faults env no_log_faults) instance_id instance token w).
Proof.
  unfold terminate_confirmed.
  destruct (truthy token); cbn [negb].
  - apply (bind_same (verify_confirmation_token env token)). intros tv w1.
    destruct (truthy (item "valid" tv)); cbn [negb]; [|apply same_outcome_refl].
    apply (bind_same (call_ec2 (TerminateInstances instance_id))). intros _ w2.
    cbn [terminate_instances with_log_faults].
    destruct (terminate_instances env instance_id); apply then_return_same.
  - apply (bind_same (generate_confirmation_token env "terminate_instance"
                        (VDict [("instance_id", VStr instance_id)]))).
    intros tok w1. apply then_return_same.
Qed.

Lemma terminate_log_faults (env : Env) (faults : nat -> option string)
    (instance_id : string) (token skip_backup : value) (w : World) :
  same_outcome
    (terminate_ec2_instance (with_log_faults env faults) instance_id token skip_backup w)
    (terminate_ec2_instance (with_log_faults env no_log_faults) instance_id token skip_backup w).
Proof.
  unfold terminate_ec2_instance. cbn [describe_instances with_log_faults].
  destruct (describe_instances env instance_id) as [e|[|instance rest]].
  - apply then_return_same.
  - apply same_outcome_refl.
  - change (check_ami_backup_status (with_log_faults env faults))
      with (check_ami_backup_status (with_log_faults env no_log_faults)).
    destruct (negb (truthy skip_backup)); [|apply terminate_confirmed_log_faults].
    destruct (truthy (item "success" _) && _)%bool;
      [apply then_return_same | apply terminate_confirmed_log_faults].
Qed.

Lemma delete_log_faults (env : Env) (faults : nat -> option string)
    (volume_id : string) (token : value) (w : World) :
  same_outcome
    (delete_ebs_volume (with_log_faults env faults) volume_id token w)
    (delete_ebs_volume (with_log_faults env no_log_faults) volume_id token w).
Proof.
  unfold delete_ebs_volume. cbn [describe_volumes with_log_faults].
  destruct (describe_volumes env volume_id) as [e|[|volume rest]].
  - apply then_return_same.
  - apply same_outcome_refl.
  - destruct (Attachments volume); [|apply same_outcome_refl].
    destruct (truthy token); cbn [negb].
    + apply (bind_same (verify_confirmation_token env token)). intros tv w1.
      destruct (truthy (item "valid" tv)); cbn [negb]; [|apply same_outcome_refl].
      apply (bind_same (call_ec2 (DeleteVolume volume_id))). intros _ w2.
      cbn [delete_volume with_log_faults].
      destruct (delete_volume env volume_id); apply then_return_same.
    + apply (bind_same (generate_confirmation_token env "delete_volume"
                          (VDict [("volume_id", VStr volume_id)]))).
      intros tok w1. apply then_return_same.
Qed.

Lemma process_log_faults (env : Env) (faults : nat -> option string)
    (action : string) (parameters : pydict) (w : World) :
  same_outcome
    (process_ec2_action (with_log_faults env faults) action parameters w)
    (process_ec2_action (with_log_faults env no_log_faults) action parameters w).
Proof.
  unfold process_ec2_action. cbn [other_handler with_log_faults].
  repeat match goal with
  | |- same_outcome ((if String.eqb ?a ?b then _ else _) _) _ =>
      destruct (String.eqb a b)
  | |- same_outcome ((if kwargs_ok ?a ?b ?c then _ else _) _) _ =>
      destruct (kwargs_ok a b c)
  | |- same_outcome ((match dict_get ?a ?b ?c with _ => _ end) _) _ =>
      destruct (dict_get a b c)
  end;
  first [apply same_outcome_refl | apply terminate_log_faults | apply delete_log_faults].
Qed.

(** Claim C10. A failing write to the audit table never aborts or changes
    an outcome: [log_action] returns logged false and prints a diagnostic,
    and the handlers and the dispatcher give the same result, the same
    token table and the same EC2 calls as with a log table that takes
    every item. *)
Theorem audit_failure_never_changes_the_outcome (env : Env) (faults : nat -> option string)
    (w : World) :
  (forall action parameters status result error user_query user_email e,
     faults (log_seq w) = Some e ->
     log_action (with_log_faults env faults) action parameters status result error
       user_query user_email w =
     (VDict [("logged", VBool false); ("error", VStr e)],
      mkWorld (confirmation_table w) (action_log_table w) (S (log_seq w)) (ec2_calls w)
              (stdout w ++ ["Error logging action: " ++ e]))) /\
  (forall instance_id token skip_backup,
     same_outcome
       (terminate_ec2_instance (with_log_faults env faults) instance_id token skip_backup w)
       (terminate_ec2_instance (with_log_faults env no_log_faults) instance_id token
          skip_backup w)) /\
  (forall volume_id token,
     same_outcome
       (delete_ebs_volume (with_log_faults env faults) volume_id token w)
       (delete_ebs_volume (with_log_faults env no_log_faults) volume_id token w)) /\
  (forall action parameters,
     same_outcome
       (process_ec2_action (with_log_faults env faults) action parameters w)
       (process_ec2_action (with_log_faults env no_log_faults) action parameters w)).
Proof.
  split; [|split; [|split]].
  - intros action parameters status result error user_query user_email e He.
    unfold log_action. run. cbn [log_put_item_raises with_log_faults].
    rewrite He. reflexivity.
  - intros. apply terminate_log_faults.
  - intros. apply delete_log_faults.
  - intros. apply process_log_faults.
Qed.

(** *** Unknown actions *)

(** Claim C9, amended. A request whose lower-cased action name is not
    supported is answered with the unknown-action error before any guard
    runs, and nothing is touched: no token, no backend call, and no audit
    record either. *)
Theorem unknown_action_is_rejected_untouched (env : Env) (action : string)
    (parameters : pydict) (w : World) :
  ~ In (lower action) supported_actions ->
  process_ec2_action env action parameters w =
  (Returned (failure ("Unknown action: " ++ lower action)), w).
Proof.
  intros H. unfold process_ec2_action.
  repeat match goal with
  | |- (if String.eqb ?a ?b then _ else _) _ = _ =>
      destruct (String.eqb_spec a b) as [E|_];
        [exfalso; apply H; rewrite E; cbn; tauto|]
  end.
  reflexivity.
Qed.

(** *** Budget guard *)

Lemma price_get_unknown (pricing : list (string * Q)) (instance_type : string) :
  (forall c, ~ In (instance_type, c) pricing) -> price_get pricing instance_type = 0%Q.
Proof.
  intros H. induction pricing as [|[k c] rest IH]; [reflexivity|]. cbn.
  destruct (String.eqb_spec instance_type k) as [->|_].
  - exfalso. apply (H c). now left.
  - apply IH. intros c' Hin. apply (H c'). now right.
Qed.

(** Claim C8. The budget guard reports the hourly cost of the class from
    the price table (0 for an unknown class) and 730 times it as monthly
    cost, and allows exactly when the hourly cost is at most the hourly
    ceiling; so an unknown class is allowed under a ceiling that is not
    negative, and hourly cost 0.20 against ceiling 0.10 is refused with
    monthly cost 146. *)
Theorem budget_guard_compares_the_hourly_cost (pricing : list (string * Q)) (env : Env)
    (instance_type : string) :
  let d := check_budget_limits pricing env instance_type in
  hourly_cost d = price_get pricing instance_type /\
  monthly_cost d = (hourly_cost d * 730)%Q /\
  (allowed d = true <-> (hourly_cost d <= MAX_INSTANCE_COST_PER_HOUR env)%Q) /\
  ((forall c, ~ In (instance_type, c) pricing) ->
     hourly_cost d = 0%Q /\
     ((0 <= MAX_INSTANCE_COST_PER_HOUR env)%Q -> allowed d = true)) /\
  ((hourly_cost d == 0.20)%Q -> (MAX_INSTANCE_COST_PER_HOUR env == 0.10)%Q ->
     allowed d = false /\ (monthly_cost d == 146.00)%Q).
Proof.
  cbn zeta. unfold check_budget_limits, Qgtb.
  destruct (Qle_bool (price_get pricing instance_type) (MAX_INSTANCE_COST_PER_HOUR env))
    eqn:Hle; cbn [negb allowed hourly_cost monthly_cost].
  - apply Qle_bool_iff in Hle.
    split; [reflexivity|]. split; [reflexivity|]. split; [tauto|]. split.
    + intros Hu. split; [now apply price_get_unknown | reflexivity].
    + intros Hh Hm. exfalso. rewrite Hh, Hm in Hle. revert Hle. unfold Qle. cbn. lia.
  - assert (Hn : ~ (price_get pricing instance_type <= MAX_INSTANCE_COST_PER_HOUR env)%Q).
    { intros H. apply Qle_bool_iff in H. congruence. }
    split; [reflexivity|]. split; [reflexivity|]. split; [|split].
    + split; [discriminate | intros H; contradiction].
    + intros Hu. split; [now apply price_get_unknown|].
      intros H0. exfalso. apply Hn. now rewrite (price_get_unknown _ _ Hu).
    + intros Hh _. split; [reflexivity|]. rewrite Hh. reflexivity.
Qed.

(** *** Tokens are not bound to the request, and can collide *)

(** Claim C1, on the code as it is: a token issued for terminating [i-1]
    is accepted for terminating [i-2], and so is a token issued for
    deleting a volume; in both runs [terminate_instances] is called for
    [i-2] and the answer is a success. The callers never compare the
    action and the parameters that verification returns. *)
Theorem token_is_accepted_for_another_request :
  let env := demo_env (inr []) demo_clock in
  let first := terminate_ec2_instance env "i-1" VNone (VBool true) demo_world in
  let second :=
    terminate_ec2_instance env "i-2" (confirmation_token_of first) (VBool true) (snd first) in
  let first' := delete_ebs_volume env "vol-1" VNone demo_world in
  let second' :=
    terminate_ec2_instance env "i-2" (confirmation_token_of first') (VBool true) (snd first') in
  (exists it, confirmation_table (snd first) !! "CE8462E4B3EC" = Some it /\
              tk_action it = "terminate_instance" /\
              json_loads (tk_parameters it) = Some (terminate_parameters "i-1")) /\
  confirmation_token_of first = VStr "CE8462E4B3EC" /\
  item "success" (match fst second with Returned v => v | Raised _ => VNone end) = VBool true /\
  ec2_calls (snd second) = [TerminateInstances "i-2"] /\
  (exists it, confirmation_table (snd first') !! str_value (confirmation_token_of first') = Some it /\
              tk_action it = "delete_volume") /\
  item "success" (match fst second' with Returned v => v | Raised _ => VNone end) = VBool true /\
  ec2_calls (snd second') = [TerminateInstances "i-2"].
Proof.
  cbn zeta. split; [|split; [|split; [|split; [|split; [|split]]]]].
  - eexists. split; [vm_compute; reflexivity|]. split; vm_compute; reflexivity.
  - vm_compute; reflexivity.
  - vm_compute; reflexivity.
  - vm_compute; reflexivity.
  - eexists. split; [vm_compute; reflexivity|]. vm_compute; reflexivity.
  - vm_compute; reflexivity.
  - vm_compute; reflexivity.
Qed.

(** What [terminate_confirmed] does with a token that is stored, readable
    and not expired: it never looks at the action or the parameters the
    token was issued for. *)
Lemma terminate_confirmed_valid_token (env : Env) (instance_id : string)
    (instance : Instance) (t : string) (it : TokenItem) (state : string) (w : World) :
  t <> EmptyString ->
  confirmation_table w !! t = Some it ->
  parses it ->
  float_int (time_time env) <= tk_expires_at it ->
  token_get_item_raises env = None ->
  token_delete_item_raises env = None ->
  terminate_instances env instance_id = inr state ->
  terminate_confirmed env instance_id instance (VStr t) w =
  (Returned (VDict
     [("success", VBool true);
      ("instance_id", VStr instance_id);
      ("instance_name", VStr (name_tag (InstanceTags instance)));
      ("state", VStr state);
      ("message", VStr ("Instance " ++ instance_id ++ " termination initiated"))]),
   snd (log_action env "terminate_instance" (terminate_parameters instance_id) "success"
          VNone None None None
          (mkWorld (delete t (confirmation_table w)) (action_log_table w) (log_seq w)
                   (ec2_calls w ++ [TerminateInstances instance_id]) (stdout w)))).
Proof.
  intros Ht Hit Hp Hlive Hget Hdel Hterm.
  destruct (verify_stored env w t it Hit Hget Hdel Hp) as (r & E & Hr).
  destruct Hr as [[Hexp _] | [_ (p & _ & ->)]].
  { apply Z.gtb_lt in Hexp. lia. }
  unfold terminate_confirmed.
  destruct t as [|c t']; [congruence|]. cbn [truthy negb].
  unfold bind at 1. rewrite E.
  change (negb (truthy (item "valid" (valid_answer it p)))) with false. cbv iota.
  unfold bind, ret, call_ec2. rewrite Hterm. unfold terminate_parameters.
  cbn [confirmation_table action_log_table log_seq ec2_calls stdout].
  destruct (log_action _ _ _ _ _ _ _ _ _). reflexivity.
Qed.

Lemma stored_token_authorizes_any_termination (env : Env) (instance_id : string)
    (instance : Instance) (t : string) (it : TokenItem) (state : string) (w : World) :
  t <> EmptyString ->
  confirmation_table w !! t = Some it ->
  parses it ->
  float_int (time_time env) <= tk_expires_at it ->
  token_get_item_raises env = None ->
  token_delete_item_raises env = None ->
  terminate_instances env instance_id = inr state ->
  let res := terminate_confirmed env instance_id instance (VStr t) w in
  (exists v, fst res = Returned v /\ item "success" v = VBool true) /\
  ec2_calls (snd res) = (ec2_calls w ++ [TerminateInstances instance_id])%list /\
  confirmation_table (snd res) !! t = None.
Proof.
  intros Ht Hit Hp Hlive Hget Hdel Hterm. cbn zeta.
  rewrite (terminate_confirmed_valid_token env instance_id instance t it state w)
    by assumption.
  cbn [fst snd].
  match goal with |- context [log_action ?a ?b ?c ?d ?e ?f ?g ?h ?w] =>
    destruct (log_action_frame a b c d e f g h w) as (Hc & Hcalls & _) end.
  cbn [confirmation_table ec2_calls] in *.
  split; [eexists; split; reflexivity|]. split; [exact Hcalls|].
  rewrite Hc. apply lookup_delete_eq.
Qed.

(** Claim C7, on the code as it is: tokens are not unique per issuance.
    Two issuances for two different instances at the same clock reading
    get the same token, 2A5B45A05069: the token is 48 bits of a digest of
    the action, the parameters and the clock reading, with no random
    input. *)
Lemma distinct_issuances_share_a_token :
  ~ (forall a1 p1 t1 a2 p2 t2,
       (a1, p1, t1) <> (a2, p2, t2) -> token_of a1 p1 t1 <> token_of a2 p2 t2).
Proof.
  intros H.
  apply (H "terminate_instance" (terminate_parameters "i-00000d27c3fb47ac5") demo_clock
           "terminate_instance" (terminate_parameters "i-00000908e9b5ef2cf") demo_clock).
  - intros E. discriminate E.
  - vm_compute. reflexivity.
Qed.

(** What an issuance computes and stores: the token is the first twelve
    hexadecimal digits, in upper case, of the SHA-256 digest of the
    action, the JSON text of the parameters and the clock reading, a
    function of these three alone. It is stored, bound to the action and
    the parameters, with an expiry 300 seconds after issuance, and no
    other item changes. *)
Lemma issued_token_is_a_truncated_digest (env : Env) (action : string)
    (parameters : value) (w : World) :
  token_put_item_raises env = None ->
  let res := generate_confirmation_token env action parameters w in
  let token :=
    upper (take_str 12 (Sha256.hexdigest (Sha256.encode
      (action ++ ":" ++ json_dumps parameters ++ ":" ++ float_str (time_time env))))) in
  fst res = VStr token /\
  String.length token = 12%nat /\
  (exists it,
     confirmation_table (snd res) !! token = Some it /\
     tk_action it = action /\
     json_loads (tk_parameters it) = Some parameters /\
     tk_expires_at it = float_int (time_time env) + 300 /\
     tk_ttl it = float_int (time_time env) + 300) /\
  (forall t, t <> token -> confirmation_table (snd res) !! t = confirmation_table w !! t) /\
  ec2_calls (snd res) = ec2_calls w.
Proof.
  intros Hput. cbn zeta. rewrite (generate_ok env action parameters w Hput).
  cbn [fst snd confirmation_table ec2_calls].
  fold (token_of action parameters (time_time env)).
  split; [reflexivity|]. split; [apply token_length|]. split; [|split; [|reflexivity]].
  - exists (issued_item env action parameters).
    split; [apply lookup_insert_eq|]. cbn. rewrite json_loads_dumps. auto.
  - intros t Ht. apply lookup_insert_ne. congruence.
Qed.

(** Claim C9 fails as stated: the rejection of an unknown action writes
    no audit record. *)
Lemma unknown_action_writes_no_audit_record :
  let res := process_ec2_action (demo_env (inr []) demo_clock) "frobnicate" [] demo_world in
  fst res = Returned (failure "Unknown action: frobnicate") /\
  ~ (exists it, In it (action_log_table (snd res)) /\ lg_status it = "failed").
Proof.
  cbn zeta. split; [vm_compute; reflexivity|].
  intros (it & Hin & _). vm_compute in Hin. exact Hin.
Qed.

(** *** An invariant of the token table *)

Create HintDb store discriminated.

Lemma preserves_ret {A : Type} (x : A) : preserves (ret x).
Proof. intros w H. exact H. Qed.

Lemma preserves_bind {A B : Type} (m : M A) (k : A -> M B) :
  preserves m -> (forall x, preserves (k x)) -> preserves (bind m k).
Proof.
  intros Hm Hk w H. unfold bind. specialize (Hm w H).
  destruct (m w) as [x w1]. cbn [snd] in Hm. now apply Hk.
Qed.

Lemma preserves_frame {A : Type} (m : M A) :
  (forall w, confirmation_table (snd (m w)) = confirmation_table w) -> preserves m.
Proof. intros Hm w H t it Hit. rewrite Hm in Hit. now apply (H t). Qed.

Lemma preserves_print (line : string) : preserves (print line).
Proof. now apply preserves_frame. Qed.

Lemma preserves_call_ec2 (c : Ec2Call) : preserves (call_ec2 c).
Proof. now apply preserves_frame. Qed.

Lemma preserves_delete_token (t : string) : preserves (delete_token t).
Proof.
  intros w H t' it Hit. cbn in Hit.
  apply lookup_delete_Some in Hit as [_ Hit]. now apply (H t').
Qed.

Lemma preserves_put_token (t : string) (it : TokenItem) :
  parses it -> preserves (put_token t it).
Proof.
  intros Hp w H t' it' Hit. cbn in Hit.
  apply lookup_insert_Some in Hit as [[_ <-] | [_ Hit]]; [exact Hp | now apply (H t')].
Qed.

Lemma preserves_log_action (env : Env) (action : string) (parameters : value)
    (status : string) (result : value) (error user_query user_email : option string) :
  preserves (log_action env action parameters status result error user_query user_email).
Proof.
  apply preserves_frame. intros w.
  apply (log_action_frame env action parameters status result error user_query user_email w).
Qed.

Lemma preserves_generate (env : Env) (action : string) (parameters : value) :
  preserves (generate_confirmation_token env action parameters).
Proof.
  unfold generate_confirmation_token.
  destruct (token_put_item_raises env).
  - apply preserves_bind; [apply preserves_print | intros; apply preserves_ret].
  - apply preserves_bind; [|intros; apply preserves_ret].
    apply preserves_put_token. exists parameters. reflexivity.
Qed.

Lemma preserves_verify (env : Env) (token : value) :
  preserves (verify_confirmation_token env token).
Proof.
  unfold verify_confirmation_token.
  destruct (token_get_item_raises env); [apply preserves_ret|].
  destruct token; try apply preserves_ret.
  apply preserves_bind; [now apply preserves_frame|]. intros [it|]; [|apply preserves_ret].
  destruct (_ >? _).
  - destruct (token_delete_item_raises env); [apply preserves_ret|].
    apply preserves_bind; [apply preserves_delete_token | intros; apply preserves_ret].
  - destruct (json_loads _); [|apply preserves_ret].
    destruct (token_delete_item_raises env); [apply preserves_ret|].
    apply preserves_bind; [apply preserves_delete_token | intros; apply preserves_ret].
Qed.

#[local] Hint Resolve preserves_ret preserves_log_action preserves_generate
  preserves_verify preserves_call_ec2 : store.

Ltac preserve :=
  repeat first
    [ apply preserves_bind; [solve [auto with store] | intros]
    | solve [auto with store]
    | match goal with |- preserves (if ?b then _ else _) => destruct b end
    | match goal with |- preserves (match ?x with _ => _ end) => destruct x end ].

Lemma preserves_terminate_confirmed (env : Env) (instance_id : string) (instance : Instance)
    (token : value) :
  preserves (terminate_confirmed env instance_id instance token).
Proof. unfold terminate_confirmed. preserve. Qed.

Lemma preserves_terminate (env : Env) (instance_id : string) (token skip_backup : value) :
  preserves (terminate_ec2_instance env instance_id token skip_backup).
Proof.
  unfold terminate_ec2_instance.
  destruct (describe_instances env instance_id) as [e|[|instance rest]];
    [preserve..|].
  destruct (negb (truthy skip_backup)); [|apply preserves_terminate_confirmed].
  destruct (_ && _)%bool; [preserve | apply preserves_terminate_confirmed].
Qed.

Lemma preserves_delete (env : Env) (volume_id : string) (token : value) :
  preserves (delete_ebs_volume env volume_id token).
Proof. unfold delete_ebs_volume. preserve. Qed.

Lemma store_wf_empty (log : list LogItem) (seq : nat) (calls : list Ec2Call)
    (out : list string) :
  store_wf (mkWorld ∅ log seq calls out).
Proof. intros t it H. cbn in H. now rewrite lookup_empty in H. Qed.

(** *** The theorems at concrete inputs *)

Lemma issued_item_parses (env : Env) (action : string) (parameters : value) :
  parses (issued_item env action parameters).
Proof. exists parameters. reflexivity. Qed.

Lemma irreversible_action_without_token_asks_confirmation_witness :
  asks_confirmation (demo_env (inr [old_image; fresh_image]) demo_clock)
    "terminate_instance" (terminate_parameters "i-1") demo_world
    (terminate_ec2_instance (demo_env (inr [old_image; fresh_image]) demo_clock)
       "i-1" VNone (VBool false) demo_world) /\
  asks_confirmation throttled_env "delete_volume" (delete_parameters "vol-1") demo_world
    (delete_ebs_volume throttled_env "vol-1" (VStr EmptyString) demo_world).
Proof.
  split.
  - apply (proj1 (irreversible_action_without_token_asks_confirmation
                    (demo_env (inr [old_image; fresh_image]) demo_clock) demo_world)
             "i-1" VNone (VBool false)
             (mkInstance "i-1" "t3.micro" "running" [("Name", "web")]) []).
    + reflexivity.
    + right. right. exists [old_image; fresh_image], fresh_image.
      split; [reflexivity|]. split; [right; left; reflexivity|].
      unfold recent_image. vm_compute. reflexivity.
    + reflexivity.
  - apply (proj2 (irreversible_action_without_token_asks_confirmation throttled_env
                    demo_world)
             "vol-1" (VStr EmptyString) (mkVolume "vol-1" []) []); reflexivity.
Defined.

Lemma verification_consumes_the_token_witness :
  confirmation_table issued_world !! "CE8462E4B3EC" =
    Some (issued_item issuing_env "terminate_instance" (terminate_parameters "i-1")) /\
  confirmation_table
    (snd (verify_confirmation_token issuing_env (VStr "CE8462E4B3EC") issued_world))
    !! "CE8462E4B3EC" = None /\
  verify_confirmation_token issuing_env (VStr "CE8462E4B3EC")
    (snd (verify_confirmation_token issuing_env (VStr "CE8462E4B3EC") issued_world)) =
  (not_found_answer,
   snd (verify_confirmation_token issuing_env (VStr "CE8462E4B3EC") issued_world)).
Proof.
  assert (H : confirmation_table issued_world !! "CE8462E4B3EC" =
              Some (issued_item issuing_env "terminate_instance" (terminate_parameters "i-1")))
    by (vm_compute; reflexivity).
  split; [exact H|].
  destruct (verification_consumes_the_token issuing_env issuing_env issued_world
              "CE8462E4B3EC" _ H) as (_ & _ & Hagain & Hused).
  specialize (Hused (issued_item_parses _ _ _) eq_refl eq_refl).
  destruct (Hagain Hused) as (_ & Hnf).
  split; [rewrite Hused; apply lookup_delete_eq | exact (Hnf eq_refl)].
Defined.

Lemma expired_token_is_never_honored_witness :
  tk_expires_at (issued_item issuing_env "terminate_instance" (terminate_parameters "i-1"))
    < float_int late_clock /\
  verify_confirmation_token (demo_env (inr []) late_clock) (VStr "CE8462E4B3EC")
    issued_world = (expired_answer, without_token "CE8462E4B3EC" issued_world) /\
  exists p,
    verify_confirmation_token (demo_env (inr []) boundary_clock) (VStr "CE8462E4B3EC")
      issued_world =
    (valid_answer (issued_item issuing_env "terminate_instance"
                     (terminate_parameters "i-1")) p,
     without_token "CE8462E4B3EC" issued_world).
Proof.
  assert (H : confirmation_table issued_world !! "CE8462E4B3EC" =
              Some (issued_item issuing_env "terminate_instance" (terminate_parameters "i-1")))
    by (vm_compute; reflexivity).
  assert (L : tk_expires_at (issued_item issuing_env "terminate_instance"
                               (terminate_parameters "i-1")) < float_int late_clock)
    by (vm_compute; reflexivity).
  split; [exact L|]. split.
  - exact (proj2 (proj1 (expired_token_is_never_honored (demo_env (inr []) late_clock)
                           issued_world "CE8462E4B3EC" _ H) L)).
  - destruct (proj1 (proj2 (expired_token_is_never_honored
                              (demo_env (inr []) boundary_clock) issued_world
                              "CE8462E4B3EC" _ H)))
      as (p & _ & E);
      [vm_compute; discriminate | apply issued_item_parses | reflexivity | reflexivity |].
    exists p. exact E.
Defined.

Lemma backup_gate_ignores_the_token_witness :
  (exists v,
     fst (terminate_ec2_instance (demo_env (inr [old_image]) demo_clock) "i-1"
            (VStr "CE8462E4B3EC") (VBool false) issued_world) = Returned v /\
     item "requires_confirmation" v = VBool true /\
     item "recommendation" v = VStr "Run: 'Create AMI backup for i-1'") /\
  ec2_calls (snd (terminate_ec2_instance (demo_env (inr [old_image]) demo_clock) "i-1"
                    (VStr "CE8462E4B3EC") (VBool false) issued_world)) = [] /\
  confirmation_table
    (snd (terminate_ec2_instance (demo_env (inr [old_image]) demo_clock) "i-1"
            (VStr "CE8462E4B3EC") (VBool false) issued_world)) =
  confirmation_table issued_world.
Proof.
  destruct (backup_gate_ignores_the_token (demo_env (inr [old_image]) demo_clock)
              "i-1" (VStr "CE8462E4B3EC") (VBool false)
              (mkInstance "i-1" "t3.micro" "running" [("Name", "web")]) []
              issued_world eq_refl)
    as [([Hs | [(e & He) | (images & image & Himg & Hin & Hrec)]] & _)
       | (_ & _ & (v & Hr & _ & Hq & _ & _ & Hrecm) & Hc & Ht & _)].
  - discriminate Hs.
  - discriminate He.
  - injection Himg as <-. destruct Hin as [<-|[]].
    unfold recent_image in Hrec. vm_compute in Hrec. discriminate Hrec.
  - split; [exists v; auto|]. split; [exact Hc | exact Ht].
Defined.

Lemma backup_gate_fails_open_witness :
  check_ami_backup_status (demo_env (inl "UnauthorizedOperation") demo_clock) "i-1" =
    failure "UnauthorizedOperation" /\
  terminate_ec2_instance (demo_env (inl "UnauthorizedOperation") demo_clock) "i-1"
    VNone (VBool false) demo_world =
  terminate_confirmed (demo_env (inl "UnauthorizedOperation") demo_clock) "i-1"
    (mkInstance "i-1" "t3.micro" "running" [("Name", "web")]) VNone demo_world.
Proof.
  exact (backup_gate_fails_open (demo_env (inl "UnauthorizedOperation") demo_clock) "i-1"
           VNone (VBool false) (mkInstance "i-1" "t3.micro" "running" [("Name", "web")]) []
           "UnauthorizedOperation" demo_world eq_refl eq_refl).
Defined.

Lemma budget_guard_compares_the_hourly_cost_witness :
  allowed (check_budget_limits [("x1.demo", 0.20%Q)] issuing_env "x1.demo") = false /\
  (monthly_cost (check_budget_limits [("x1.demo", 0.20%Q)] issuing_env "x1.demo") == 146.00)%Q /\
  allowed (check_budget_limits INSTANCE_PRICING issuing_env "unknown.type") = true.
Proof.
  pose proof (budget_guard_compares_the_hourly_cost [("x1.demo", 0.20%Q)] issuing_env "x1.demo")
    as (_ & _ & _ & _ & Hex).
  pose proof (budget_guard_compares_the_hourly_cost INSTANCE_PRICING issuing_env "unknown.type")
    as (_ & _ & _ & Hun & _).
  destruct (Hex ltac:(reflexivity) ltac:(reflexivity)) as [Ha Hm].
  split; [exact Ha|]. split; [exact Hm|].
  refine (proj2 (Hun _) _).
  - intros c Hin. vm_compute in Hin. intuition discriminate.
  - vm_compute. discriminate.
Defined.

Lemma unknown_action_is_rejected_untouched_witness :
  process_ec2_action issuing_env "Frobnicate" [("instance_id", VStr "i-1")] issued_world =
  (Returned (failure "Unknown action: frobnicate"), issued_world).
Proof.
  apply (unknown_action_is_rejected_untouched issuing_env "Frobnicate").
  vm_compute. intuition discriminate.
Defined.

Lemma audit_failure_never_changes_the_outcome_witness :
  fst (log_action (with_log_faults issuing_env failing_log) "terminate_instance"
         (terminate_parameters "i-1") "success" VNone None None None demo_world) =
    VDict [("logged", VBool false); ("error", VStr "ProvisionedThroughputExceeded")] /\
  same_outcome
    (terminate_ec2_instance (with_log_faults issuing_env failing_log) "i-1"
       (VStr "CE8462E4B3EC") (VBool true) issued_world)
    (terminate_ec2_instance (with_log_faults issuing_env no_log_faults) "i-1"
       (VStr "CE8462E4B3EC") (VBool true) issued_world).
Proof.
  split.
  - rewrite (proj1 (audit_failure_never_changes_the_outcome issuing_env failing_log demo_world)
               "terminate_instance" (terminate_parameters "i-1") "success" VNone None None None
               "ProvisionedThroughputExceeded" eq_refl).
    reflexivity.
  - apply (proj1 (proj2 (audit_failure_never_changes_the_outcome issuing_env failing_log
                           issued_world))).
Defined.

(** ** Further properties of the guards and the handlers *)

(** *** When a token is honoured *)

Lemma verify_valid_inv (env : Env) (token : value) (w : World) :
  truthy (item "valid" (fst (verify_confirmation_token env token w))) = true ->
  exists t it p,
    token = VStr t /\
    confirmation_table w !! t = Some it /\
    float_int (time_time env) <= tk_expires_at it /\
    json_loads (tk_parameters it) = Some p /\
    verify_confirmation_token env token w = (valid_answer it p, without_token t w).
Proof.
  unfold verify_confirmation_token.
  destruct (token_get_item_raises env); [discriminate|].
  destruct token as [| | |t| |]; try discriminate.
  unfold bind, ret, get_token, delete_token.
  destruct (confirmation_table w !! t) as [it|] eqn:Hit; [|discriminate].
  destruct (_ >? _) eqn:Hexp.
  - destruct (token_delete_item_raises env); discriminate.
  - destruct (json_loads _) as [p|] eqn:Hp; [|discriminate].
    destruct (token_delete_item_raises env); [discriminate|].
    intros _. exists t, it, p. repeat split; auto.
    destruct (Z.gtb_spec (float_int (time_time env)) (tk_expires_at it)); [discriminate|lia].
Qed.

Lemma verify_invalid_keeps_calls (env : Env) (token : value) (w : World) :
  ec2_calls (snd (verify_confirmation_token env token w)) = ec2_calls w /\
  action_log_table (snd (verify_confirmation_token env token w)) = action_log_table w /\
  log_seq (snd (verify_confirmation_token env token w)) = log_seq w.
Proof.
  unfold verify_confirmation_token.
  destruct (token_get_item_raises env); [auto|].
  destruct token; auto.
  unfold bind, ret, get_token, delete_token.
  destruct (confirmation_table w !! s); auto.
  destruct (_ >? _); [destruct (token_delete_item_raises env); auto|].
  destruct (json_loads _); auto.
  destruct (token_delete_item_raises env); auto.
Qed.

Lemma generate_keeps_calls (env : Env) (action : string) (parameters : value) (w : World) :
  ec2_calls (snd (generate_confirmation_token env action parameters w)) = ec2_calls w.
Proof.
  unfold generate_confirmation_token.
  destruct (token_put_item_raises env); reflexivity.
Qed.

(** The calls and the token table after [do log_action ... then ret r]. *)
Lemma logged_return (env : Env) (action : string) (parameters : value) (status : string)
    (result : value) (error : option string) (r : outcome) (w : World) :
  let res := (do log_action env action parameters status result error None None
              then ret r) w in
  fst res = r /\
  ec2_calls (snd res) = ec2_calls w /\
  confirmation_table (snd res) = confirmation_table w.
Proof.
  cbn zeta. unfold bind, ret.
  destruct (log_action_frame env action parameters status result error None None w)
    as (Ht & Hc & _).
  destruct (log_action env action parameters status result error None None w).
  cbn [fst snd] in *. auto.
Qed.

Lemma bind_eq {A B : Type} (m : M A) (k : A -> M B) (w w1 : World) (x : A) :
  m w = (x, w1) -> bind m k w = k x w1.
Proof. intros E. unfold bind. now rewrite E. Qed.

Lemma bind_call_ec2 {B : Type} (c : Ec2Call) (k : unit -> M B) (w : World) :
  bind (call_ec2 c) k w =
  k tt (mkWorld (confirmation_table w) (action_log_table w) (log_seq w)
                (ec2_calls w ++ [c]) (stdout w)).
Proof. reflexivity. Qed.

Lemma terminate_confirmed_calls (env : Env) (instance_id : string) (instance : Instance)
    (token : value) (w : World) :
  let res := terminate_confirmed env instance_id instance token w in
  ec2_calls (snd res) = ec2_calls w \/
  (ec2_calls (snd res) = (ec2_calls w ++ [TerminateInstances instance_id])%list /\
   exists t, live_token env w token t /\ confirmation_table (snd res) !! t = None).
Proof.
  cbn zeta. unfold terminate_confirmed.
  destruct (truthy token); cbn [negb].
  - destruct (truthy (item "valid" (fst (verify_confirmation_token env token w)))) eqn:Hv.
    + destruct (verify_valid_inv env token w Hv) as (t & it & p & -> & Hit & Hlive & _ & E).
      rewrite (bind_eq _ _ _ _ _ E).
      change (negb (truthy (item "valid" (valid_answer it p)))) with false. cbv iota.
      rewrite bind_call_ec2.
      right.
      destruct (terminate_instances env instance_id) as [e|state];
        match goal with |- context [(do log_action ?e ?a ?p ?s ?r ?er None None then ret ?x) ?w0] =>
          destruct (logged_return e a p s r er x w0) as (_ & Hc & Ht) end;
        rewrite Hc, Ht; cbn [ec2_calls confirmation_table without_token];
        (split; [reflexivity|]); exists t; (split; [|apply lookup_delete_eq]);
        (split; [reflexivity|]); exists it; auto.
    + destruct (verify_invalid_keeps_calls env token w) as (Hc & _).
      destruct (verify_confirmation_token env token w) as [tv w1] eqn:E.
      cbn [fst snd] in *. rewrite (bind_eq _ _ _ _ _ E), Hv. cbn [negb]. left. exact Hc.
  - left.
    pose proof (generate_keeps_calls env "terminate_instance"
                  (VDict [("instance_id", VStr instance_id)]) w) as Hg.
    destruct (generate_confirmation_token _ _ _ w) as [tok w1] eqn:E. cbn [snd] in Hg.
    rewrite (bind_eq _ _ _ _ _ E).
    match goal with |- context [(do log_action ?e ?a ?p ?s ?r ?er None None then ret ?x) ?w0] =>
      destruct (logged_return e a p s r er x w0) as (_ & Hc & _) end.
    now rewrite Hc.
Qed.

Lemma gate_open_inv (env : Env) (instance_id : string) :
  (truthy (item "success" (check_ami_backup_status env instance_id))
   && negb (truthy (get "has_recent_backup" (VBool false)
                      (check_ami_backup_status env instance_id))))%bool = false ->
  (exists e, describe_images env instance_id = inl e) \/
  (exists images image, describe_images env instance_id = inr images /\
                        In image images /\ recent_image env image).
Proof.
  intros H.
  destruct (describe_images env instance_id) as [e|images] eqn:Himg; [left; eauto|].
  right. destruct (recent_or_stale env images) as [(im & Hin & Hr) | Hstale].
  - exists images, im. auto.
  - destruct (backup_status_stale env instance_id images Himg Hstale) as [Hok Hrec].
    rewrite Hok, Hrec in H. discriminate H.
Qed.

(** X1: [terminate_instances] is called at most once and only for the
    requested instance, and only after the backup gate has let the
    request pass and a stored, unexpired token has been consumed. *)
Theorem termination_needs_gate_and_token (env : Env) (instance_id : string)
    (token skip_backup : value) (w : World) :
  let res := terminate_ec2_instance env instance_id token skip_backup w in
  ec2_calls (snd res) = ec2_calls w \/
  (ec2_calls (snd res) = (ec2_calls w ++ [TerminateInstances instance_id])%list /\
   (exists instance rest, describe_instances env instance_id = inr (instance :: rest)) /\
   backup_gate_passed env instance_id skip_backup /\
   exists t, live_token env w token t /\ confirmation_table (snd res) !! t = None).
Proof.
  cbn zeta. unfold terminate_ec2_instance.
  destruct (describe_instances env instance_id) as [e|[|instance rest]] eqn:Hd.
  - left.
    match goal with |- context [(do log_action ?e ?a ?p ?s ?r ?er None None then ret ?x) ?w0] =>
      destruct (logged_return e a p s r er x w0) as (_ & Hc & _) end.
    exact Hc.
  - left. reflexivity.
  - destruct (truthy skip_backup) eqn:Hs; cbn [negb].
    + destruct (terminate_confirmed_calls env instance_id instance token w) as [H | (H & Ht)];
        [left; exact H | right].
      split; [exact H|]. split; [eauto|]. split; [left; exact Hs | exact Ht].
    + destruct (truthy (item "success" _) && _)%bool eqn:Hgate.
      * left.
        match goal with |- context [(do log_action ?e ?a ?p ?s ?r ?er None None then ret ?x) ?w0] =>
          destruct (logged_return e a p s r er x w0) as (_ & Hc & _) end.
        exact Hc.
      * destruct (terminate_confirmed_calls env instance_id instance token w) as [H | (H & Ht)];
          [left; exact H | right].
        split; [exact H|]. split; [eauto|]. split; [|exact Ht].
        right. now apply gate_open_inv.
Qed.

(** X2: [delete_volume] is called at most once and only for the requested
    volume, and only when the volume is reported without attachments and
    a stored, unexpired token has been consumed. *)
Theorem deletion_needs_detached_volume_and_token (env : Env) (volume_id : string)
    (token : value) (w : World) :
  let res := delete_ebs_volume env volume_id token w in
  ec2_calls (snd res) = ec2_calls w \/
  (ec2_calls (snd res) = (ec2_calls w ++ [DeleteVolume volume_id])%list /\
   (exists volume rest, describe_volumes env volume_id = inr (volume :: rest) /\
                        Attachments volume = []) /\
   exists t, live_token env w token t /\ confirmation_table (snd res) !! t = None).
Proof.
  cbn zeta. unfold delete_ebs_volume.
  destruct (describe_volumes env volume_id) as [e|[|volume rest]] eqn:Hd.
  - left.
    match goal with |- context [(do log_action ?e ?a ?p ?s ?r ?er None None then ret ?x) ?w0] =>
      destruct (logged_return e a p s r er x w0) as (_ & Hc & _) end.
    exact Hc.
  - left. reflexivity.
  - destruct (Attachments volume) eqn:Ha; [|left; reflexivity].
    destruct (truthy token); cbn [negb].
    + destruct (truthy (item "valid" (fst (verify_confirmation_token env token w)))) eqn:Hv.
      * destruct (verify_valid_inv env token w Hv) as (t & it & p & -> & Hit & Hlive & _ & E).
        rewrite (bind_eq _ _ _ _ _ E).
        change (negb (truthy (item "valid" (valid_answer it p)))) with false. cbv iota.
        rewrite bind_call_ec2.
        right.
        destruct (delete_volume env volume_id) as [e|[]];
          match goal with |- context [(do log_action ?e ?a ?p ?s ?r ?er None None then ret ?x) ?w0] =>
            destruct (logged_return e a p s r er x w0) as (_ & Hc & Ht) end;
          rewrite Hc, Ht; cbn [ec2_calls confirmation_table without_token];
          (split; [reflexivity|]); (split; [eauto|]);
          exists t; (split; [|apply lookup_delete_eq]);
          (split; [reflexivity|]); exists it; auto.
      * destruct (verify_invalid_keeps_calls env token w) as (Hc & _).
        destruct (verify_confirmation_token env token w) as [tv w1] eqn:E.
        cbn [fst snd] in *. rewrite (bind_eq _ _ _ _ _ E), Hv. cbn [negb]. left. exact Hc.
    + left.
      pose proof (generate_keeps_calls env "delete_volume"
                    (VDict [("volume_id", VStr volume_id)]) w) as Hg.
      destruct (generate_confirmation_token _ _ _ w) as [tok w1] eqn:E. cbn [snd] in Hg.
      rewrite (bind_eq _ _ _ _ _ E).
      match goal with |- context [(do log_action ?e ?a ?p ?s ?r ?er None None then ret ?x) ?w0] =>
        destruct (logged_return e a p s r er x w0) as (_ & Hc & _) end.
      now rewrite Hc.
Qed.

(** X3: a token lives for the issuance second plus 300, boundary included:
    verified up to then it returns the action and the parameters given at
    issuance, verified later it is expired; in both cases the item is
    deleted. *)
Theorem issued_token_lifetime (env0 env : Env) (action : string) (parameters : value)
    (w0 : World) :
  token_put_item_raises env0 = None ->
  token_get_item_raises env = None ->
  token_delete_item_raises env = None ->
  let token := token_of action parameters (time_time env0) in
  let w := snd (generate_confirmation_token env0 action parameters w0) in
  (float_int (time_time env) <= float_int (time_time env0) + 300 ->
   verify_confirmation_token env (VStr token) w =
   (VDict [("valid", VBool true); ("action", VStr action); ("parameters", parameters)],
    without_token token w)) /\
  (float_int (time_time env0) + 300 < float_int (time_time env) ->
   verify_confirmation_token env (VStr token) w = (expired_answer, without_token token w)).
Proof.
  intros Hput Hget Hdel. cbn zeta.
  rewrite (generate_ok env0 action parameters w0 Hput). cbn [snd].
  set (w := mkWorld _ _ _ _ _).
  assert (Hit : confirmation_table w !! token_of action parameters (time_time env0)
                = Some (issued_item env0 action parameters)) by apply lookup_insert_eq.
  destruct (verify_stored env w _ _ Hit Hget Hdel (issued_item_parses _ _ _))
    as (r & E & Hr).
  fold (without_token (token_of action parameters (time_time env0)) w) in E.
  rewrite E. cbn [tk_expires_at issued_item] in Hr.
  split; intros Ht.
  - destruct Hr as [[Hexp _] | [_ (p & Hp & ->)]].
    + apply Z.gtb_lt in Hexp. lia.
    + cbn [tk_parameters issued_item] in Hp.
      assert (p = parameters).
      { assert (H : json_loads (json_dumps p) = json_loads (json_dumps parameters))
          by now rewrite Hp.
        rewrite !json_loads_dumps in H. congruence. }
      subst p. reflexivity.
  - destruct Hr as [[_ ->] | [Hexp _]]; [reflexivity|].
    destruct (Z.gtb_spec (float_int (time_time env)) (float_int (time_time env0) + 300));
      [discriminate | lia].
Qed.

(** X4: a token that is not in the table is refused with the invalid-token
    error and nothing changes: no call, no token, and no audit record of
    the refusal either. *)
Theorem unknown_token_changes_nothing (env : Env) (t : string) (w : World) :
  t <> EmptyString ->
  confirmation_table w !! t = None ->
  token_get_item_raises env = None ->
  (forall instance_id skip_backup instance rest,
     describe_instances env instance_id = inr (instance :: rest) ->
     backup_gate_passed env instance_id skip_backup ->
     terminate_ec2_instance env instance_id (VStr t) skip_backup w =
     (Returned (failure "Invalid confirmation token"), w)) /\
  (forall volume_id volume rest,
     describe_volumes env volume_id = inr (volume :: rest) ->
     Attachments volume = [] ->
     delete_ebs_volume env volume_id (VStr t) w =
     (Returned (failure "Invalid confirmation token"), w)).
Proof.
  intros Ht Hno Hget.
  pose proof (verify_absent env w t Hno Hget) as E.
  assert (Htruthy : truthy (VStr t) = true) by (destruct t; [congruence | reflexivity]).
  split.
  - intros instance_id skip_backup instance rest Hd Hgate.
    rewrite (passed_gate_reaches_confirmation env instance_id (VStr t) skip_backup
               instance rest w Hd Hgate).
    unfold terminate_confirmed. rewrite Htruthy. cbn [negb].
    rewrite (bind_eq _ _ _ _ _ E). reflexivity.
  - intros volume_id volume rest Hd Ha.
    unfold delete_ebs_volume. rewrite Hd, Ha, Htruthy. cbn [negb].
    rewrite (bind_eq _ _ _ _ _ E). reflexivity.
Qed.

Lemma log_action_log (env : Env) (action : string) (parameters : value) (status : string)
    (result : value) (error user_query user_email : option string) (w : World) :
  action_log_table
    (snd (log_action env action parameters status result error user_query user_email w)) =
  (action_log_table w ++
   appended env w (log_record env (log_seq w) action parameters status result error
                     user_query user_email))%list.
Proof.
  unfold log_action, appended, bind, ret, next_log_seq, put_log, print.
  cbn [log_seq action_log_table fst snd].
  destruct (log_put_item_raises env (log_seq w)); cbn; [now rewrite app_nil_r | reflexivity].
Qed.

Lemma logged_return_log (env : Env) (action : string) (parameters : value) (status : string)
    (result : value) (error : option string) (r : outcome) (w : World) :
  action_log_table
    (snd ((do log_action env action parameters status result error None None
           then ret r) w)) =
  (action_log_table w ++
   appended env w (log_record env (log_seq w) action parameters status result error
                     None None))%list.
Proof.
  unfold bind, ret.
  pose proof (log_action_log env action parameters status result error None None w) as H.
  destruct (log_action env action parameters status result error None None w).
  exact H.
Qed.

(** X5: when the backend refuses the termination after the token has been
    verified, the answer carries the backend error, the call was made, and
    the token is consumed all the same: a retry needs a new token. *)
Theorem failed_termination_consumes_the_token (env : Env) (instance_id : string)
    (skip_backup : value) (instance : Instance) (rest : list Instance) (t : string)
    (it : TokenItem) (e : string) (w : World) :
  describe_instances env instance_id = inr (instance :: rest) ->
  backup_gate_passed env instance_id skip_backup ->
  t <> EmptyString ->
  confirmation_table w !! t = Some it ->
  parses it ->
  float_int (time_time env) <= tk_expires_at it ->
  token_get_item_raises env = None ->
  token_delete_item_raises env = None ->
  terminate_instances env instance_id = inl e ->
  let res := terminate_ec2_instance env instance_id (VStr t) skip_backup w in
  fst res = Returned (failure e) /\
  ec2_calls (snd res) = (ec2_calls w ++ [TerminateInstances instance_id])%list /\
  confirmation_table (snd res) !! t = None /\
  action_log_table (snd res) =
    (action_log_table w ++
     appended env w (log_record env (log_seq w) "terminate_instance"
                       (terminate_parameters instance_id) "failed" VNone (Some e)
                       None None))%list.
Proof.
  intros Hd Hgate Ht Hit Hp Hlive Hget Hdel Hterm. cbn zeta.
  rewrite (passed_gate_reaches_confirmation env instance_id (VStr t) skip_backup
             instance rest w Hd Hgate).
  destruct (verify_stored env w t it Hit Hget Hdel Hp) as (r & E & Hr).
  destruct Hr as [[Hexp _] | [_ (p & _ & ->)]].
  { apply Z.gtb_lt in Hexp. lia. }
  unfold terminate_confirmed.
  destruct t as [|c t']; [congruence|]. cbn [truthy negb].
  rewrite (bind_eq _ _ _ _ _ E).
  change (negb (truthy (item "valid" (valid_answer it p)))) with false. cbv iota.
  rewrite bind_call_ec2, Hterm.
  match goal with |- context [(do log_action ?e ?a ?p ?s ?r ?er None None then ret ?x) ?w0] =>
    destruct (logged_return e a p s r er x w0) as (Hr & Hc & Htab);
    pose proof (logged_return_log e a p s r er x w0) as Hw end.
  cbn [ec2_calls confirmation_table log_seq action_log_table] in *.
  split; [exact Hr|]. split; [exact Hc|]. split; [rewrite Htab; apply lookup_delete_eq|].
  exact Hw.
Qed.

Lemma generate_keeps_log (env : Env) (action : string) (parameters : value) (w : World) :
  action_log_table (snd (generate_confirmation_token env action parameters w))
    = action_log_table w /\
  log_seq (snd (generate_confirmation_token env action parameters w)) = log_seq w.
Proof.
  unfold generate_confirmation_token.
  destruct (token_put_item_raises env); split; reflexivity.
Qed.

Lemma logged_return_step (env : Env) (action : string) (parameters : value)
    (status : string) (result : value) (error : option string) (r : outcome)
    (w w1 : World) :
  In status ["failed"; "requires_confirmation"; "success"] ->
  action_log_table w1 = action_log_table w ->
  log_seq w1 = log_seq w ->
  audit_step env action parameters w
    (snd ((do log_action env action parameters status result error None None
           then ret r) w1)).
Proof.
  intros Hs Hl Hq. unfold audit_step.
  rewrite logged_return_log, Hl, Hq. unfold appended. rewrite Hq.
  destruct (log_put_item_raises env (log_seq w)).
  - left. now rewrite app_nil_r.
  - right. exists status, result, error. auto.
Qed.

Ltac audit_tail :=
  match goal with
  | |- audit_step _ _ _ ?w (snd ((do log_action _ _ _ _ _ _ None None then ret _) _)) =>
      apply logged_return_step; cbn; auto 6
  | |- audit_step _ _ _ ?w (snd (ret _ ?w)) => left; reflexivity
  end.

Lemma terminate_confirmed_audit (env : Env) (instance_id : string) (instance : Instance)
    (token : value) (w : World) :
  audit_step env "terminate_instance" (terminate_parameters instance_id) w
    (snd (terminate_confirmed env instance_id instance token w)).
Proof.
  unfold terminate_confirmed, terminate_parameters.
  destruct (truthy token); cbn [negb].
  - destruct (verify_invalid_keeps_calls env token w) as (_ & Hl & Hq).
    destruct (verify_confirmation_token env token w) as [tv w1] eqn:E.
    cbn [snd] in Hl, Hq. rewrite (bind_eq _ _ _ _ _ E).
    destruct (truthy (item "valid" tv)); cbn [negb]; [|left; exact Hl].
    rewrite bind_call_ec2.
    destruct (terminate_instances env instance_id); audit_tail.
  - destruct (generate_keeps_log env "terminate_instance"
                (VDict [("instance_id", VStr instance_id)]) w) as (Hl & Hq).
    destruct (generate_confirmation_token _ _ _ w) as [tok w1] eqn:E.
    cbn [snd] in Hl, Hq. rewrite (bind_eq _ _ _ _ _ E). audit_tail.
Qed.

(** X6: a handler call leaves the earlier audit records as they are and
    appends at most one record; the record carries the action of the
    handler, the identifier as only parameter, and no caller: its
    user_email is always anonymous. *)
Theorem handlers_append_at_most_one_record (env : Env) (w : World) :
  (forall instance_id token skip_backup,
     audit_step env "terminate_instance" (terminate_parameters instance_id) w
       (snd (terminate_ec2_instance env instance_id token skip_backup w))) /\
  (forall volume_id token,
     audit_step env "delete_volume" (delete_parameters volume_id) w
       (snd (delete_ebs_volume env volume_id token w))).
Proof.
  split.
  - intros instance_id token skip_backup. unfold terminate_ec2_instance.
    fold (terminate_parameters instance_id).
    destruct (describe_instances env instance_id) as [e|[|instance rest]];
      [audit_tail | audit_tail |].
    destruct (negb (truthy skip_backup)); [|apply terminate_confirmed_audit].
    destruct (_ && _)%bool; [audit_tail | apply terminate_confirmed_audit].
  - intros volume_id token. unfold delete_ebs_volume.
    fold (delete_parameters volume_id).
    destruct (describe_volumes env volume_id) as [e|[|volume rest]];
      [audit_tail | audit_tail |].
    destruct (Attachments volume); [|audit_tail].
    destruct (truthy token); cbn [negb].
    + destruct (verify_invalid_keeps_calls env token w) as (_ & Hl & Hq).
      destruct (verify_confirmation_token env token w) as [tv w1] eqn:E.
      cbn [snd] in Hl, Hq. rewrite (bind_eq _ _ _ _ _ E).
      destruct (truthy (item "valid" tv)); cbn [negb]; [|left; exact Hl].
      rewrite bind_call_ec2.
      destruct (delete_volume env volume_id); audit_tail.
    + destruct (generate_keeps_log env "delete_volume"
                  (VDict [("volume_id", VStr volume_id)]) w) as (Hl & Hq).
      destruct (generate_confirmation_token _ _ _ w) as [tok w1] eqn:E.
      cbn [snd] in Hl, Hq. rewrite (bind_eq _ _ _ _ _ E). audit_tail.
Qed.

(** *** The image list and the backup status *)

Lemma ltb_lt (x y : string) : String.ltb x y = true <-> String_as_OT.lt x y.
Proof.
  unfold String.ltb. rewrite <- String_as_OT.cmp_lt. unfold String_as_OT.cmp.
  destruct (String.compare x y); split; congruence.
Qed.

Lemma ltb_asym (x y : string) : String.ltb x y = true -> String.ltb y x = false.
Proof.
  unfold String.ltb. rewrite (String.compare_antisym y x).
  destruct (String.compare x y); cbn; congruence.
Qed.

Lemma ltb_false_inv (x y : string) :
  String.ltb x y = false -> x = y \/ String.ltb y x = true.
Proof.
  unfold String.ltb. rewrite (String.compare_antisym y x).
  destruct (String.compare x y) eqn:E; cbn; try congruence; intros _.
  - left. now apply String.compare_eq_iff.
  - now right.
Qed.

Section sort_desc.
Context {A : Type} (key : A -> string).

Lemma before_trans : Relations_1.Transitive (not_before_by key).
Proof.
  intros a b c. unfold not_before_by. intros Hxy Hyz.
  destruct (String.ltb (key a) (key c)) eqn:Hxz; [|reflexivity]. exfalso.
  destruct (ltb_false_inv _ _ Hxy) as [E | Hyx].
  - rewrite E in Hxz. congruence.
  - apply ltb_lt in Hyx, Hxz.
    pose proof (String_as_OT.lt_trans _ _ _ Hyx Hxz) as H. apply ltb_lt in H. congruence.
Qed.

Lemma insert_desc_sorted (x : A) (l : list A) :
  Sorted (not_before_by key) l -> Sorted (not_before_by key) (insert_desc key x l).
Proof.
  induction l as [|y l IH]; intros Hs; cbn [insert_desc].
  - repeat constructor.
  - destruct (String.ltb (key x) (key y)) eqn:E.
    + inversion Hs as [|? ? Hl Hhd]; subst. constructor; [now apply IH|].
      destruct l as [|z l]; cbn [insert_desc].
      * constructor. now apply ltb_asym.
      * inversion Hhd; subst.
        destruct (String.ltb (key x) (key z));
          constructor; [assumption | now apply ltb_asym].
    + constructor; [exact Hs | constructor; exact E].
Qed.

Lemma sort_desc_sorted (l : list A) : StronglySorted (not_before_by key) (sort_desc key l).
Proof.
  apply Sorted_StronglySorted; [apply before_trans|].
  induction l as [|x l IH]; cbn; [constructor | now apply insert_desc_sorted].
Qed.

Lemma insert_desc_perm (x : A) (l : list A) : Permutation (insert_desc key x l) (x :: l).
Proof.
  induction l as [|y l IH]; cbn [insert_desc]; [reflexivity|].
  destruct (String.ltb _ _); [|reflexivity].
  rewrite IH. apply perm_swap.
Qed.

Lemma sort_desc_perm (l : list A) : Permutation (sort_desc key l) l.
Proof.
  induction l as [|x l IH]; cbn; [reflexivity|].
  rewrite insert_desc_perm. now constructor.
Qed.

End sort_desc.

Lemma insert_newest_desc (x : Image * value) (l : list (Image * value)) :
  insert_newest x l = insert_desc (fun a => CreationDate (fst a)) x l.
Proof.
  induction l as [|y l IH]; cbn [insert_newest insert_desc]; [reflexivity|].
  now rewrite IH.
Qed.

Lemma sort_newest_desc (l : list (Image * value)) :
  sort_newest l = sort_desc (fun a => CreationDate (fst a)) l.
Proof.
  induction l as [|x l IH]; cbn; [reflexivity|].
  rewrite insert_newest_desc. unfold sort_newest in IH. now rewrite IH.
Qed.

Lemma sort_newest_perm (l : list (Image * value)) : Permutation (sort_newest l) l.
Proof. rewrite sort_newest_desc. apply sort_desc_perm. Qed.

Lemma sort_newest_sorted (l : list (Image * value)) :
  StronglySorted not_older (sort_newest l).
Proof.
  rewrite sort_newest_desc.
  exact (sort_desc_sorted (fun a : Image * value => CreationDate (fst a)) l).
Qed.

(** The list behind the answer of [list_instance_amis]. *)
Lemma listed_amis (env : Env) (instance_id : string) (images : list Image) :
  describe_images env instance_id = inr images ->
  exists amis,
    list_instance_amis_raw env instance_id = inr amis /\
    Permutation amis (map ami_info images) /\
    StronglySorted not_older amis.
Proof.
  intros H. exists (sort_newest (map ami_info images)).
  unfold list_instance_amis_raw. rewrite H.
  split; [reflexivity|]. split; [apply sort_newest_perm | apply sort_newest_sorted].
Qed.

(** X7: the images of an instance are listed newest first: the list is a
    rearrangement of what the backend returned, every entry is not older
    than all entries after it, and count is the number of images. *)
Theorem amis_are_listed_newest_first (env : Env) (instance_id : string)
    (images : list Image) :
  describe_images env instance_id = inr images ->
  exists amis,
    list_instance_amis_raw env instance_id = inr amis /\
    Permutation amis (map ami_info images) /\
    StronglySorted not_older amis /\
    list_instance_amis env instance_id =
      VDict [("success", VBool true);
             ("amis", VList (map snd amis));
             ("count", VInt (Z.of_nat (length images)))].
Proof.
  intros H. exists (sort_newest (map ami_info images)).
  unfold list_instance_amis, list_instance_amis_raw. rewrite H.
  split; [reflexivity|]. split; [apply sort_newest_perm|].
  split; [apply sort_newest_sorted|].
  rewrite (Permutation_length (sort_newest_perm _)), length_map. reflexivity.
Qed.

Lemma StronglySorted_filter {A : Type} (R : A -> A -> Prop) (f : A -> bool) (l : list A) :
  StronglySorted R l -> StronglySorted R (List.filter f l).
Proof.
  induction 1 as [|x l Hl IH Hx]; cbn; [constructor|].
  destruct (f x); [|exact IH]. constructor; [exact IH|].
  rewrite List.Forall_forall in *. intros y Hy. apply filter_In in Hy as [Hy _]. now apply Hx.
Qed.

Lemma head_not_older (a : Image * value) (l : list (Image * value)) (b : Image * value) :
  StronglySorted not_older (a :: l) -> In b (a :: l) -> not_older a b.
Proof.
  intros Hs [<-|Hb].
  - unfold not_older, String.ltb.
    destruct (String.compare _ _) eqn:E; try reflexivity.
    pose proof (String.compare_antisym (CreationDate (fst a)) (CreationDate (fst a))) as H.
    rewrite E in H. discriminate H.
  - inversion Hs as [|? ? _ Hall]; subst. rewrite List.Forall_forall in Hall. now apply Hall.
Qed.

Lemma filter_recent_amis (env : Env) (images : list Image) :
  List.filter (is_recent env) (map ami_info images) =
  map ami_info (List.filter (recent_imageb env) images).
Proof.
  induction images as [|x l IH]; [reflexivity|]. cbn [map List.filter].
  change (is_recent env (ami_info x)) with (recent_imageb env x).
  destruct (recent_imageb env x); cbn [map]; now rewrite IH.
Qed.

Lemma filter_perm {A : Type} (f : A -> bool) (l l' : list A) :
  Permutation l l' -> Permutation (List.filter f l) (List.filter f l').
Proof.
  induction 1 as [|x l l' _ IH|x y l|l l' l'' _ IH1 _ IH2]; cbn.
  - reflexivity.
  - destruct (f x); [now constructor | exact IH].
  - destruct (f x), (f y); try reflexivity. apply perm_swap.
  - etransitivity; eassumption.
Qed.

Lemma filter_nil_existsb {A : Type} (f : A -> bool) (l : list A) :
  List.filter f l = [] <-> existsb f l = false.
Proof.
  induction l as [|x l IH]; cbn; [tauto|].
  destruct (f x); cbn; [split; discriminate | exact IH].
Qed.


(** X8: for an image list that the backend returns, the backup status
    reports success, whether there is any image, and whether one of them is
    younger than seven days; its latest_ami is one of the candidates (the
    recent images if there are any, all images otherwise) and is not older
    than any candidate. Without images the status has no has_recent_backup
    key at all. *)
Theorem backup_status_reports_the_newest_image (env : Env) (instance_id : string)
    (images : list Image) :
  describe_images env instance_id = inr images ->
  let status := check_ami_backup_status env instance_id in
  item "success" status = VBool true /\
  item "has_backup" status = VBool (match images with [] => false | _ => true end) /\
  get "has_recent_backup" (VBool false) status = VBool (existsb (recent_imageb env) images) /\
  match images with
  | [] => item "has_recent_backup" status = VNone /\ item "latest_ami" status = VNone
  | _ :: _ =>
      exists image,
        In image (latest_candidates env images) /\
        item "latest_ami" status = snd (ami_info image) /\
        forall other, In other (latest_candidates env images) ->
                      String.ltb (CreationDate image) (CreationDate other) = false
  end.
Proof.
  intros Himg. cbn zeta.
  destruct (listed_amis env instance_id images Himg) as (amis & Hraw & Hperm & Hsorted).
  unfold check_ami_backup_status. rewrite Hraw.
  destruct images as [|im0 images'].
  { apply Permutation_sym, Permutation_nil in Hperm. subst amis. repeat split. }
  set (images := im0 :: images') in *.
  destruct amis as [|first others].
  { apply Permutation_nil in Hperm. unfold images in Hperm. discriminate Hperm. }
  assert (Hrec : Permutation (List.filter (is_recent env) (first :: others))
                   (map ami_info (List.filter (recent_imageb env) images))).
  { rewrite <- filter_recent_amis. now apply filter_perm. }
  unfold latest_candidates.
  destruct (List.filter (is_recent env) (first :: others)) as [|latest more] eqn:Ef.
  - assert (Hnone : existsb (recent_imageb env) images = false).
    { apply filter_nil_existsb.
      apply Permutation_nil in Hrec. now destruct (List.filter _ images). }
    rewrite Hnone. do 3 (split; [reflexivity|]).
    assert (Hfirst : In first (map ami_info images))
      by (eapply Permutation_in; [exact Hperm | now left]).
    apply in_map_iff in Hfirst as (image & <- & Hin).
    exists image. split; [exact Hin|]. split; [reflexivity|].
    intros other Ho.
    apply (head_not_older (ami_info image) others (ami_info other) Hsorted).
    eapply Permutation_in; [symmetry; exact Hperm | now apply in_map].
  - assert (Hsome : existsb (recent_imageb env) images = true).
    { destruct (existsb (recent_imageb env) images) eqn:E; [reflexivity|].
      apply filter_nil_existsb in E. rewrite E in Hrec.
      apply Permutation_sym, Permutation_nil in Hrec. discriminate Hrec. }
    rewrite Hsome. do 3 (split; [reflexivity|]).
    assert (Hlatest : In latest (map ami_info (List.filter (recent_imageb env) images)))
      by (eapply Permutation_in; [exact Hrec | now left]).
    apply in_map_iff in Hlatest as (image & <- & Hin).
    exists image. split; [exact Hin|]. split; [reflexivity|].
    intros other Ho.
    assert (Hs : StronglySorted not_older (ami_info image :: more)).
    { rewrite <- Ef. now apply StronglySorted_filter. }
    apply (head_not_older (ami_info image) more (ami_info other) Hs).
    eapply Permutation_in; [symmetry; exact Hrec | now apply in_map].
Qed.

(** *** Budget guard on the price table of the source *)

Lemma listed_price_bound (instance_type : string) :
  (price_get INSTANCE_PRICING instance_type <= 0.768)%Q.
Proof.
  unfold INSTANCE_PRICING. cbn [price_get].
  repeat match goal with
  | |- context [String.eqb instance_type ?k] => destruct (String.eqb instance_type k)
  end; unfold Qle; cbn; lia.
Qed.

Lemma allowed_iff (pricing : list (string * Q)) (env : Env) (instance_type : string) :
  allowed (check_budget_limits pricing env instance_type) = true <->
  (price_get pricing instance_type <= MAX_INSTANCE_COST_PER_HOUR env)%Q.
Proof.
  unfold check_budget_limits, Qgtb. rewrite <- Qle_bool_iff.
  destruct (Qle_bool _ _); cbn; split; congruence.
Qed.

(** X9: with the price table of the source the budget guard refuses some
    instance type exactly when the hourly ceiling is below 0.768, the
    price of m5.4xlarge; under the default ceiling of 1.0 it refuses
    nothing. *)
Theorem budget_guard_threshold (env : Env) :
  (exists instance_type,
     allowed (check_budget_limits INSTANCE_PRICING env instance_type) = false) <->
  (MAX_INSTANCE_COST_PER_HOUR env < 0.768)%Q.
Proof.
  split.
  - intros (ty & H). apply Qnot_le_lt. intros Hle.
    assert (Ha : allowed (check_budget_limits INSTANCE_PRICING env ty) = true).
    { apply allowed_iff. eapply Qle_trans; [apply listed_price_bound | exact Hle]. }
    congruence.
  - intros Hlt. exists "m5.4xlarge".
    destruct (allowed (check_budget_limits INSTANCE_PRICING env "m5.4xlarge")) eqn:E;
      [|reflexivity].
    exfalso. apply (Qlt_not_le _ _ Hlt). apply allowed_iff in E. exact E.
Qed.

(** *** Dispatch *)

Lemma kwargs_missing (names required : list string) (parameters : pydict) (k : string) :
  In k required -> dict_lookup k parameters = None ->
  kwargs_ok names required parameters = false.
Proof.
  intros Hin Hno. unfold kwargs_ok. apply andb_false_iff. right.
  destruct (forallb _ required) eqn:E; [|reflexivity].
  rewrite forallb_forall in E. specialize (E k Hin). unfold dict_mem in E.
  now rewrite Hno in E.
Qed.

Lemma kwargs_unexpected (names required : list string) (parameters : pydict)
    (k : string) (v : value) :
  In (k, v) parameters -> ~ In k names ->
  kwargs_ok names required parameters = false.
Proof.
  intros Hin Hno. unfold kwargs_ok. apply andb_false_iff. left.
  destruct (forallb _ parameters) eqn:E; [|reflexivity].
  rewrite forallb_forall in E. specialize (E (k, v) Hin). cbn [fst] in E.
  apply existsb_exists in E as (n & Hn & Heq). apply String.eqb_eq in Heq. now subst.
Qed.

(** X10: a termination request without instance_id, or with a parameter
    that [terminate_ec2_instance] does not have, raises TypeError out of
    the dispatcher instead of returning an error; nothing is changed. The
    same holds for a volume deletion without volume_id. *)
Theorem malformed_parameters_raise (env : Env) (parameters : pydict) (w : World) :
  (dict_lookup "instance_id" parameters = None \/
   (exists k v, In (k, v) parameters /\
                ~ In k ["instance_id"; "confirmation_token"; "skip_backup"]) ->
   process_ec2_action env "terminate_instance" parameters w = (Raised "TypeError", w)) /\
  (dict_lookup "volume_id" parameters = None \/
   (exists k v, In (k, v) parameters /\ ~ In k ["volume_id"; "confirmation_token"]) ->
   process_ec2_action env "delete_volume" parameters w = (Raised "TypeError", w)).
Proof.
  split; intros H.
  - assert (E : kwargs_ok ["instance_id"; "confirmation_token"; "skip_backup"]
                  ["instance_id"] parameters = false).
    { destruct H as [H | (k & v & Hin & Hno)].
      - apply (kwargs_missing _ _ _ "instance_id"); [now left | exact H].
      - now apply (kwargs_unexpected _ _ _ k v). }
    unfold process_ec2_action. cbn [lower smap lower_char]. cbn -[kwargs_ok]. now rewrite E.
  - assert (E : kwargs_ok ["volume_id"; "confirmation_token"] ["volume_id"] parameters
                = false).
    { destruct H as [H | (k & v & Hin & Hno)].
      - apply (kwargs_missing _ _ _ "volume_id"); [now left | exact H].
      - now apply (kwargs_unexpected _ _ _ k v). }
    unfold process_ec2_action. cbn [lower smap lower_char]. cbn -[kwargs_ok]. now rewrite E.
Qed.

(** *** The shape of a token *)

Lemma hex_lower_is_hex (x : Z) :
  is_lower_hex (hex_lower (Z.to_N (x mod 16))) = true.
Proof.
  assert (H : 0 <= x mod 16 < 16) by (apply Z.mod_pos_bound; lia).
  assert (E : exists k, (k < 16)%nat /\ Z.to_N (x mod 16) = N.of_nat k).
  { exists (Z.to_nat (x mod 16)). split; [lia|]. now rewrite Z_nat_N. }
  destruct E as (k & Hk & ->).
  do 16 (destruct k as [|k]; [reflexivity|]). lia.
Qed.

Lemma hex_word_is_hex (n : nat) (x : Z) : all_chars is_lower_hex (Sha256.hex_word n x) = true.
Proof.
  induction n as [|n IH]; [reflexivity|]. cbn [Sha256.hex_word all_chars].
  now rewrite hex_lower_is_hex, IH.
Qed.

Lemma all_chars_app (f : ascii -> bool) (a b : string) :
  all_chars f (a ++ b) = (all_chars f a && all_chars f b)%bool.
Proof.
  induction a as [|c a IH]; [reflexivity|].
  rewrite append_cons. cbn [all_chars]. now rewrite IH, andb_assoc.
Qed.

Lemma all_chars_take (f : ascii -> bool) (n : nat) (s : string) :
  all_chars f s = true -> all_chars f (take_str n s) = true.
Proof.
  revert s. induction n as [|n IH]; intros [|c s] H; try reflexivity.
  cbn in *. apply andb_true_iff in H as [Hc Hs]. now rewrite Hc, IH.
Qed.

Lemma upper_hex_char (c : ascii) : is_lower_hex c = true -> is_upper_hex (upper_char c) = true.
Proof.
  destruct c as [[] [] [] [] [] [] [] []]; intros H;
    first [reflexivity | vm_compute in H; discriminate H].
Qed.

Lemma all_chars_upper (s : string) :
  all_chars is_lower_hex s = true -> all_chars is_upper_hex (upper s) = true.
Proof.
  unfold upper. induction s as [|c s IH]; [reflexivity|]. cbn.
  intros H. apply andb_true_iff in H as [Hc Hs]. now rewrite upper_hex_char, IH.
Qed.

(** X11: every token is a text of exactly twelve upper-case hexadecimal
    digits, whatever the action, the parameters and the time. *)
Theorem token_is_twelve_hex_digits (action : string) (parameters : value) (now : pyfloat) :
  String.length (token_of action parameters now) = 12%nat /\
  all_chars is_upper_hex (token_of action parameters now) = true.
Proof.
  split; [apply token_length|].
  unfold token_of. apply all_chars_upper, all_chars_take.
  unfold Sha256.hexdigest, Sha256.hex_regs.
  rewrite !all_chars_app, !hex_word_is_hex. reflexivity.
Qed.

(** *** The token table stays readable *)

(** X12: the handlers keep the token table readable: if every stored item
    holds parameters that [json_loads] reads back, so does every item
    after a call, and verification of such an item never fails on
    decoding. *)
Theorem handlers_keep_the_table_readable (env : Env) (w : World) :
  store_wf w ->
  (forall instance_id token skip_backup,
     store_wf (snd (terminate_ec2_instance env instance_id token skip_backup w))) /\
  (forall volume_id token,
     store_wf (snd (delete_ebs_volume env volume_id token w))) /\
  (forall t it, confirmation_table w !! t = Some it ->
                exists p, json_loads (tk_parameters it) = Some p).
Proof.
  intros H. split; [|split].
  - intros. now apply preserves_terminate.
  - intros. now apply preserves_delete.
  - intros t it Hit. destruct (H t it Hit) as (p & Hp). exists p.
    rewrite Hp. apply json_loads_dumps.
Qed.

(** *** The larger state *)

Lemma lift_run {A : Type} (m : M A) (c : Cloud) :
  lift m c = (fst (m (core c)), mkCloud (snd (m (core c))) (api_calls c)).
Proof. unfold lift. now destruct (m (core c)). Qed.

Lemma xbind_eq {A B : Type} (m : X A) (k : A -> X B) (c c1 : Cloud) (x : A) :
  m c = (x, c1) -> xbind m k c = k x c1.
Proof. intros E. unfold xbind. now rewrite E. Qed.

Lemma xbind_lift {A B : Type} (m : M A) (k : A -> X B) (c : Cloud) :
  xbind (lift m) k c = k (fst (m (core c))) (mkCloud (snd (m (core c))) (api_calls c)).
Proof. apply xbind_eq, lift_run. Qed.

Lemma xbind_call_api {B : Type} (call : ApiCall) (k : unit -> X B) (c : Cloud) :
  xbind (call_api call) k c = k tt (mkCloud (core c) (api_calls c ++ [call])).
Proof. reflexivity. Qed.

(** What [perform lift (log_action ...) then xret r] leaves behind. *)
Lemma xlogged_return (env : Env) (action : string) (parameters : value) (status : string)
    (result : value) (error user_email : option string) (r : xoutcome) (c : Cloud) :
  let res := (perform lift (log_action env action parameters status result error None user_email)
              then xret r) c in
  fst res = r /\
  api_calls (snd res) = api_calls c /\
  ec2_calls (core (snd res)) = ec2_calls (core c) /\
  confirmation_table (core (snd res)) = confirmation_table (core c) /\
  action_log_table (core (snd res)) =
    (action_log_table (core c) ++
     appended env (core c)
       (log_record env (log_seq (core c)) action parameters status result error None
          user_email))%list.
Proof.
  cbn zeta. rewrite xbind_lift. unfold xret. cbn [fst snd api_calls core].
  destruct (log_action_frame env action parameters status result error None user_email
              (core c)) as (Ht & Hc & _).
  rewrite log_action_log. auto.
Qed.

Ltac xlogged H :=
  match goal with
  | |- context [(perform lift (log_action ?e ?a ?p ?s ?r ?er None ?u) then xret ?x) ?c0] =>
      pose proof (xlogged_return e a p s r er u x c0) as H; cbn zeta in H
  end.

(** X13: [launch_ec2_instance] starts an instance only for a type within
    the ceiling and outside a dry run, with the image and the type of the
    request and one instance; it never touches the confirmation table or
    makes another call. A dry run within the ceiling changes nothing at
    all: it writes no audit record either. *)
Theorem launch_respects_the_ceiling_and_the_dry_run (env : Env) (aws : Aws)
    (ami_id instance_type : string)
    (key_name subnet_id security_group_ids tags dry_run : value) (c : Cloud) :
  let res := launch_ec2_instance env aws ami_id instance_type key_name subnet_id
               security_group_ids tags dry_run c in
  confirmation_table (core (snd res)) = confirmation_table (core c) /\
  ec2_calls (core (snd res)) = ec2_calls (core c) /\
  (api_calls (snd res) = api_calls c \/
   exists params,
     api_calls (snd res) = (api_calls c ++ [RunInstances params])%list /\
     (price_get INSTANCE_PRICING instance_type <= MAX_INSTANCE_COST_PER_HOUR env)%Q /\
     truthy dry_run = false /\
     item "ImageId" params = VStr ami_id /\
     item "InstanceType" params = VStr instance_type /\
     item "MinCount" params = VInt 1 /\
     item "MaxCount" params = VInt 1) /\
  (truthy dry_run = true ->
   (price_get INSTANCE_PRICING instance_type <= MAX_INSTANCE_COST_PER_HOUR env)%Q ->
   snd res = c).
Proof.
  cbn zeta. unfold launch_ec2_instance.
  pose proof (allowed_iff INSTANCE_PRICING env instance_type) as Hal.
  destruct (allowed (check_budget_limits INSTANCE_PRICING env instance_type)) eqn:Ea;
    cbn [negb].
  - assert (Hp : (price_get INSTANCE_PRICING instance_type
                  <= MAX_INSTANCE_COST_PER_HOUR env)%Q) by now apply Hal.
    destruct (truthy dry_run) eqn:Ed.
    + unfold xret. cbn [fst snd]. auto 6.
    + assert (Hdry : true = false -> True) by trivial.
      destruct (if truthy tags then match tags with VDict d => Some d | _ => None end
                else Some []) as [extra_tags|].
      2:{ unfold xret. cbn [snd]. repeat split; auto; discriminate. }
      rewrite xbind_call_api.
      destruct (run_instances aws _) as [e|instance]; xlogged H;
        destruct H as (_ & Hc & He & Ht & _); rewrite Hc, He, Ht;
        cbn [core api_calls]; (repeat split; [..|discriminate]);
        right; eexists; (split; [reflexivity|]); repeat split; auto.
  - xlogged H. destruct H as (_ & Hc & He & Ht & _). rewrite Hc, He, Ht.
    repeat split; auto.
    intros _ Hp. apply Hal in Hp. discriminate.
Qed.

(** X14: a launch of a type over the ceiling is refused with the budget
    error and makes no call; the refusal is written to the audit log as a
    failed launch_instance that names the caller of CURRENT_USER_EMAIL
    (anonymous when that is empty), unless the audit table refuses the
    record. *)
Theorem launch_over_the_ceiling_is_refused_and_audited (env : Env) (aws : Aws)
    (ami_id instance_type : string)
    (key_name subnet_id security_group_ids tags dry_run : value) (c : Cloud) :
  (MAX_INSTANCE_COST_PER_HOUR env < price_get INSTANCE_PRICING instance_type)%Q ->
  let res := launch_ec2_instance env aws ami_id instance_type key_name subnet_id
               security_group_ids tags dry_run c in
  fst res = XReturned (failure "Instance type exceeds budget limit")
              [Budget "details" (check_budget_limits INSTANCE_PRICING env instance_type)] /\
  api_calls (snd res) = api_calls c /\
  action_log_table (core (snd res)) =
    (action_log_table (core c) ++
     appended env (core c)
       (log_record env (log_seq (core c)) "launch_instance"
          (VDict [("instance_type", VStr instance_type)]) "failed" VNone
          (Some "Instance type exceeds budget limit") None
          (Some (CURRENT_USER_EMAIL aws))))%list.
Proof.
  intros Hover. cbn zeta. unfold launch_ec2_instance.
  assert (Ea : allowed (check_budget_limits INSTANCE_PRICING env instance_type) = false).
  { destruct (allowed _) eqn:E; [|reflexivity].
    apply allowed_iff in E. exfalso. apply (Qlt_not_le _ _ Hover E). }
  rewrite Ea. cbn [negb].
  assert (Er : reason (check_budget_limits INSTANCE_PRICING env instance_type)
               = Some "Instance type exceeds budget limit").
  { revert Ea. unfold check_budget_limits. destruct (Qgtb _ _); [reflexivity|discriminate]. }
  rewrite Er. xlogged H. destruct H as (Hr & Hc & _ & _ & Hl).
  rewrite Hr, Hc, Hl. auto.
Qed.

(** X15: an instance type that the price table does not list passes the
    budget guard under every ceiling that is not negative: outside a dry
    run [launch_ec2_instance] calls [run_instances] for it, with the image,
    the type and the tags of the request. *)
Theorem unlisted_type_passes_the_budget_guard (env : Env) (aws : Aws)
    (ami_id instance_type : string) (key_name subnet_id security_group_ids dry_run : value)
    (tags : pydict) (c : Cloud) :
  (forall price, ~ In (instance_type, price) INSTANCE_PRICING) ->
  (0 <= MAX_INSTANCE_COST_PER_HOUR env)%Q ->
  truthy dry_run = false ->
  let res := launch_ec2_instance env aws ami_id instance_type key_name subnet_id
               security_group_ids (VDict tags) dry_run c in
  let params := launch_params env aws ami_id instance_type key_name subnet_id
                  security_group_ids tags in
  api_calls (snd res) = (api_calls c ++ [RunInstances params])%list /\
  (forall instance,
     run_instances aws params = inr instance ->
     exists body,
       fst res = XReturned body
                   [Budget "cost_estimate"
                      (mkBudgetDecision true None 0 None (0 * 730))] /\
       item "success" body = VBool true /\
       item "instance_id" body = VStr (InstanceId instance)).
Proof.
  intros Hun Hmax Hdry. cbn zeta. unfold launch_ec2_instance.
  assert (Hb : check_budget_limits INSTANCE_PRICING env instance_type
               = mkBudgetDecision true None 0 None (0 * 730)).
  { unfold check_budget_limits. rewrite (price_get_unknown _ _ Hun).
    unfold Qgtb. apply Qle_bool_iff in Hmax. rewrite Hmax. reflexivity. }
  rewrite Hb, Hdry. cbn [allowed negb].
  assert (Ht : (if truthy (VDict tags)
                then match VDict tags with VDict d => Some d | _ => None end
                else Some []) = Some tags) by (destruct tags; reflexivity).
  rewrite Ht, xbind_call_api.
  destruct (run_instances aws _) as [e|instance] eqn:Er; xlogged H;
    destruct H as (Hr & Hc & _); rewrite Hr, Hc; cbn [api_calls];
    (split; [reflexivity|]); intros i [= <-].
  eexists. repeat split; reflexivity.
Qed.

(** *** Backups and resizing *)

(** The paths of [create_ami_backup]. *)
Lemma create_ami_backup_paths (env : Env) (aws : Aws) (instance_id : string)
    (ami_name description : option string) (no_reboot : value) (c : Cloud) :
  let res := create_ami_backup env aws instance_id ami_name description no_reboot c in
  confirmation_table (core (snd res)) = confirmation_table (core c) /\
  ec2_calls (core (snd res)) = ec2_calls (core c) /\
  ((exists e, describe_instances env instance_id = inl e /\
              fst res = XReturned (failure e) [] /\
              api_calls (snd res) = api_calls c /\
              action_log_table (core (snd res)) =
                (action_log_table (core c) ++
                 appended env (core c)
                   (log_record env (log_seq (core c)) "create_ami_backup"
                      (VDict [("instance_id", VStr instance_id)]) "failed" VNone (Some e)
                      None None))%list) \/
   (describe_instances env instance_id = inr [] /\
    fst res = XRaised "IndexError" /\ snd res = c) \/
   (exists instance rest,
      describe_instances env instance_id = inr (instance :: rest) /\
      let name := backup_name aws instance ami_name in
      let text := backup_description aws instance_id instance description in
      api_calls (snd res) =
        (api_calls c ++ [CreateImage instance_id name text no_reboot])%list /\
      ((exists e, create_image aws instance_id name text no_reboot = inl e /\
                  fst res = XReturned (failure e) [] /\
                  action_log_table (core (snd res)) =
                    (action_log_table (core c) ++
                     appended env (core c)
                       (log_record env (log_seq (core c)) "create_ami_backup"
                          (VDict [("instance_id", VStr instance_id)]) "failed" VNone
                          (Some e) None None))%list) \/
       (exists ami_id, create_image aws instance_id name text no_reboot = inr ami_id /\
                  (exists body, fst res = XReturned body [] /\
                                item "success" body = VBool true /\
                                item "ami_id" body = VStr ami_id /\
                                item "ami_name" body = VStr name /\
                                item "no_reboot" body = no_reboot) /\
                  action_log_table (core (snd res)) =
                    (action_log_table (core c) ++
                     appended env (core c)
                       (log_record env (log_seq (core c)) "create_ami_backup"
                          (VDict [("instance_id", VStr instance_id)]) "success"
                          (VDict [("ami_id", VStr ami_id); ("ami_name", VStr name)])
                          None None None))%list)))).
Proof.
  cbn zeta. unfold create_ami_backup.
  destruct (describe_instances env instance_id) as [e|[|instance rest]].
  - xlogged H. destruct H as (Hr & Hc & He & Ht & Hl). rewrite Hr, Hc, He, Ht, Hl.
    split; [reflexivity|]. split; [reflexivity|]. left. exists e. auto.
  - unfold xret. cbn [fst snd]. split; [reflexivity|]. split; [reflexivity|].
    right. left. auto.
  - rewrite xbind_call_api. fold (backup_name aws instance ami_name).
    fold (backup_description aws instance_id instance description).
    destruct (create_image aws instance_id _ _ no_reboot) as [e|ami_id] eqn:Ec;
      xlogged H; destruct H as (Hr & Hc & He & Ht & Hl); rewrite Hr, Hc, He, Ht, Hl;
      cbn [core api_calls]; (split; [reflexivity|]); (split; [reflexivity|]);
      right; right; exists instance, rest; (split; [reflexivity|]);
      (split; [reflexivity|]).
    + left. exists e. auto.
    + right. exists ami_id. repeat split; auto.
      eexists; repeat split; reflexivity.
Qed.

(** X16: [create_ami_backup] makes at most one call, [create_image] for the
    instance, and never touches the confirmation table. It answers
    success only when that call returned an image, whose identifier and
    name it reports; the name is the one asked for, or the Name tag of the
    instance (Unknown without one) followed by -backup- and the time. When
    it answers failure the error is audited as a failed create_ami_backup. *)
Theorem backup_succeeds_only_with_a_created_image (env : Env) (aws : Aws)
    (instance_id : string) (ami_name description : option string) (no_reboot : value)
    (c : Cloud) :
  let res := create_ami_backup env aws instance_id ami_name description no_reboot c in
  confirmation_table (core (snd res)) = confirmation_table (core c) /\
  ec2_calls (core (snd res)) = ec2_calls (core c) /\
  (api_calls (snd res) = api_calls c \/
   exists name text,
     api_calls (snd res) =
       (api_calls c ++ [CreateImage instance_id name text no_reboot])%list) /\
  (forall body extras,
     fst res = XReturned body extras ->
     truthy (item "success" body) = true ->
     exists instance rest ami_id,
       describe_instances env instance_id = inr (instance :: rest) /\
       api_calls (snd res) =
         (api_calls c ++
          [CreateImage instance_id (backup_name aws instance ami_name)
             (backup_description aws instance_id instance description) no_reboot])%list /\
       create_image aws instance_id (backup_name aws instance ami_name)
         (backup_description aws instance_id instance description) no_reboot = inr ami_id /\
       item "ami_id" body = VStr ami_id /\
       item "ami_name" body = VStr (backup_name aws instance ami_name)) /\
  (forall body extras,
     fst res = XReturned body extras ->
     truthy (item "success" body) = false ->
     exists e,
       body = failure e /\
       action_log_table (core (snd res)) =
         (action_log_table (core c) ++
          appended env (core c)
            (log_record env (log_seq (core c)) "create_ami_backup"
               (VDict [("instance_id", VStr instance_id)]) "failed" VNone (Some e)
               None None))%list).
Proof.
  cbn zeta.
  destruct (create_ami_backup_paths env aws instance_id ami_name description no_reboot c)
    as (Ht & He & H).
  split; [exact Ht|]. split; [exact He|]. cbn zeta in H.
  destruct H as [(e & Hd & Hr & Hc & Hl) | [(Hd & Hr & Hc) |
    (instance & rest & Hd & Hc & [(e & Hi & Hr & Hl) | (ami & Hi & (b & Hr & Hs & Ha & Hn & _) & Hl)])]];
    rewrite Hr.
  - split; [left; exact Hc|]. split; intros body extras [= <- <-] Hs; [discriminate|].
    exists e. auto.
  - rewrite Hc. split; [left; reflexivity|]. split; intros body extras [=].
  - split; [right; eauto|]. split; intros body extras [= <- <-] Hs; [discriminate|].
    exists e. auto.
  - split; [right; eauto|]. split; intros body extras [= <- <-] Hs'.
    + exists instance, rest, ami. auto.
    + rewrite Hs in Hs'. discriminate.
Qed.

(** The confirmation part of [change_instance_type]. *)
Lemma resize_confirmed_calls (env : Env) (aws : Aws) (instance_id new_instance_type : string)
    (current_type : string) (budget_check : BudgetDecision)
    (token create_backup : value) (c : Cloud) :
  let res := resize_confirmed env aws instance_id new_instance_type current_type
               budget_check token create_backup c in
  ec2_calls (core (snd res)) = ec2_calls (core c) /\
  (api_calls (snd res) = api_calls c \/
   (api_calls (snd res) =
      (api_calls c ++ [ModifyInstanceAttribute instance_id new_instance_type])%list /\
    exists t, live_token env (core c) token t /\
              confirmation_table (core (snd res)) !! t = None)).
Proof.
  cbn zeta. unfold resize_confirmed.
  destruct (truthy token); cbn [negb].
  - rewrite xbind_lift.
    destruct (truthy (item "valid" (fst (verify_confirmation_token env token (core c)))))
      eqn:Hv; cbn [negb].
    + destruct (verify_valid_inv env token (core c) Hv)
        as (t & it & p & -> & Hit & Hlive & _ & E).
      rewrite E. cbn [fst snd]. rewrite xbind_call_api. cbn [core api_calls].
      destruct (modify_instance_attribute aws instance_id new_instance_type);
        xlogged H; destruct H as (_ & Hc & He & Ht & _); rewrite Hc, He, Ht;
        cbn [core api_calls ec2_calls confirmation_table without_token];
        (split; [reflexivity|]); right; (split; [reflexivity|]);
        exists t; (split; [|apply lookup_delete_eq]);
        (split; [reflexivity|]); exists it; auto.
    + destruct (verify_invalid_keeps_calls env token (core c)) as (Hc & _).
      unfold xret. cbn [fst snd core api_calls]. auto.
  - rewrite xbind_lift. unfold xret. cbn [fst snd core api_calls].
    split; [apply generate_keeps_calls | left; reflexivity].
Qed.

Lemma live_token_same_table (env : Env) (w w' : World) (token : value) (t : string) :
  confirmation_table w' = confirmation_table w ->
  live_token env w' token t -> live_token env w token t.
Proof. unfold live_token. intros ->. auto. Qed.

(** X17: [change_instance_type] changes the type only for a type within the
    ceiling, on an instance that is stopped, and with a token that was
    stored and not expired and is consumed by the call; with create_backup
    set, only after an image of the instance has been created. It makes no
    other call than that and the image creation before it. *)
Theorem resize_needs_budget_stopped_backup_and_token (env : Env) (aws : Aws)
    (instance_id new_instance_type : string) (token create_backup : value) (c : Cloud) :
  let res := change_instance_type env aws instance_id new_instance_type token
               create_backup c in
  ec2_calls (core (snd res)) = ec2_calls (core c) /\
  exists backups,
    (backups = [] \/
     truthy create_backup = true /\
     exists name text, backups = [CreateImage instance_id name text (VBool true)]) /\
    (api_calls (snd res) = (api_calls c ++ backups)%list \/
     (api_calls (snd res) =
        (api_calls c ++ backups ++
         [ModifyInstanceAttribute instance_id new_instance_type])%list /\
      (price_get INSTANCE_PRICING new_instance_type <= MAX_INSTANCE_COST_PER_HOUR env)%Q /\
      (exists instance rest,
         describe_instances env instance_id = inr (instance :: rest) /\
         InstanceState instance = "stopped") /\
      (truthy create_backup = true ->
       exists name text ami_id,
         backups = [CreateImage instance_id name text (VBool true)] /\
         create_image aws instance_id name text (VBool true) = inr ami_id) /\
      exists t, live_token env (core c) token t /\
                confirmation_table (core (snd res)) !! t = None)).
Proof.
  cbn zeta. unfold change_instance_type.
  destruct (allowed (check_budget_limits INSTANCE_PRICING env new_instance_type)) eqn:Ea;
    cbn [negb].
  2:{ unfold xret. cbn [snd]. split; [reflexivity|]. exists []. rewrite app_nil_r. auto. }
  apply allowed_iff in Ea.
  destruct (describe_instances env instance_id) as [e|[|instance rest]] eqn:Ed.
  - xlogged H. destruct H as (_ & Hc & He & _). rewrite Hc, He.
    split; [reflexivity|]. exists []. rewrite app_nil_r. auto.
  - unfold xret. cbn [snd]. split; [reflexivity|]. exists []. rewrite app_nil_r. auto.
  - destruct (String.eqb (InstanceState instance) "stopped") eqn:Es; cbn [negb].
    2:{ unfold xret. cbn [snd]. split; [reflexivity|]. exists []. rewrite app_nil_r. auto. }
    apply String.eqb_eq in Es.
    destruct (truthy create_backup) eqn:Eb.
    + destruct (create_ami_backup_paths env aws instance_id None
                  (Some ("Pre-resize backup: " ++ InstanceType instance ++ " to " ++
                         new_instance_type)) (VBool true) c) as (Ht & He & H).
      cbn zeta in H.
      destruct (create_ami_backup env aws instance_id None _ (VBool true) c)
        as [r c1] eqn:E.
      cbn [fst snd] in *. rewrite (xbind_eq _ _ _ _ _ E).
      destruct H as [(e & Hd & Hr & Hc & Hl) | [(Hd & Hr & Hc) |
        (i' & r' & Hd & Hc & [(e & Hi & Hr & Hl) | (ami & Hi & (b & Hr & Hs & _) & Hl)])]];
        try congruence; rewrite Hr.
      * change (truthy (item "success" (failure e))) with false. cbn [negb].
        unfold xret. cbn [snd]. split; [exact He|]. eexists. split; [right|left; exact Hc].
        split; [reflexivity|]. eauto.
      * rewrite Hs. cbn [truthy negb].
        destruct (resize_confirmed_calls env aws instance_id new_instance_type
                    (InstanceType instance)
                    (check_budget_limits INSTANCE_PRICING env new_instance_type)
                    token create_backup c1) as (He1 & H1).
        cbn zeta in H1. split; [congruence|].
        eexists. split; [right; split; [reflexivity|]; eauto|].
        destruct H1 as [H1 | (H1 & t & Hlive & Hgone)]; rewrite H1, Hc.
        -- left. reflexivity.
        -- right. rewrite <- app_assoc. split; [reflexivity|]. split; [exact Ea|].
           split; [eauto|]. split; [intros _; eauto|].
           exists t. split; [|exact Hgone]. eapply live_token_same_table; eauto.
    + destruct (resize_confirmed_calls env aws instance_id new_instance_type
                  (InstanceType instance)
                  (check_budget_limits INSTANCE_PRICING env new_instance_type)
                  token create_backup c) as (He1 & H1).
      cbn zeta in H1. split; [exact He1|].
      exists []. split; [left; reflexivity|]. rewrite app_nil_r.
      destruct H1 as [H1 | (H1 & t & Hlive & Hgone)]; rewrite H1.
      * left. reflexivity.
      * right. split; [reflexivity|]. split; [exact Ea|]. split; [eauto|].
        split; [intros [=]|]. eauto.
Qed.

(** X18: with create_backup set, a resize request within the ceiling for a
    stopped instance creates an image of the instance before it looks at
    the token: whatever the token is, missing, unknown or right, the first
    call made is [create_image] with the description of the resize. If
    that call fails the request ends there, with the error of the backup
    in the answer and the confirmation table as it was. *)
Theorem resize_backs_up_before_it_checks_the_token (env : Env) (aws : Aws)
    (instance_id new_instance_type : string) (token create_backup : value)
    (instance : Instance) (rest : list Instance) (c : Cloud) :
  (price_get INSTANCE_PRICING new_instance_type <= MAX_INSTANCE_COST_PER_HOUR env)%Q ->
  describe_instances env instance_id = inr (instance :: rest) ->
  InstanceState instance = "stopped" ->
  truthy create_backup = true ->
  let res := change_instance_type env aws instance_id new_instance_type token
               create_backup c in
  let name := backup_name aws instance None in
  let text := "Pre-resize backup: " ++ InstanceType instance ++ " to " ++ new_instance_type in
  (exists later,
     api_calls (snd res) =
       (api_calls c ++ CreateImage instance_id name text (VBool true) :: later)%list) /\
  (forall e,
     create_image aws instance_id name text (VBool true) = inl e ->
     fst res = XReturned (VDict [("success", VBool false);
                                 ("error", VStr "Failed to create AMI backup");
                                 ("backup_error", VStr e)]) [] /\
     api_calls (snd res) =
       (api_calls c ++ [CreateImage instance_id name text (VBool true)])%list /\
     confirmation_table (core (snd res)) = confirmation_table (core c)).
Proof.
  intros Hp Hd Hs Hb. cbn zeta. unfold change_instance_type.
  apply allowed_iff in Hp. rewrite Hp, Hd, Hs, Hb, String.eqb_refl. cbn [negb].
  destruct (create_ami_backup_paths env aws instance_id None
              (Some ("Pre-resize backup: " ++ InstanceType instance ++ " to " ++
                     new_instance_type)) (VBool true) c) as (Ht & He & H).
  cbn zeta in H.
  destruct (create_ami_backup env aws instance_id None _ (VBool true) c) as [r c1] eqn:E.
  cbn [fst snd] in *. rewrite (xbind_eq _ _ _ _ _ E).
  destruct H as [(e & Hd' & _) | [(Hd' & _) |
    (i' & r' & Hd' & Hc & [(e & Hi & Hr & Hl) | (ami & Hi & (b & Hr & Hsu & _) & Hl)])]];
    try congruence.
  - assert (i' = instance) as -> by congruence.
    change (backup_description aws instance_id instance (Some ?d)) with d in *.
    rewrite Hr. change (truthy (item "success" (failure e))) with false. cbn [negb].
    unfold xret. cbn [fst snd]. split; [exists []; exact Hc|].
    intros e' He'. rewrite Hi in He'. injection He' as <-. auto.
  - assert (i' = instance) as -> by congruence.
    change (backup_description aws instance_id instance (Some ?d)) with d in *.
    rewrite Hr, Hsu. cbn [truthy negb].
    destruct (resize_confirmed_calls env aws instance_id new_instance_type
                (InstanceType instance)
                (check_budget_limits INSTANCE_PRICING env new_instance_type)
                token create_backup c1) as (_ & H1).
    cbn zeta in H1. split; [|intros e He'; congruence].
    destruct H1 as [H1 | (H1 & _)]; rewrite H1, Hc, <- ?app_assoc; eexists; reflexivity.
Qed.

Lemma resize_confirmed_stored (env : Env) (aws : Aws) (instance_id new_instance_type : string)
    (current_type : string) (budget_check : BudgetDecision) (create_backup : value)
    (t : string) (it : TokenItem) (c : Cloud) :
  t <> EmptyString ->
  confirmation_table (core c) !! t = Some it ->
  parses it ->
  float_int (time_time env) <= tk_expires_at it ->
  token_get_item_raises env = None ->
  token_delete_item_raises env = None ->
  let res := resize_confirmed env aws instance_id new_instance_type current_type
               budget_check (VStr t) create_backup c in
  api_calls (snd res) =
    (api_calls c ++ [ModifyInstanceAttribute instance_id new_instance_type])%list /\
  confirmation_table (core (snd res)) !! t = None.
Proof.
  intros Hne Hit Hpar Hlive Hget Hdel. cbn zeta. unfold resize_confirmed.
  destruct t as [|a t']; [congruence|]. cbn [truthy negb].
  rewrite xbind_lift.
  destruct (verify_stored env (core c) _ it Hit Hget Hdel Hpar) as (r & E & Hr).
  rewrite E. cbn [fst snd].
  destruct Hr as [(Hx & _) | (_ & p & _ & ->)].
  { destruct (Z.gtb_spec (float_int (time_time env)) (tk_expires_at it));
      [lia | discriminate]. }
  change (truthy (item "valid" (valid_answer it p))) with true. cbn [negb].
  rewrite xbind_call_api. cbn [core api_calls].
  destruct (modify_instance_attribute aws instance_id new_instance_type);
    xlogged H; destruct H as (_ & Hc & _ & Ht & _); rewrite Hc, Ht;
    cbn [core api_calls confirmation_table]; (split; [reflexivity|]);
    apply lookup_delete_eq.
Qed.


(** X20: [change_instance_type] never compares what a token was issued for
    with the request: within the ceiling, on a stopped instance and with
    create_backup unset, every stored token that is not expired, whatever
    action and parameters its item names, lets the type be changed, and is
    consumed by it. *)
Theorem resize_accepts_a_token_issued_for_anything (env : Env) (aws : Aws)
    (instance_id new_instance_type : string) (create_backup : value)
    (instance : Instance) (rest : list Instance) (t : string) (it : TokenItem) (c : Cloud) :
  (price_get INSTANCE_PRICING new_instance_type <= MAX_INSTANCE_COST_PER_HOUR env)%Q ->
  describe_instances env instance_id = inr (instance :: rest) ->
  InstanceState instance = "stopped" ->
  truthy create_backup = false ->
  t <> EmptyString ->
  confirmation_table (core c) !! t = Some it ->
  parses it ->
  float_int (time_time env) <= tk_expires_at it ->
  token_get_item_raises env = None ->
  token_delete_item_raises env = None ->
  let res := change_instance_type env aws instance_id new_instance_type (VStr t)
               create_backup c in
  api_calls (snd res) =
    (api_calls c ++ [ModifyInstanceAttribute instance_id new_instance_type])%list /\
  confirmation_table (core (snd res)) !! t = None /\
  (forall u, modify_instance_attribute aws instance_id new_instance_type = inr u ->
     exists body extras, fst res = XReturned body extras /\
                         item "success" body = VBool true /\
                         item "old_type" body = VStr (InstanceType instance) /\
                         item "new_type" body = VStr new_instance_type).
Proof.
  intros Hp Hd Hs Hb Hne Hit Hpar Hlive Hget Hdel. cbn zeta.
  destruct (resize_confirmed_stored env aws instance_id new_instance_type
              (InstanceType instance)
              (check_budget_limits INSTANCE_PRICING env new_instance_type) create_backup
              t it c Hne Hit Hpar Hlive Hget Hdel) as (Hc & Hgone).
  unfold change_instance_type.
  apply allowed_iff in Hp. rewrite Hp, Hd, Hs, Hb, String.eqb_refl. cbn [negb].
  split; [exact Hc|]. split; [exact Hgone|].
  intros u Hu. unfold resize_confirmed.
  destruct t as [|a t']; [congruence|]. cbn [truthy negb].
  rewrite xbind_lift.
  destruct (verify_stored env (core c) _ it Hit Hget Hdel Hpar) as (r & E & Hr).
  rewrite E. cbn [fst snd].
  destruct Hr as [(Hx & _) | (_ & p & _ & ->)].
  { destruct (Z.gtb_spec (float_int (time_time env)) (tk_expires_at it));
      [lia | discriminate]. }
  change (truthy (item "valid" (valid_answer it p))) with true. cbn [negb].
  rewrite xbind_call_api, Hu. xlogged H. destruct H as (Hr & _). rewrite Hr.
  eexists; eexists; repeat split; reflexivity.
Qed.

(** *** Logging is best effort in these handlers too *)

Lemma same_cloud_refl (c : Cloud) : same_cloud c c.
Proof. repeat split. Qed.

Lemma log_action_related (env : Env) (f1 f2 : nat -> option string) (action : string)
    (parameters : value) (status : string) (result : value)
    (error user_query user_email : option string) (w1 w2 : World) :
  same_effects w1 w2 ->
  same_effects
    (snd (log_action (with_log_faults env f1) action parameters status result error
            user_query user_email w1))
    (snd (log_action (with_log_faults env f2) action parameters status result error
            user_query user_email w2)).
Proof.
  intros (Ht & Hc & Hq).
  destruct (log_action_frame (with_log_faults env f1) action parameters status result error
              user_query user_email w1) as (A1 & B1 & C1).
  destruct (log_action_frame (with_log_faults env f2) action parameters status result error
              user_query user_email w2) as (A2 & B2 & C2).
  repeat split; congruence.
Qed.

Lemma xlogged_related (env : Env) (f1 f2 : nat -> option string) (action : string)
    (parameters : value) (status : string) (result : value)
    (error user_email : option string) (r : xoutcome) (c1 c2 : Cloud) :
  same_cloud c1 c2 ->
  same_answer
    ((perform lift (log_action (with_log_faults env f1) action parameters status result error
                  None user_email) then xret r) c1)
    ((perform lift (log_action (with_log_faults env f2) action parameters status result error
                  None user_email) then xret r) c2).
Proof.
  intros (He & Ha). rewrite !xbind_lift. unfold xret, same_answer, same_cloud.
  cbn [fst snd core api_calls].
  split; [reflexivity|]. split; [now apply log_action_related | exact Ha].
Qed.

Lemma generate_related (env : Env) (f1 f2 : nat -> option string) (action : string)
    (parameters : value) (w1 w2 : World) :
  same_effects w1 w2 ->
  fst (generate_confirmation_token (with_log_faults env f1) action parameters w1) =
  fst (generate_confirmation_token (with_log_faults env f2) action parameters w2) /\
  same_effects
    (snd (generate_confirmation_token (with_log_faults env f1) action parameters w1))
    (snd (generate_confirmation_token (with_log_faults env f2) action parameters w2)).
Proof.
  intros (Ht & Hc & Hq). unfold generate_confirmation_token, same_effects.
  cbn [with_log_faults token_put_item_raises time_time datetime_now_iso].
  destruct (token_put_item_raises env); cbn; rewrite ?Ht; auto.
Qed.

Lemma verify_related (env : Env) (f1 f2 : nat -> option string) (token : value)
    (w1 w2 : World) :
  same_effects w1 w2 ->
  fst (verify_confirmation_token (with_log_faults env f1) token w1) =
  fst (verify_confirmation_token (with_log_faults env f2) token w2) /\
  same_effects
    (snd (verify_confirmation_token (with_log_faults env f1) token w1))
    (snd (verify_confirmation_token (with_log_faults env f2) token w2)).
Proof.
  intros (Ht & Hc & Hq). unfold verify_confirmation_token, same_effects.
  cbn [with_log_faults token_get_item_raises token_delete_item_raises time_time
       json_decode_error key_validation_error].
  destruct (token_get_item_raises env); [cbn; auto|].
  destruct token; try (cbn; auto; fail).
  unfold bind, ret, get_token, delete_token. rewrite Ht.
  destruct (confirmation_table w2 !! s); [|cbn; auto].
  destruct (_ >? _).
  - destruct (token_delete_item_raises env); cbn; rewrite ?Ht; auto.
  - destruct (json_loads _); [|cbn; auto].
    destruct (token_delete_item_raises env); cbn; rewrite ?Ht; auto.
Qed.

Lemma create_ami_backup_related (env : Env) (f1 f2 : nat -> option string) (aws : Aws)
    (instance_id : string) (ami_name description : option string) (no_reboot : value)
    (c1 c2 : Cloud) :
  same_cloud c1 c2 ->
  same_answer
    (create_ami_backup (with_log_faults env f1) aws instance_id ami_name description
       no_reboot c1)
    (create_ami_backup (with_log_faults env f2) aws instance_id ami_name description
       no_reboot c2).
Proof.
  intros H. unfold create_ami_backup. cbn [with_log_faults describe_instances].
  destruct (describe_instances env instance_id) as [e|[|instance rest]].
  - now apply xlogged_related.
  - split; [reflexivity | exact H].
  - rewrite !xbind_call_api.
    assert (H' : forall call, same_cloud (mkCloud (core c1) (api_calls c1 ++ [call]))
                                         (mkCloud (core c2) (api_calls c2 ++ [call]))).
    { intros call. destruct H as (He & Ha). split; [exact He|]. cbn. now rewrite Ha. }
    destruct (create_image aws instance_id _ _ no_reboot); apply xlogged_related, H'.
Qed.

Lemma resize_confirmed_related (env : Env) (f1 f2 : nat -> option string) (aws : Aws)
    (instance_id new_instance_type current_type : string) (token create_backup : value)
    (c1 c2 : Cloud) :
  same_cloud c1 c2 ->
  same_answer
    (resize_confirmed (with_log_faults env f1) aws instance_id new_instance_type
       current_type (check_budget_limits INSTANCE_PRICING env new_instance_type)
       token create_backup c1)
    (resize_confirmed (with_log_faults env f2) aws instance_id new_instance_type
       current_type (check_budget_limits INSTANCE_PRICING env new_instance_type)
       token create_backup c2).
Proof.
  intros (He & Ha). unfold resize_confirmed.
  destruct (truthy token); cbn [negb]; rewrite !xbind_lift.
  - destruct (verify_related env f1 f2 token _ _ He) as (Hr & He').
    rewrite <- Hr.
    destruct (truthy (item "valid" _)); cbn [negb].
    + rewrite !xbind_call_api.
      destruct (modify_instance_attribute aws instance_id new_instance_type);
        apply xlogged_related; (split; [exact He' | cbn; now rewrite Ha]).
    + split; [reflexivity|]. split; [exact He' | exact Ha].
  - destruct (generate_related env f1 f2 "change_instance_type"
                (VDict [("instance_id", VStr instance_id);
                        ("new_type", VStr new_instance_type)]) _ _ He) as (Hr & He').
    rewrite <- Hr. split; [reflexivity|]. split; [exact He' | exact Ha].
Qed.

(** X21: a failing audit table never changes what [launch_ec2_instance],
    [create_ami_backup] and [change_instance_type] do: under any faults of
    the audit table they give the answer, make the calls and leave the
    confirmation table that they give with a working one. *)
Theorem audit_failure_never_changes_a_launch_backup_or_resize (env : Env) (aws : Aws)
    (faults : nat -> option string) (c : Cloud) :
  (forall ami_id instance_type key_name subnet_id security_group_ids tags dry_run,
     same_answer
       (launch_ec2_instance (with_log_faults env faults) aws ami_id instance_type key_name
          subnet_id security_group_ids tags dry_run c)
       (launch_ec2_instance (with_log_faults env no_log_faults) aws ami_id instance_type
          key_name subnet_id security_group_ids tags dry_run c)) /\
  (forall instance_id ami_name description no_reboot,
     same_answer
       (create_ami_backup (with_log_faults env faults) aws instance_id ami_name description
          no_reboot c)
       (create_ami_backup (with_log_faults env no_log_faults) aws instance_id ami_name
          description no_reboot c)) /\
  (forall instance_id new_instance_type token create_backup,
     same_answer
       (change_instance_type (with_log_faults env faults) aws instance_id new_instance_type
          token create_backup c)
       (change_instance_type (with_log_faults env no_log_faults) aws instance_id
          new_instance_type token create_backup c)).
Proof.
  split; [|split].
  - intros. unfold launch_ec2_instance.
    change (check_budget_limits INSTANCE_PRICING (with_log_faults env ?f) instance_type)
      with (check_budget_limits INSTANCE_PRICING env instance_type).
    destruct (allowed _); cbn [negb]; [|apply xlogged_related, same_cloud_refl].
    destruct (truthy dry_run); [split; [reflexivity | apply same_cloud_refl]|].
    destruct (if truthy tags then _ else _) as [extra_tags|];
      [|split; [reflexivity | apply same_cloud_refl]].
    rewrite !xbind_call_api.
    change (launch_params (with_log_faults env ?f) aws ami_id instance_type key_name
              subnet_id security_group_ids extra_tags)
      with (launch_params env aws ami_id instance_type key_name subnet_id
              security_group_ids extra_tags).
    destruct (run_instances aws _); apply xlogged_related, same_cloud_refl.
  - intros. apply create_ami_backup_related, same_cloud_refl.
  - intros. unfold change_instance_type.
    change (check_budget_limits INSTANCE_PRICING (with_log_faults env ?f) new_instance_type)
      with (check_budget_limits INSTANCE_PRICING env new_instance_type).
    destruct (allowed _); cbn [negb]; [|split; [reflexivity | apply same_cloud_refl]].
    cbn [with_log_faults describe_instances].
    destruct (describe_instances env instance_id) as [e|[|instance rest]].
    + apply xlogged_related, same_cloud_refl.
    + split; [reflexivity | apply same_cloud_refl].
    + destruct (negb _); [split; [reflexivity | apply same_cloud_refl]|].
      destruct (truthy create_backup);
        [|apply resize_confirmed_related, same_cloud_refl].
      pose proof (create_ami_backup_related env faults no_log_faults aws instance_id None
                    (Some ("Pre-resize backup: " ++ InstanceType instance ++ " to " ++
                           new_instance_type)) (VBool true) c c (same_cloud_refl c))
        as (Hr & Hc).
      destruct (create_ami_backup (with_log_faults env faults) _ _ _ _ _ c)
        as [r1 c1] eqn:E1.
      destruct (create_ami_backup (with_log_faults env no_log_faults) _ _ _ _ _ c)
        as [r2 c2] eqn:E2.
      cbn [fst snd] in Hr, Hc. subst r2.
      rewrite (xbind_eq _ _ _ _ _ E1), (xbind_eq _ _ _ _ _ E2).
      destruct r1 as [result extras|exn]; [|split; [reflexivity | exact Hc]].
      destruct (negb _); [split; [reflexivity | exact Hc]|].
      now apply resize_confirmed_related.
Qed.

(** *** Reading the audit log *)

(** X22: [get_action_logs] sends ScanIndexForward, an argument of query and
    not of scan, with every scan, whatever the limit and the filter. With a
    table client that refuses a scan holding this argument, it therefore
    answers failure with the text of the refusal for every limit and every
    filter, and never returns a record. *)
Theorem log_reader_fails_when_scan_refuses_the_sort_argument (aws : Aws) :
  (forall params, item "ScanIndexForward" params <> VNone ->
                  exists e, scan aws params = inl e) ->
  forall limit action_filter,
    item "ScanIndexForward" (scan_params limit action_filter) = VBool false /\
    item "Limit" (scan_params limit action_filter) = VInt limit /\
    exists e,
      scan aws (scan_params limit action_filter) = inl e /\
      get_action_logs aws limit action_filter = LogsFailed e.
Proof.
  intros Hrefuse limit action_filter.
  assert (Hk : item "ScanIndexForward" (scan_params limit action_filter) = VBool false).
  { unfold scan_params. destruct (truthy action_filter); reflexivity. }
  split; [exact Hk|]. split; [unfold scan_params; destruct (truthy action_filter); reflexivity|].
  destruct (Hrefuse (scan_params limit action_filter)) as (e & He).
  { rewrite Hk. discriminate. }
  exists e. split; [exact He|]. unfold get_action_logs. now rewrite He.
Qed.

(** *** The further theorems at concrete inputs *)

Lemma issued_token_lifetime_witness :
  let token := token_of "terminate_instance" (terminate_parameters "i-1") demo_clock in
  verify_confirmation_token issuing_env (VStr token) issued_world =
    (VDict [("valid", VBool true); ("action", VStr "terminate_instance");
            ("parameters", terminate_parameters "i-1")],
     without_token token issued_world) /\
  verify_confirmation_token (demo_env (inr []) late_clock) (VStr token) issued_world =
    (expired_answer, without_token token issued_world).
Proof.
  split.
  - apply (proj1 (issued_token_lifetime issuing_env issuing_env "terminate_instance"
                    (terminate_parameters "i-1") demo_world eq_refl eq_refl eq_refl)).
    vm_compute. discriminate.
  - apply (proj2 (issued_token_lifetime issuing_env (demo_env (inr []) late_clock)
                    "terminate_instance" (terminate_parameters "i-1") demo_world
                    eq_refl eq_refl eq_refl)).
    vm_compute. reflexivity.
Defined.

Lemma unknown_token_changes_nothing_witness :
  terminate_ec2_instance issuing_env "i-1" (VStr "0123456789AB") (VBool true) demo_world =
    (Returned (failure "Invalid confirmation token"), demo_world) /\
  delete_ebs_volume issuing_env "vol-1" (VStr "0123456789AB") demo_world =
    (Returned (failure "Invalid confirmation token"), demo_world).
Proof.
  assert (Hne : "0123456789AB" <> EmptyString) by discriminate.
  destruct (unknown_token_changes_nothing issuing_env "0123456789AB" demo_world Hne
              eq_refl eq_refl) as (Ht & Hd).
  split.
  - apply (Ht "i-1" (VBool true) _ _ eq_refl). left. reflexivity.
  - apply (Hd "vol-1" _ _ eq_refl). reflexivity.
Defined.

Lemma failed_termination_consumes_the_token_witness :
  let token := token_of "terminate_instance" (terminate_parameters "i-1") demo_clock in
  let res := terminate_ec2_instance stopped_env "i-1" (VStr token) (VBool true)
               issued_world in
  fst res = Returned (failure "UnauthorizedOperation") /\
  ec2_calls (snd res) = [TerminateInstances "i-1"] /\
  confirmation_table (snd res) !! token = None /\
  map lg_status (action_log_table (snd res)) = ["failed"].
Proof.
  cbn zeta.
  assert (Hne : token_of "terminate_instance" (terminate_parameters "i-1") demo_clock
                <> EmptyString) by (vm_compute; discriminate).
  assert (Hit : confirmation_table issued_world
                  !! token_of "terminate_instance" (terminate_parameters "i-1") demo_clock
                = Some (issued_item issuing_env "terminate_instance"
                          (terminate_parameters "i-1"))) by (vm_compute; reflexivity).
  assert (Hlive : float_int (time_time stopped_env)
                  <= tk_expires_at (issued_item issuing_env "terminate_instance"
                                      (terminate_parameters "i-1")))
    by (vm_compute; discriminate).
  destruct (failed_termination_consumes_the_token stopped_env "i-1" (VBool true)
              (mkInstance "i-1" "t3.micro" "stopped" [("Name", "web")]) []
              _ _ "UnauthorizedOperation" issued_world eq_refl
              (or_introl eq_refl) Hne Hit (issued_item_parses _ _ _) Hlive
              eq_refl eq_refl eq_refl) as (Hr & Hc & Hg & Hl).
  split; [exact Hr|]. split; [exact Hc|]. split; [exact Hg|].
  rewrite Hl. reflexivity.
Defined.

Lemma amis_are_listed_newest_first_witness :
  list_instance_amis (demo_env (inr [old_image; fresh_image]) demo_clock) "i-1" =
    VDict [("success", VBool true);
           ("amis", VList [snd (ami_info fresh_image); snd (ami_info old_image)]);
           ("count", VInt 2)].
Proof.
  destruct (amis_are_listed_newest_first
              (demo_env (inr [old_image; fresh_image]) demo_clock) "i-1"
              [old_image; fresh_image] eq_refl) as (amis & Hraw & _ & _ & Hv).
  injection Hraw as <-. exact Hv.
Defined.

Lemma backup_status_reports_the_newest_image_witness :
  let status :=
    check_ami_backup_status (demo_env (inr [old_image; fresh_image]) demo_clock) "i-1" in
  item "success" status = VBool true /\
  item "has_backup" status = VBool true /\
  get "has_recent_backup" (VBool false) status = VBool true.
Proof.
  destruct (backup_status_reports_the_newest_image
              (demo_env (inr [old_image; fresh_image]) demo_clock) "i-1"
              [old_image; fresh_image] eq_refl) as (Hs & Hb & Hr & _).
  cbn zeta. split; [exact Hs|]. split; [exact Hb | exact Hr].
Defined.

Lemma budget_guard_threshold_witness :
  exists instance_type,
    allowed (check_budget_limits INSTANCE_PRICING issuing_env instance_type) = false.
Proof.
  apply (proj2 (budget_guard_threshold issuing_env)). reflexivity.
Defined.

Lemma malformed_parameters_raise_witness :
  process_ec2_action issuing_env "terminate_instance"
    [("instance", VStr "i-1")] demo_world = (Raised "TypeError", demo_world) /\
  process_ec2_action issuing_env "delete_volume"
    [("volume_id", VStr "vol-1"); ("force", VBool true)] demo_world =
    (Raised "TypeError", demo_world).
Proof.
  split.
  - apply (proj1 (malformed_parameters_raise issuing_env [("instance", VStr "i-1")]
                    demo_world)).
    left. reflexivity.
  - apply (proj2 (malformed_parameters_raise issuing_env
                    [("volume_id", VStr "vol-1"); ("force", VBool true)] demo_world)).
    right. exists "force", (VBool true). split; [right; left; reflexivity|].
    intros [H | [H | []]]; discriminate H.
Defined.

Lemma handlers_keep_the_table_readable_witness :
  store_wf (snd (terminate_ec2_instance issuing_env "i-1" VNone (VBool true) demo_world)) /\
  store_wf (snd (delete_ebs_volume issuing_env "vol-1" VNone demo_world)).
Proof.
  destruct (handlers_keep_the_table_readable issuing_env demo_world
              (store_wf_empty [] 0 [] [])) as (Ht & Hd & _).
  split; [apply Ht | apply Hd].
Defined.

Lemma launch_respects_the_ceiling_and_the_dry_run_witness :
  snd (launch_ec2_instance issuing_env demo_aws "ami-1" "t3.micro" VNone VNone VNone VNone
         (VBool true) demo_cloud) = demo_cloud.
Proof.
  apply (launch_respects_the_ceiling_and_the_dry_run issuing_env demo_aws "ami-1" "t3.micro"
           VNone VNone VNone VNone (VBool true) demo_cloud).
  - reflexivity.
  - vm_compute. discriminate.
Defined.

Lemma launch_over_the_ceiling_is_refused_and_audited_witness :
  let res := launch_ec2_instance issuing_env demo_aws "ami-1" "m5.4xlarge" VNone VNone VNone
               VNone (VBool false) demo_cloud in
  api_calls (snd res) = [] /\
  map lg_user_email (action_log_table (core (snd res))) = ["ann@example.com"] /\
  map lg_status (action_log_table (core (snd res))) = ["failed"].
Proof.
  cbn zeta.
  destruct (launch_over_the_ceiling_is_refused_and_audited issuing_env demo_aws "ami-1"
              "m5.4xlarge" VNone VNone VNone VNone (VBool false) demo_cloud)
    as (_ & Hc & Hl); [reflexivity|].
  split; [exact Hc|]. rewrite Hl. split; reflexivity.
Defined.

Lemma backup_succeeds_only_with_a_created_image_witness :
  let res := create_ami_backup issuing_env demo_aws "i-1" None None (VBool true) demo_cloud in
  api_calls (snd res) =
    [CreateImage "i-1" "web-backup-2024-11-03-160000"
       "AMI backup of web (i-1) created on 2024-11-03-160000" (VBool true)] /\
  exists body extras, fst res = XReturned body extras /\ item "ami_id" body = VStr "ami-9".
Proof.
  cbn zeta.
  destruct (backup_succeeds_only_with_a_created_image issuing_env demo_aws "i-1" None None
              (VBool true) demo_cloud) as (_ & _ & _ & Hok & _).
  destruct (Hok _ _ eq_refl eq_refl) as (instance & rest & ami & Hd & Hc & Hi & Ha & _).
  injection Hd as <- <-. injection Hi as <-.
  split; [exact Hc|]. eexists; eexists. split; [reflexivity | exact Ha].
Defined.

Lemma resize_backs_up_before_it_checks_the_token_witness :
  exists later,
    api_calls (snd (change_instance_type stopped_env demo_aws "i-1" "t3.small"
                      (VStr "0123456789AB") (VBool true) demo_cloud)) =
    CreateImage "i-1" "web-backup-2024-11-03-160000"
      "Pre-resize backup: t3.micro to t3.small" (VBool true) :: later.
Proof.
  apply (resize_backs_up_before_it_checks_the_token stopped_env demo_aws "i-1" "t3.small"
           (VStr "0123456789AB") (VBool true)
           (mkInstance "i-1" "t3.micro" "stopped" [("Name", "web")]) [] demo_cloud).
  - vm_compute. discriminate.
  - reflexivity.
  - reflexivity.
  - reflexivity.
Defined.


Lemma log_reader_fails_when_scan_refuses_the_sort_argument_witness :
  get_action_logs demo_aws 20 VNone =
    LogsFailed "Parameter validation failed: Unknown parameter in input: ScanIndexForward" /\
  get_action_logs demo_aws 50 (VStr "terminate_instance") =
    LogsFailed "Parameter validation failed: Unknown parameter in input: ScanIndexForward".
Proof.
  assert (H : forall params, item "ScanIndexForward" params <> VNone ->
                             exists e, scan demo_aws params = inl e).
  { intros params Hp. cbn [scan demo_aws].
    destruct (item "ScanIndexForward" params); [congruence | eauto ..]. }
  split.
  - destruct (log_reader_fails_when_scan_refuses_the_sort_argument demo_aws H 20 VNone)
      as (_ & _ & e & He & Hr).
    rewrite Hr. f_equal. vm_compute in He. now injection He as <-.
  - destruct (log_reader_fails_when_scan_refuses_the_sort_argument demo_aws H 50
                (VStr "terminate_instance")) as (_ & _ & e & He & Hr).
    rewrite Hr. f_equal. vm_compute in He. now injection He as <-.
Defined.

Lemma resize_accepts_a_token_issued_for_anything_witness :
  let token := token_of "terminate_instance" (terminate_parameters "i-1") demo_clock in
  let res := change_instance_type stopped_env demo_aws "i-2" "t3.small" (VStr token)
               (VBool false) (mkCloud issued_world []) in
  api_calls (snd res) = [ModifyInstanceAttribute "i-2" "t3.small"] /\
  confirmation_table (core (snd res)) !! token = None.
Proof.
  cbn zeta.
  assert (Hp : (price_get INSTANCE_PRICING "t3.small"
                <= MAX_INSTANCE_COST_PER_HOUR stopped_env)%Q) by (vm_compute; discriminate).
  assert (Hne : token_of "terminate_instance" (terminate_parameters "i-1") demo_clock
                <> EmptyString) by (vm_compute; discriminate).
  assert (Hit : confirmation_table issued_world
                  !! token_of "terminate_instance" (terminate_parameters "i-1") demo_clock
                = Some (issued_item issuing_env "terminate_instance"
                          (terminate_parameters "i-1"))) by (vm_compute; reflexivity).
  assert (Hlive : float_int (time_time stopped_env)
                  <= tk_expires_at (issued_item issuing_env "terminate_instance"
                                      (terminate_parameters "i-1")))
    by (vm_compute; discriminate).
  destruct (resize_accepts_a_token_issued_for_anything stopped_env demo_aws "i-2" "t3.small"
              (VBool false) (mkInstance "i-2" "t3.micro" "stopped" [("Name", "web")]) []
              _ _ (mkCloud issued_world []) Hp eq_refl eq_refl eq_refl Hne Hit
              (issued_item_parses _ _ _) Hlive eq_refl eq_refl) as (Hc & Hg & _).
  split; [exact Hc | exact Hg].
Defined.

Lemma unlisted_type_passes_the_budget_guard_witness :
  exists params,
    api_calls (snd (launch_ec2_instance issuing_env demo_aws "ami-1" "p4d.24xlarge" VNone
                      VNone VNone (VDict []) (VBool false) demo_cloud)) =
    [RunInstances params] /\
    item "InstanceType" params = VStr "p4d.24xlarge".
Proof.
  eexists. split.
  - apply (unlisted_type_passes_the_budget_guard issuing_env demo_aws "ami-1" "p4d.24xlarge"
             VNone VNone VNone (VBool false) [] demo_cloud).
    + intros price H. cbn in H.
      repeat (destruct H as [H|H]; [discriminate H|]). exact H.
    + vm_compute. discriminate.
    + reflexivity.
  - reflexivity.
Defined.
